(** * The MESSy coupler of t8code: coarsening, interpolation and tracer ingest

    A shallow embedding of [src/t8_messy/t8_messy_coupler.cxx].

    Conventions of the embedding.
    - A C [double] is a binary64 float of the kernel ([PrimFloat.float]);
      [==], [<], [>] on doubles are the IEEE comparisons, so a NaN is
      different from itself and [0.0 / 0.0] is a NaN.
    - A C [int] is a [Z].  Signed overflow is undefined in C; the model is
      exact as long as the products of lengths fit an [int].
    - A [double*] field is a [buffer]: [None] for [NULL], or the contents of
      the allocation.  Reading or writing out of range is undefined in C;
      here a read out of range yields [0.0] and a write out of range does
      nothing, and the theorems carry the range hypotheses they need.
    - A [for] loop over [0 <= i < n] is [for_loop]; a loop body that can
      [return] is [for_loop_ret]. *)

From Stdlib Require Import ZArith Lia List Floats Uint63 Ascii String Bool.
From stdpp Require Import base list.

Open Scope Z_scope.

(** ** C primitives *)

Module C.

Definition double : Type := float.

Definition fadd (a b : double) : double := PrimFloat.add a b.
Definition fsub (a b : double) : double := PrimFloat.sub a b.
Definition fmul (a b : double) : double := PrimFloat.mul a b.
Definition fdiv (a b : double) : double := PrimFloat.div a b.
Definition feq (a b : double) : bool := PrimFloat.eqb a b.
Definition flt (a b : double) : bool := PrimFloat.ltb a b.
Definition fgt (a b : double) : bool := PrimFloat.ltb b a.
Definition fabs (a : double) : double := PrimFloat.abs a.

(** [fmax] and [fmin] of <math.h>: a NaN argument is ignored. *)
Definition fmax (a b : double) : double :=
  if PrimFloat.is_nan a then b
  else if PrimFloat.is_nan b then a
  else if flt a b then b else a.

Definition fmin (a b : double) : double :=
  if PrimFloat.is_nan a then b
  else if PrimFloat.is_nan b then a
  else if flt b a then b else a.

(** Conversion of an [int] or [long] to [double]. *)
Definition double_of_int (n : Z) : double :=
  if n <? 0 then PrimFloat.opp (PrimFloat.of_uint63 (Uint63.of_Z (- n)))
  else PrimFloat.of_uint63 (Uint63.of_Z n).

(** [LONG_MIN] and [LONG_MAX] of a 64-bit [long], as they convert to
    [double] in the initialisers of [get_max] and [get_min]. *)
Definition LONG_MIN : double := (-9223372036854775808)%float.
Definition LONG_MAX : double := 9223372036854775808%float.

(** A pointer to an array: [NULL] or the contents of the allocation. *)
Definition buffer (A : Type) : Type := option (list A).

Definition contents {A} (p : buffer A) : list A :=
  match p with Some l => l | None => [] end.

Definition buf_len {A} (p : buffer A) : Z := Z.of_nat (length (contents p)).

(** [p[i]] as an rvalue. *)
Definition rd (p : buffer double) (i : Z) : double :=
  if i <? 0 then 0%float else nth (Z.to_nat i) (contents p) 0%float.

(** [p[i] = v]. *)
Definition wr (p : buffer double) (i : Z) (v : double) : buffer double :=
  match p with
  | None => None
  | Some l => if i <? 0 then Some l else Some (<[Z.to_nat i := v]> l)
  end.

(** A local array [double a[n]] read at [i]. *)
Definition at_ (a : list double) (i : Z) : double :=
  if i <? 0 then 0%float else nth (Z.to_nat i) a 0%float.

(** [T8_ALLOC_ZERO (double, n)]. *)
Definition T8_ALLOC_ZERO {A} (zero : A) (n : Z) : buffer A :=
  Some (repeat zero (Z.to_nat n)).

(** [for (i = lo; i < hi; ++i) s = body i s]. *)
Fixpoint for_up {St : Type} (n : nat) (i : Z) (body : Z -> St -> St)
    (s : St) : St :=
  match n with
  | O => s
  | S n' => for_up n' (i + 1) body (body i s)
  end.

Definition for_loop {St : Type} (lo hi : Z) (body : Z -> St -> St)
    (s : St) : St :=
  for_up (Z.to_nat (hi - lo)) lo body s.

(** The same loop with a body that may [return r]: [inl r] leaves the
    loop (and the function), [inr s] goes on. *)
Fixpoint for_up_ret {St R : Type} (n : nat) (i : Z)
    (body : Z -> St -> R + St) (s : St) : R + St :=
  match n with
  | O => inr s
  | S n' =>
      match body i s with
      | inl r => inl r
      | inr s' => for_up_ret n' (i + 1) body s'
      end
  end.

Definition for_loop_ret {St R : Type} (lo hi : Z)
    (body : Z -> St -> R + St) (s : St) : R + St :=
  for_up_ret (Z.to_nat (hi - lo)) lo body s.

(** [memcpy (dst + doff, src + soff, n * sizeof (double))] on two
    distinct allocations. *)
Definition memcpy (dst : buffer double) (doff : Z) (src : buffer double)
    (soff : Z) (n : Z) : buffer double :=
  for_loop 0 n (fun k d => wr d (doff + k) (rd src (soff + k))) dst.

End C.

Import C.

(** ** Numeric helpers of the coupler *)

Module Coupler.

(** [get_mean]: the sum of [values[0 .. num_elements)] divided by
    [num_elements]. *)
Definition get_mean (values : list double) (num_elements : Z) : double :=
  let mean_value :=
    for_loop 0 num_elements (fun i m => fadd m (at_ values i)) 0%float in
  fdiv mean_value (double_of_int num_elements).

Definition get_max (values : list double) (num_elements : Z) : double :=
  for_loop 0 num_elements (fun i m => fmax m (at_ values i)) LONG_MIN.

Definition get_min (values : list double) (num_elements : Z) : double :=
  for_loop 0 num_elements (fun i m => fmin m (at_ values i)) LONG_MAX.

(** [get_values] fills [values[i]] with [data[first + i * element_length +
    tracer]] for [i < num_elements]; the filled array is the result. *)
Definition get_values (first num_elements element_length tracer : Z)
    (data : buffer double) : list double :=
  for_loop 0 num_elements
    (fun i values =>
       let offset := first + i * element_length + tracer in
       values ++ [rd data offset]) [].

(** [mult_sum]: the products [a[i] * b[i]] added up; an index is skipped
    when [a[i]] and [b[i]] both equal [missing_value]. *)
Definition mult_sum (num_elements : Z) (a b : list double)
    (missing_value : double) : double :=
  for_loop 0 num_elements
    (fun i sum =>
       if feq (at_ a i) missing_value && feq (at_ b i) missing_value then sum
       else fadd sum (fmul (at_ a i) (at_ b i))) 0%float.

(** [sum]: the entries of [a] added up, those equal to [missing_value]
    skipped. *)
Definition sum (num_elements : Z) (a : list double)
    (missing_value : double) : double :=
  for_loop 0 num_elements
    (fun i sum =>
       if feq (at_ a i) missing_value then sum
       else fadd sum (at_ a i)) 0%float.

Definition calculate_errors (num_elements : Z) (values : list double)
    (value missing_value : double) : list double :=
  for_loop 0 num_elements
    (fun i errors =>
       errors ++ [if feq (at_ values i) missing_value then 0%float
                  else fabs (fsub (at_ values i) value)]) [].

(** [calculate_error_ratios]: the quotient is by [values[i]], sign
    included. *)
Definition calculate_error_ratios (num_elements : Z) (values : list double)
    (value missing_value : double) : list double :=
  for_loop 0 num_elements
    (fun i errors =>
       errors ++ [if feq (at_ values i) missing_value
                     || feq (at_ values i) 0%float
                  then 0%float
                  else fdiv (fabs (fsub (at_ values i) value))
                            (at_ values i)]) [].

Definition check_errors (num_elements : Z) (errors : list double)
    (max_error : double) : Z :=
  match for_loop_ret 0 num_elements
          (fun i (_ : unit) =>
             if fgt (at_ errors i) max_error then inl 1 else inr tt) tt with
  | inl r => r
  | inr _ => 0
  end.

Definition check_errors_by_ratio (num_elements : Z) (ratio : double)
    (errors values : list double) (missing_value : double) : Z :=
  match for_loop_ret 0 num_elements
          (fun i (_ : unit) =>
             if feq (at_ values i) missing_value then inr tt
             else if fgt (at_ errors i) (fmul (at_ values i) ratio)
                  then inl 1 else inr tt) tt with
  | inl r => r
  | inr _ => 0
  end.

(** ** Data model *)

(** The numbering of a chunk's data: the dense MESSy layout or the order of
    the forest's leaves (Morton order). *)
Inductive T8_LATLON_DATA_NUMBERING : Type :=
  | T8_LATLON_DATA_MESSY
  | T8_LATLON_DATA_MORTON.

(** The fields of [t8_latlon_data_chunk_t] the coupler uses;
    [max_level] is the refinement level that [t8_messy_initialize] passes
    on from the forest. *)
Record t8_latlon_data_chunk_t : Type := {
  description : string;
  x_start : Z;
  y_start : Z;
  x_length : Z;
  y_length : Z;
  z_length : Z;
  shape : list Z;
  num_tracers : Z;
  x_axis : Z;
  y_axis : Z;
  z_axis : Z;
  tracer_names : list string;
  missing_value : double;
  max_level : Z;
  numbering : T8_LATLON_DATA_NUMBERING;
  data : buffer double;
  data_ids : buffer Z;
  data_adapt : buffer double;
  data_ids_adapt : buffer Z
}.

Definition tracer_names_size (c : t8_latlon_data_chunk_t) : Z :=
  Z.of_nat (length (tracer_names c)).

Definition set_data (c : t8_latlon_data_chunk_t) (v : buffer double) :=
  {| description := description c; x_start := x_start c;
     y_start := y_start c; x_length := x_length c; y_length := y_length c;
     z_length := z_length c; shape := shape c; num_tracers := num_tracers c;
     x_axis := x_axis c; y_axis := y_axis c; z_axis := z_axis c;
     tracer_names := tracer_names c; missing_value := missing_value c;
     max_level := max_level c; numbering := numbering c;
     data := v; data_ids := data_ids c;
     data_adapt := data_adapt c; data_ids_adapt := data_ids_adapt c |}.

Definition set_data_ids (c : t8_latlon_data_chunk_t) (v : buffer Z) :=
  {| description := description c; x_start := x_start c;
     y_start := y_start c; x_length := x_length c; y_length := y_length c;
     z_length := z_length c; shape := shape c; num_tracers := num_tracers c;
     x_axis := x_axis c; y_axis := y_axis c; z_axis := z_axis c;
     tracer_names := tracer_names c; missing_value := missing_value c;
     max_level := max_level c; numbering := numbering c;
     data := data c; data_ids := v;
     data_adapt := data_adapt c; data_ids_adapt := data_ids_adapt c |}.

Definition set_data_adapt (c : t8_latlon_data_chunk_t) (v : buffer double) :=
  {| description := description c; x_start := x_start c;
     y_start := y_start c; x_length := x_length c; y_length := y_length c;
     z_length := z_length c; shape := shape c; num_tracers := num_tracers c;
     x_axis := x_axis c; y_axis := y_axis c; z_axis := z_axis c;
     tracer_names := tracer_names c; missing_value := missing_value c;
     max_level := max_level c; numbering := numbering c;
     data := data c; data_ids := data_ids c;
     data_adapt := v; data_ids_adapt := data_ids_adapt c |}.

Definition set_data_ids_adapt (c : t8_latlon_data_chunk_t) (v : buffer Z) :=
  {| description := description c; x_start := x_start c;
     y_start := y_start c; x_length := x_length c; y_length := y_length c;
     z_length := z_length c; shape := shape c; num_tracers := num_tracers c;
     x_axis := x_axis c; y_axis := y_axis c; z_axis := z_axis c;
     tracer_names := tracer_names c; missing_value := missing_value c;
     max_level := max_level c; numbering := numbering c;
     data := data c; data_ids := data_ids c;
     data_adapt := data_adapt c; data_ids_adapt := v |}.

Definition set_tracer_names (c : t8_latlon_data_chunk_t) (v : list string) :=
  {| description := description c; x_start := x_start c;
     y_start := y_start c; x_length := x_length c; y_length := y_length c;
     z_length := z_length c; shape := shape c; num_tracers := num_tracers c;
     x_axis := x_axis c; y_axis := y_axis c; z_axis := z_axis c;
     tracer_names := v; missing_value := missing_value c;
     max_level := max_level c; numbering := numbering c;
     data := data c; data_ids := data_ids c;
     data_adapt := data_adapt c; data_ids_adapt := data_ids_adapt c |}.

(** Modelled from the spec: [t8_latlon_get_tracer_idx], which is defined
    in [t8_latlon_data.c].  The registered names are scanned in order; a
    name that is found yields its index, a new name is appended when [add]
    holds, and [-1] is the answer otherwise. *)
Fixpoint find_tracer (names : list string) (name : string) (i : Z) : Z :=
  match names with
  | [] => -1
  | n :: rest => if String.eqb n name then i else find_tracer rest name (i + 1)
  end.

Definition t8_latlon_get_tracer_idx (c : t8_latlon_data_chunk_t)
    (name : string) (add : bool) : Z * t8_latlon_data_chunk_t :=
  let found := find_tracer (tracer_names c) name 0 in
  if 0 <=? found then (found, c)
  else if add then
    (tracer_names_size c, set_tracer_names c (tracer_names c ++ [name]))
  else (-1, c).

(** The argument of a custom coarsening or interpolation function.  The
    fields [num_elements], [values], [tracer] and [z_layer] carry the
    prefix [cf_], as their names are also fields or variables of the
    coupler. *)
Record t8_messy_custom_func_t : Type := {
  cf_num_elements : Z;
  x_coords : list Z;
  y_coords : list Z;
  latitudes : list double;
  longitudes : list double;
  cf_values : list double;
  cf_tracer : string;
  cf_z_layer : Z
}.

Inductive t8_messy_coarsen_method : Type :=
  | T8_MESSY_COARSEN_FUNCTION
  | T8_MESSY_COARSEN_AREA_INSIDE
  | T8_MESSY_COARSEN_AREA_OUTSIDE
  | T8_MESSY_COARSEN_THRESHOLD_MIN_LOWER
  | T8_MESSY_COARSEN_THRESHOLD_MIN_HIGHER
  | T8_MESSY_COARSEN_THRESHOLD_MAX_LOWER
  | T8_MESSY_COARSEN_THRESHOLD_MAX_HIGHER
  | T8_MESSY_COARSEN_THRESHOLD_MEAN_LOWER
  | T8_MESSY_COARSEN_THRESHOLD_MEAN_HIGHER.

Inductive t8_messy_interpolate_method : Type :=
  | T8_MESSY_INTERPOLATE_FUNCTION
  | T8_MESSY_INTERPOLATE_MIN
  | T8_MESSY_INTERPOLATE_MAX
  | T8_MESSY_INTERPOLATE_MEAN.

(** The two configurations; their fields carry the prefixes [co_] and
    [ip_].  A function pointer is [None] when it is [NULL]. *)
Record t8_messy_coarsen_t : Type := {
  co_method : t8_messy_coarsen_method;
  co_tracer : string;
  co_z_layer : Z;
  co_threshold : double;
  co_func : option (t8_messy_custom_func_t -> Z)
}.

Record t8_messy_interpolate_t : Type := {
  ip_method : t8_messy_interpolate_method;
  ip_func : option (t8_messy_custom_func_t -> double)
}.

(** Modelled from the spec: the forest of the t8code library, which the
    coupler uses through [t8_forest_new_adapt], [t8_forest_iterate_replace]
    and [t8_forest_get_num_element].  A forest is one quadtree; its leaves
    are listed in Morton order, each with its refinement level and its
    Morton index among the cells of that level. *)
Record t8_element_t : Type := {
  level : Z;
  morton : Z
}.

Definition t8_forest_t : Type := list t8_element_t.

Record t8_messy_data_t : Type := {
  chunk : t8_latlon_data_chunk_t;
  forest : t8_forest_t;
  coarsen : option t8_messy_coarsen_t;
  interpolation : option t8_messy_interpolate_t;
  errors : buffer double;
  errors_adapt : buffer double;
  errors_global : buffer double;
  errors_adapt_global : buffer double;
  counter : Z;
  num_elements : Z
}.

Definition set_chunk (m : t8_messy_data_t) (v : t8_latlon_data_chunk_t) :=
  {| chunk := v; forest := forest m; coarsen := coarsen m;
     interpolation := interpolation m; errors := errors m;
     errors_adapt := errors_adapt m; errors_global := errors_global m;
     errors_adapt_global := errors_adapt_global m; counter := counter m;
     num_elements := num_elements m |}.

Definition set_errors (m : t8_messy_data_t) (v : buffer double) :=
  {| chunk := chunk m; forest := forest m; coarsen := coarsen m;
     interpolation := interpolation m; errors := v;
     errors_adapt := errors_adapt m; errors_global := errors_global m;
     errors_adapt_global := errors_adapt_global m; counter := counter m;
     num_elements := num_elements m |}.

Definition set_errors_adapt (m : t8_messy_data_t) (v : buffer double) :=
  {| chunk := chunk m; forest := forest m; coarsen := coarsen m;
     interpolation := interpolation m; errors := errors m;
     errors_adapt := v; errors_global := errors_global m;
     errors_adapt_global := errors_adapt_global m; counter := counter m;
     num_elements := num_elements m |}.

Definition set_errors_global (m : t8_messy_data_t) (v : buffer double) :=
  {| chunk := chunk m; forest := forest m; coarsen := coarsen m;
     interpolation := interpolation m; errors := errors m;
     errors_adapt := errors_adapt m; errors_global := v;
     errors_adapt_global := errors_adapt_global m; counter := counter m;
     num_elements := num_elements m |}.

Definition set_errors_adapt_global (m : t8_messy_data_t) (v : buffer double) :=
  {| chunk := chunk m; forest := forest m; coarsen := coarsen m;
     interpolation := interpolation m; errors := errors m;
     errors_adapt := errors_adapt m; errors_global := errors_global m;
     errors_adapt_global := v; counter := counter m;
     num_elements := num_elements m |}.

Definition set_counter (m : t8_messy_data_t) (v : Z) :=
  {| chunk := chunk m; forest := forest m; coarsen := coarsen m;
     interpolation := interpolation m; errors := errors m;
     errors_adapt := errors_adapt m; errors_global := errors_global m;
     errors_adapt_global := errors_adapt_global m; counter := v;
     num_elements := num_elements m |}.

Definition set_num_elements (m : t8_messy_data_t) (v : Z) :=
  {| chunk := chunk m; forest := forest m; coarsen := coarsen m;
     interpolation := interpolation m; errors := errors m;
     errors_adapt := errors_adapt m; errors_global := errors_global m;
     errors_adapt_global := errors_adapt_global m; counter := counter m;
     num_elements := v |}.

(** [t8_messy_new_custom_func]: every array zeroed; [tracer] and
    [z_layer] are set by the caller before the function is used. *)
Definition t8_messy_new_custom_func (num_elements : Z) : t8_messy_custom_func_t :=
  let n := Z.to_nat num_elements in
  {| cf_num_elements := num_elements;
     x_coords := repeat 0 n; y_coords := repeat 0 n;
     latitudes := repeat 0%float n; longitudes := repeat 0%float n;
     cf_values := repeat 0%float n;
     cf_tracer := EmptyString; cf_z_layer := 0 |}.

Definition fill_custom_func (f : t8_messy_custom_func_t) (z_layer : Z)
    (tracer : string) (values : list double) : t8_messy_custom_func_t :=
  {| cf_num_elements := cf_num_elements f;
     x_coords := x_coords f; y_coords := y_coords f;
     latitudes := latitudes f; longitudes := longitudes f;
     cf_values := values; cf_tracer := tracer; cf_z_layer := z_layer |}.

(** ** The coarsening predicates *)

(** The literal [0.10] of the error-tolerance predicate: the double
    nearest to one tenth. *)
Definition error_tolerance : double := 0x1.999999999999ap-4%float.

(** [t8_messy_coarsen_by_error_tol_callback]: [-1] asks the forest to
    replace the family by its parent, [0] keeps the elements.  Of the
    arguments of the C callback the model keeps the user data, the index of
    the first element and the number of elements. *)
Definition t8_messy_coarsen_by_error_tol_callback
    (messy_data : t8_messy_data_t) (lelement_id num_elements : Z) : Z :=
  let ret := 0 in
  if num_elements =? 1 then ret
  else
    let data_chunk := chunk messy_data in
    let element_length := z_length data_chunk * num_tracers data_chunk in
    let start :=
      lelement_id * z_length data_chunk * num_tracers data_chunk in
    let mass_index := num_tracers data_chunk - 1 in
    match
      for_loop_ret 0 (z_length data_chunk)
        (fun z (_ : unit) =>
           let z_offset := z * num_tracers data_chunk in
           let mass :=
             get_values (start + z_offset) num_elements element_length
               mass_index (data data_chunk) in
           let total_mass :=
             sum num_elements mass (missing_value data_chunk) in
           for_loop_ret 0 (num_tracers data_chunk - 1)
             (fun d (_ : unit) =>
                let values :=
                  get_values (start + z_offset) num_elements element_length
                    d (data data_chunk) in
                let interpolated :=
                  fdiv (mult_sum num_elements values mass
                          (missing_value data_chunk)) total_mass in
                let errors :=
                  calculate_error_ratios num_elements values interpolated
                    (missing_value data_chunk) in
                let max := get_max errors num_elements in
                if fgt max error_tolerance then inl 0 else inr tt) tt) tt
    with
    | inl r => r
    | inr _ => -1
    end.

(** [t8_messy_coarsen_callback], the predicate that follows the coarsen
    configuration.  The result is [None] where the C code has no defined
    result: the configuration or a custom function that is needed is
    [NULL], or the layer selector is below [-3], which leaves [values]
    uninitialised. *)
Definition t8_messy_coarsen_callback
    (messy_data : t8_messy_data_t) (lelement_id num_elements : Z) : option Z :=
  let ret := 0 in
  if num_elements =? 1 then Some ret
  else
    match coarsen messy_data with
    | None => None
    | Some coarsen =>
      let data_chunk := chunk messy_data in
      let element_length := z_length data_chunk * num_tracers data_chunk in
      let z_offset := co_z_layer coarsen * num_tracers data_chunk in
      let start :=
        lelement_id * z_length data_chunk * num_tracers data_chunk in
      let tracer :=
        fst (t8_latlon_get_tracer_idx data_chunk (co_tracer coarsen) false) in
      let values : option (list double) :=
        if co_z_layer coarsen <? 0 then
          for_loop 0 num_elements
            (fun e (values : option (list double)) =>
               let temps :=
                 get_values start (z_length data_chunk)
                   (num_tracers data_chunk) tracer (data data_chunk) in
               values ← values;
               if co_z_layer coarsen =? -1 then
                 Some (values ++ [get_mean temps (z_length data_chunk)])
               else if co_z_layer coarsen =? -2 then
                 Some (values ++ [get_max temps (z_length data_chunk)])
               else if co_z_layer coarsen =? -3 then
                 Some (values ++ [get_min temps (z_length data_chunk)])
               else None) (Some [])
        else
          Some (get_values (start + z_offset) num_elements element_length
                  tracer (data data_chunk)) in
      let lower (value : double) : Z :=
        if flt value (co_threshold coarsen) then -1 else 0 in
      let higher (value : double) : Z :=
        if fgt value (co_threshold coarsen) then -1 else 0 in
      match co_method coarsen with
      | T8_MESSY_COARSEN_FUNCTION =>
          match co_func coarsen with
          | None => None
          | Some func =>
              let func_data :=
                fill_custom_func (t8_messy_new_custom_func num_elements)
                  (co_z_layer coarsen) (co_tracer coarsen)
                  (get_values start num_elements element_length tracer
                     (data data_chunk)) in
              Some (func func_data)
          end
      | T8_MESSY_COARSEN_AREA_INSIDE => Some ret
      | T8_MESSY_COARSEN_AREA_OUTSIDE => Some ret
      | T8_MESSY_COARSEN_THRESHOLD_MIN_LOWER =>
          values ← values; Some (lower (get_min values num_elements))
      | T8_MESSY_COARSEN_THRESHOLD_MIN_HIGHER =>
          values ← values; Some (higher (get_min values num_elements))
      | T8_MESSY_COARSEN_THRESHOLD_MAX_LOWER =>
          values ← values; Some (lower (get_max values num_elements))
      | T8_MESSY_COARSEN_THRESHOLD_MAX_HIGHER =>
          values ← values; Some (higher (get_max values num_elements))
      | T8_MESSY_COARSEN_THRESHOLD_MEAN_LOWER =>
          values ← values; Some (lower (get_mean values num_elements))
      | T8_MESSY_COARSEN_THRESHOLD_MEAN_HIGHER =>
          values ← values; Some (higher (get_mean values num_elements))
      end
    end.

(** ** The interpolation callbacks *)

Definition upd_data_adapt (m : t8_messy_data_t) (i : Z) (v : double) :=
  set_chunk m (set_data_adapt (chunk m) (wr (data_adapt (chunk m)) i v)).

(** [t8_messy_interpolate_callback2], the mass-weighted interpolation.  Of
    the arguments of the C callback the model keeps the user data and the
    four counts and indices. *)
Definition t8_messy_interpolate_callback2 (messy_data : t8_messy_data_t)
    (num_outgoing first_outgoing num_incoming first_incoming : Z)
    : t8_messy_data_t :=
  let data_chunk := chunk messy_data in
  let num_tracers := num_tracers data_chunk in
  let z_length := z_length data_chunk in
  let element_length := num_tracers * z_length in
  let index_incoming := first_incoming * element_length in
  let index_outgoing := first_outgoing * element_length in
  if num_outgoing >? num_incoming then
    let mass_index := num_tracers - 1 in
    for_loop 0 z_length
      (fun z messy_data =>
         let z_offset := z * num_tracers in
         let start := index_outgoing + z_offset in
         let mass :=
           get_values start num_outgoing element_length mass_index
             (data (chunk messy_data)) in
         let total_mass :=
           sum num_outgoing mass (missing_value data_chunk) in
         let messy_data :=
           upd_data_adapt messy_data
             (index_incoming + z_offset + mass_index) total_mass in
         for_loop 0 (num_tracers - 1)
           (fun d messy_data =>
              let values :=
                get_values start num_outgoing element_length d
                  (data (chunk messy_data)) in
              let interpolated :=
                fdiv (mult_sum num_outgoing values mass
                        (missing_value data_chunk)) total_mass in
              let messy_data :=
                upd_data_adapt messy_data
                  (index_incoming + z_offset + d) interpolated in
              let local_errors :=
                calculate_error_ratios num_outgoing values interpolated
                  (missing_value data_chunk) in
              let max_local :=
                rd (errors_adapt messy_data)
                   (first_incoming * (num_tracers - 1) + d) in
              let max_local :=
                fmax max_local (get_max local_errors num_outgoing) in
              let messy_data :=
                set_errors_adapt messy_data
                  (wr (errors_adapt messy_data)
                      (first_incoming * (num_tracers - 1) + d) max_local) in
              let global :=
                rd (errors_global messy_data)
                   (first_incoming * (num_tracers - 1) + d) in
              set_errors_adapt_global messy_data
                (wr (errors_adapt_global messy_data)
                    (first_incoming * (num_tracers - 1) + d)
                    (fadd global max_local)))
           messy_data)
      messy_data
  else
    let messy_data :=
      set_chunk messy_data
        (set_data_adapt data_chunk
           (memcpy (data_adapt data_chunk) index_incoming
              (data data_chunk) index_outgoing element_length)) in
    let messy_data :=
      set_errors_adapt messy_data
        (memcpy (errors_adapt messy_data)
           (first_incoming * (num_tracers - 1))
           (errors messy_data) (first_outgoing * (num_tracers - 1))
           (num_tracers - 1)) in
    set_errors_adapt_global messy_data
      (memcpy (errors_adapt_global messy_data)
         (first_incoming * (num_tracers - 1))
         (errors_global messy_data) (first_outgoing * (num_tracers - 1))
         (num_tracers - 1)).

(** The name of tracer [d]: [tracer_names + d * BUFSIZ]. *)
Definition tracer_name (c : t8_latlon_data_chunk_t) (d : Z) : string :=
  nth (Z.to_nat d) (tracer_names c) EmptyString.

(** One of the three reductions of [t8_messy_interpolate_callback],
    applied to every layer and every tracer, the mass tracer included. *)
Definition interpolate_reduce (reduce : list double -> Z -> double)
    (messy_data : t8_messy_data_t)
    (num_outgoing index_outgoing index_incoming : Z) : t8_messy_data_t :=
  let num_tracers := num_tracers (chunk messy_data) in
  let z_length := z_length (chunk messy_data) in
  let element_data_length := num_tracers * z_length in
  for_loop 0 z_length
    (fun z messy_data =>
       let z_offset := z * num_tracers in
       let start := index_outgoing + z_offset in
       for_loop 0 num_tracers
         (fun d messy_data =>
            let values :=
              get_values start num_outgoing element_data_length d
                (data (chunk messy_data)) in
            upd_data_adapt messy_data (index_incoming + z_offset + d)
              (reduce values num_outgoing))
         messy_data)
    messy_data.

(** [t8_messy_interpolate_callback], the interpolation that follows the
    interpolate configuration; [None] where the configuration or the custom
    function it needs is [NULL]. *)
Definition t8_messy_interpolate_callback (messy_data : t8_messy_data_t)
    (num_outgoing first_outgoing num_incoming first_incoming : Z)
    : option t8_messy_data_t :=
  let data_chunk := chunk messy_data in
  let num_tracers := num_tracers data_chunk in
  let z_length := z_length data_chunk in
  let element_data_length := num_tracers * z_length in
  let index_incoming := first_incoming * element_data_length in
  let index_outgoing := first_outgoing * element_data_length in
  if num_outgoing >? num_incoming then
    interpolation ← interpolation messy_data;
    match ip_method interpolation with
    | T8_MESSY_INTERPOLATE_FUNCTION =>
        func ← ip_func interpolation;
        let func_data := t8_messy_new_custom_func num_outgoing in
        Some
          (for_loop 0 z_length
             (fun z messy_data =>
                let z_offset := z * num_tracers in
                let start := index_outgoing + z_offset in
                for_loop 0 num_tracers
                  (fun d messy_data =>
                     let func_data :=
                       fill_custom_func func_data z
                         (tracer_name data_chunk d)
                         (get_values start num_outgoing element_data_length
                            d (data (chunk messy_data))) in
                     let value := func func_data in
                     upd_data_adapt messy_data
                       (index_incoming + z_offset + d) value)
                  messy_data)
             messy_data)
    | T8_MESSY_INTERPOLATE_MIN =>
        Some (interpolate_reduce get_min messy_data num_outgoing
                index_outgoing index_incoming)
    | T8_MESSY_INTERPOLATE_MAX =>
        Some (interpolate_reduce get_max messy_data num_outgoing
                index_outgoing index_incoming)
    | T8_MESSY_INTERPOLATE_MEAN =>
        Some (interpolate_reduce get_mean messy_data num_outgoing
                index_outgoing index_incoming)
    end
  else
    Some
      (set_chunk messy_data
         (set_data_adapt data_chunk
            (memcpy (data_adapt data_chunk) index_incoming
               (data data_chunk) index_outgoing element_data_length))).

(** ** The configurations *)

(** [t8_messy_new_coarsen_config]: [strcmp (method, s) == 0] is equality
    of strings.  A method string that is none of the seven compared ones
    yields the mean-lower threshold. *)
Definition t8_messy_new_coarsen_config (method : string) (tracer : string)
    (z_layer : Z) (threshold : double)
    (func : option (t8_messy_custom_func_t -> Z)) : t8_messy_coarsen_t :=
  let m :=
    if String.eqb method "mean_lower" then
      T8_MESSY_COARSEN_THRESHOLD_MEAN_LOWER
    else if String.eqb method "mean_higher" then
      T8_MESSY_COARSEN_THRESHOLD_MEAN_HIGHER
    else if String.eqb method "min_lower" then
      T8_MESSY_COARSEN_THRESHOLD_MIN_LOWER
    else if String.eqb method "min_higher" then
      T8_MESSY_COARSEN_THRESHOLD_MIN_HIGHER
    else if String.eqb method "max_lower" then
      T8_MESSY_COARSEN_THRESHOLD_MAX_LOWER
    else if String.eqb method "max_higher" then
      T8_MESSY_COARSEN_THRESHOLD_MAX_HIGHER
    else if String.eqb method "custom" then
      T8_MESSY_COARSEN_FUNCTION
    else T8_MESSY_COARSEN_THRESHOLD_MEAN_LOWER in
  {| co_method := m; co_tracer := tracer; co_z_layer := z_layer;
     co_threshold := threshold; co_func := func |}.

Definition t8_messy_new_interpolate_config (method : string)
    (func : option (t8_messy_custom_func_t -> double))
    : t8_messy_interpolate_t :=
  let m :=
    if String.eqb method "mean" then T8_MESSY_INTERPOLATE_MEAN
    else if String.eqb method "min" then T8_MESSY_INTERPOLATE_MIN
    else if String.eqb method "max" then T8_MESSY_INTERPOLATE_MAX
    else if String.eqb method "custom" then T8_MESSY_INTERPOLATE_FUNCTION
    else T8_MESSY_INTERPOLATE_MEAN in
  {| ip_method := m; ip_func := func |}.

(** ** Tracer ingest *)

Definition BUFSIZ : Z := 8192.

Definition isspace (c : Ascii.ascii) : bool :=
  let n := Z.of_N (Ascii.N_of_ascii c) in
  (n =? 32) || ((9 <=? n) && (n <=? 13)).

Fixpoint trim_leading (str : string) : string :=
  match str with
  | EmptyString => EmptyString
  | String c rest => if isspace c then trim_leading rest else str
  end.

(** The characters of [str] up to its last non-space character. *)
Fixpoint trim_trailing (str : string) : string :=
  match str with
  | EmptyString => EmptyString
  | String c rest =>
      match trim_trailing rest with
      | EmptyString => if isspace c then EmptyString else String c EmptyString
      | r => String c r
      end
  end.

Fixpoint truncate (n : nat) (str : string) : string :=
  match n, str with
  | S n', String c rest => String c (truncate n' rest)
  | _, _ => EmptyString
  end.

(** [trimwhitespace (out, len, str)] for [len > 0]: the string left in
    [out].  After the leading spaces the first character is not a space,
    and the scan from the end stops at it ([end > str]). *)
Definition trimwhitespace (len : Z) (str : string) : string :=
  match trim_leading str with
  | EmptyString => EmptyString
  | String c rest =>
      truncate (Z.to_nat (len - 1)) (String c (trim_trailing rest))
  end.

(** An [int] array read at an index. *)
Definition int_at (a : list Z) (i : Z) : Z :=
  if i <? 0 then 0 else nth (Z.to_nat i) a 0.

(** The loop of [t8_messy_set_tracer_values] that copies the input into
    the dense layout; [/] and [%] of C are [Z.quot] and [Z.rem]. *)
Definition set_tracer_loop (data_chunk : t8_latlon_data_chunk_t)
    (tracer_index : Z) (data : list double) : buffer double :=
  let size := x_length data_chunk * y_length data_chunk * z_length data_chunk in
  let len := int_at (shape data_chunk) 0 * int_at (shape data_chunk) 1 in
  for_loop 0 size
    (fun i chunk_data =>
       let idx0 := Z.quot i len in
       let l := Z.rem i len in
       let idx1 := Z.quot l (int_at (shape data_chunk) 0) in
       let idx2 := Z.rem l (int_at (shape data_chunk) 0) in
       let idx := [idx0; idx1; idx2] in
       let x := int_at idx (2 - x_axis data_chunk) in
       let y := (y_length data_chunk - 1)
                - int_at idx (2 - y_axis data_chunk) in
       let z := int_at idx (2 - z_axis data_chunk) in
       let data_index :=
         ((y * z_length data_chunk * x_length data_chunk
           + x * z_length data_chunk + z) * num_tracers data_chunk)
         + tracer_index in
       wr chunk_data data_index (at_ data i))
    (Coupler.data data_chunk).

(** [t8_messy_set_tracer_values]; [None] when the assertion
    [tracer_index > -1] fails. *)
Definition t8_messy_set_tracer_values (messy_data : t8_messy_data_t)
    (tracer_name : string) (data : list double) : option t8_messy_data_t :=
  let data_chunk := chunk messy_data in
  let name := trimwhitespace BUFSIZ tracer_name in
  let '(tracer_index, data_chunk) :=
    t8_latlon_get_tracer_idx data_chunk name
      (tracer_names_size data_chunk <? num_tracers data_chunk) in
  if tracer_index >? -1 then
    Some (set_chunk messy_data
            (set_data data_chunk
               (set_tracer_loop data_chunk tracer_index data)))
  else None.

(** ** The forest *)

(** Modelled from the spec: four consecutive leaves are a family when they
    are the four children, in order, of one cell. *)
Definition is_family (elements : list t8_element_t) : bool :=
  match elements with
  | e0 :: e1 :: e2 :: e3 :: _ =>
      (0 <? level e0) && (Z.rem (morton e0) 4 =? 0)
      && (level e1 =? level e0) && (morton e1 =? morton e0 + 1)
      && (level e2 =? level e0) && (morton e2 =? morton e0 + 2)
      && (level e3 =? level e0) && (morton e3 =? morton e0 + 3)
  | _ => false
  end.

(** Modelled from the spec: the parent of a cell, one level up, and the
    number of leaves of a forest. *)
Definition t8_element_parent (e : t8_element_t) : t8_element_t :=
  {| level := level e - 1; morton := Z.quot (morton e) 4 |}.

Definition t8_forest_get_num_element (forest : t8_forest_t) : Z :=
  Z.of_nat (length forest).

(** Modelled from the spec: the adapt primitive.  It walks the leaves of
    [forest_from]; at a leaf that starts a family it presents the four
    siblings to the callback, at any other leaf the leaf alone.  A
    negative answer for a family replaces it by its parent; otherwise the
    leaf is kept and the walk goes on with the next leaf.  [skip] counts
    the siblings still to pass over after a merge.  (A positive answer
    asks for refinement; the predicates of the coupler answer [0] or
    [-1].) *)
Fixpoint adapt_elements (callback : Z -> Z -> Z)
    (elements : list t8_element_t) (lelement_id : Z) (skip : nat)
    : list t8_element_t :=
  match elements with
  | [] => []
  | e :: rest =>
      match skip with
      | S k => adapt_elements callback rest (lelement_id + 1) k
      | O =>
          let family := is_family elements in
          let num_elements := if family then 4 else 1 in
          let refine := callback lelement_id num_elements in
          if family && (refine <? 0) then
            t8_element_parent e
              :: adapt_elements callback rest (lelement_id + 1) 3
          else e :: adapt_elements callback rest (lelement_id + 1) 0
      end
  end.

Definition t8_forest_new_adapt (forest_from : t8_forest_t)
    (callback : t8_messy_data_t -> Z -> Z -> Z)
    (user_data : t8_messy_data_t) : t8_forest_t :=
  adapt_elements (callback user_data) forest_from 0 0.

(** Modelled from the spec: the replace iteration.  It walks the new and
    the old forest together; a new leaf coarser than the old one at the same
    place replaces four old leaves ([num_outgoing = 4], [num_incoming =
    1]), a leaf of the same level replaces itself ([1], [1]).  The callback
    receives the user data of the new forest and returns it updated. *)
Fixpoint replace_elements {St : Type}
    (replace_fn : St -> Z -> Z -> Z -> Z -> St)
    (elements_new elements_old : list t8_element_t)
    (first_incoming first_outgoing : Z) (user_data : St) : St :=
  match elements_new with
  | [] => user_data
  | e_new :: rest_new =>
      match elements_old with
      | [] => user_data
      | e_old :: _ =>
          if level e_new <? level e_old then
            replace_elements replace_fn rest_new (drop 4 elements_old)
              (first_incoming + 1) (first_outgoing + 4)
              (replace_fn user_data 4 first_outgoing 1 first_incoming)
          else
            replace_elements replace_fn rest_new (drop 1 elements_old)
              (first_incoming + 1) (first_outgoing + 1)
              (replace_fn user_data 1 first_outgoing 1 first_incoming)
      end
  end.

Definition t8_forest_iterate_replace {St : Type}
    (forest_new forest_old : t8_forest_t)
    (replace_fn : St -> Z -> Z -> Z -> Z -> St) (user_data : St) : St :=
  replace_elements replace_fn forest_new forest_old 0 0 user_data.

(** ** The coarsening loop *)

(** The variables of [t8_messy_coarsen] that live across the rounds.
    [lp_live] counts the buffers obtained from [T8_ALLOC_ZERO] and not yet
    given to [T8_FREE]. *)
Record coarsen_loop_t : Type := {
  lp_data : t8_messy_data_t;
  lp_forest : t8_forest_t;
  lp_forest_adapt : option t8_forest_t;
  lp_last_num_elements : Z;
  lp_num_elements : Z;
  lp_r : Z;
  lp_live : Z
}.

(** [T8_FREE (p)] on the ledger of live buffers: freeing [NULL] does
    nothing. *)
Definition T8_FREE {A} (p : buffer A) (live : Z) : Z :=
  match p with Some _ => live - 1 | None => live end.

(** The body of the loop of [t8_messy_coarsen] in round [r]: [inl] is the
    [break], [inr] the state after the swap.  The predicate handed to the
    forest is [t8_messy_coarsen_by_error_tol_callback] and the replace
    callback is [t8_messy_interpolate_callback2], whatever the
    configurations say. *)
Definition coarsen_round (r : Z) (st : coarsen_loop_t)
    : coarsen_loop_t + coarsen_loop_t :=
  let messy_data := lp_data st in
  let forest := lp_forest st in
  let forest_adapt :=
    t8_forest_new_adapt forest t8_messy_coarsen_by_error_tol_callback
      messy_data in
  let num_elements := t8_forest_get_num_element forest_adapt in
  if num_elements =? lp_last_num_elements st then
    inl {| lp_data := messy_data; lp_forest := forest;
           lp_forest_adapt := Some forest_adapt;
           lp_last_num_elements := lp_last_num_elements st;
           lp_num_elements := num_elements; lp_r := r;
           lp_live := lp_live st |}
  else
    let last_num_elements := num_elements in
    let data_chunk := chunk messy_data in
    let n_err := num_elements * (num_tracers data_chunk - 1) in
    (* allocate the adapt buffers *)
    let data_chunk :=
      set_data_ids_adapt data_chunk (T8_ALLOC_ZERO 0 num_elements) in
    let data_chunk :=
      set_data_adapt data_chunk
        (T8_ALLOC_ZERO 0%float
           (num_elements * z_length data_chunk * num_tracers data_chunk)) in
    let messy_data := set_chunk messy_data data_chunk in
    let messy_data :=
      set_errors_adapt messy_data (T8_ALLOC_ZERO 0%float n_err) in
    let messy_data :=
      set_errors_adapt_global messy_data (T8_ALLOC_ZERO 0%float n_err) in
    let live := lp_live st + 4 in
    (* interpolate *)
    let messy_data :=
      t8_forest_iterate_replace forest_adapt forest
        t8_messy_interpolate_callback2 messy_data in
    (* free the old buffers *)
    let data_chunk := chunk messy_data in
    let live := T8_FREE (data_ids data_chunk) live in
    let live := T8_FREE (data data_chunk) live in
    let live := T8_FREE (errors messy_data) live in
    let live := T8_FREE (errors_global messy_data) live in
    (* swap *)
    let data_chunk := set_data_ids data_chunk (data_ids_adapt data_chunk) in
    let data_chunk := set_data data_chunk (data_adapt data_chunk) in
    let messy_data := set_chunk messy_data data_chunk in
    let messy_data := set_errors messy_data (errors_adapt messy_data) in
    let messy_data :=
      set_errors_global messy_data (errors_adapt_global messy_data) in
    let data_chunk := set_data_ids_adapt (chunk messy_data) None in
    let data_chunk := set_data_adapt data_chunk None in
    let messy_data := set_chunk messy_data data_chunk in
    let messy_data := set_errors_adapt messy_data None in
    let messy_data := set_errors_adapt_global messy_data None in
    inr {| lp_data := messy_data; lp_forest := forest_adapt;
           lp_forest_adapt := Some forest_adapt;
           lp_last_num_elements := last_num_elements;
           lp_num_elements := num_elements; lp_r := r + 1;
           lp_live := live |}.

Definition ROUNDS : Z := 10.

(** The state of [t8_messy_coarsen] on entry to the loop, given the number
    [live] of buffers alive before the call. *)
Definition coarsen_enter (messy_data : t8_messy_data_t) (live : Z)
    : coarsen_loop_t :=
  let data_chunk := chunk messy_data in
  let forest := forest messy_data in
  let num_elements := t8_forest_get_num_element forest in
  let n_err := num_elements * (num_tracers data_chunk - 1) in
  let messy_data := set_errors messy_data (T8_ALLOC_ZERO 0%float n_err) in
  let messy_data :=
    set_errors_global messy_data (T8_ALLOC_ZERO 0%float n_err) in
  {| lp_data := messy_data; lp_forest := forest; lp_forest_adapt := None;
     lp_last_num_elements := 0; lp_num_elements := num_elements;
     lp_r := 0; lp_live := live + 2 |}.

(** The loop: the state at the [break], or after the last round. *)
Definition coarsen_loop (st : coarsen_loop_t) : coarsen_loop_t :=
  match for_loop_ret 0 ROUNDS coarsen_round st with
  | inl st' => st'
  | inr st' => st'
  end.

Definition coarsen_leave (st : coarsen_loop_t) : coarsen_loop_t :=
  let messy_data := set_num_elements (lp_data st) (lp_last_num_elements st) in
  let messy_data := set_counter messy_data (counter messy_data + 1) in
  {| lp_data := messy_data; lp_forest := lp_forest st;
     lp_forest_adapt := lp_forest_adapt st;
     lp_last_num_elements := lp_last_num_elements st;
     lp_num_elements := lp_num_elements st; lp_r := lp_r st;
     lp_live := lp_live st |}.

(** [t8_messy_coarsen]: [None] when one of its assertions fails (a
    configuration is [NULL], or a custom method comes without its
    function).  The result carries the coupler, the number [lp_r] of rounds
    the function reports and the ledger of live buffers. *)
Definition t8_messy_coarsen (messy_data : t8_messy_data_t) (live : Z)
    : option coarsen_loop_t :=
  coarsen ← coarsen messy_data;
  interpolation ← interpolation messy_data;
  if match co_method coarsen, co_func coarsen with
     | T8_MESSY_COARSEN_FUNCTION, None => true
     | _, _ => false
     end
  then None
  else if match ip_method interpolation, ip_func interpolation with
          | T8_MESSY_INTERPOLATE_FUNCTION, None => true
          | _, _ => false
          end
  then None
  else Some (coarsen_leave (coarsen_loop (coarsen_enter messy_data live))).

(** ** Initialisation *)

(** [strchr (axis, c) - axis]: the index of the first [c] in [axis].  When
    [c] does not occur [strchr] yields [NULL] and the difference is not
    defined by C; [null_diff] stands for the [int] it produces. *)
Fixpoint strchr_index (axis : string) (c : Ascii.ascii) (i : Z)
    (null_diff : Z) : Z :=
  match axis with
  | EmptyString => null_diff
  | String a rest =>
      if Ascii.eqb a c then i else strchr_index rest c (i + 1) null_diff
  end.

(** Modelled from the spec: the refinement level of [t8_latlon_refine],
    the least [L] with [2^L >= max (x_length, y_length)], and its uniform
    forest, the [4^L] cells of level [L] in Morton order. *)
Definition latlon_level (x_length y_length : Z) : Z :=
  Z.log2_up (Z.max x_length y_length).

Definition t8_latlon_refine (x_length y_length : Z) : t8_forest_t :=
  let L := latlon_level x_length y_length in
  map (fun m => {| level := L; morton := Z.of_nat m |})
      (seq 0 (Z.to_nat (4 ^ L))).

(** Modelled from the spec: [t8_latlon_new_chunk] of [t8_latlon_data.c],
    a chunk in the dense numbering with no tracer registered and a zeroed
    data array of [x_length * y_length * z_length * num_tracers] doubles
    (the sizes [t8_messy_reset] allocates). *)
Definition t8_latlon_new_chunk (description : string)
    (x_start y_start x_length y_length z_length : Z) (shape : list Z)
    (num_tracers x_axis y_axis z_axis max_level : Z) (missing_value : double)
    (numbering : T8_LATLON_DATA_NUMBERING) : t8_latlon_data_chunk_t :=
  {| description := description; x_start := x_start; y_start := y_start;
     x_length := x_length; y_length := y_length; z_length := z_length;
     shape := shape; num_tracers := num_tracers;
     x_axis := x_axis; y_axis := y_axis; z_axis := z_axis;
     tracer_names := []; missing_value := missing_value;
     max_level := max_level; numbering := numbering;
     data := T8_ALLOC_ZERO 0%float
               (x_length * y_length * z_length * num_tracers);
     data_ids := T8_ALLOC_ZERO 0 (x_length * y_length);
     data_adapt := None; data_ids_adapt := None |}.

(** [t8_messy_initialize]. *)
Definition t8_messy_initialize (null_diff : Z) (description axis : string)
    (shape : list Z) (x_start y_start num_tracers : Z)
    (missing_value : double) (coarsen : option t8_messy_coarsen_t)
    (interpolation : option t8_messy_interpolate_t) : t8_messy_data_t :=
  let x := strchr_index axis "X"%char 0 null_diff in
  let y := strchr_index axis "Y"%char 0 null_diff in
  let z := strchr_index axis "Z"%char 0 null_diff in
  let found (a : Z) : bool := (0 <=? a) && (a <=? 3) in
  let x_axis := if found x then x else Z.max y z + 1 in
  let y_axis := if found y then y else Z.max x z + 1 in
  let z_axis := if found z then z else Z.max x y + 1 in
  let x_length := if found x then int_at shape x else 1 in
  let y_length := if found y then int_at shape y else 1 in
  let z_length := if found z then int_at shape z else 1 in
  let forest := t8_latlon_refine x_length y_length in
  let chunk :=
    t8_latlon_new_chunk description x_start y_start
      x_length y_length z_length shape num_tracers x_axis y_axis z_axis
      (latlon_level x_length y_length) missing_value
      T8_LATLON_DATA_MESSY in
  {| chunk := chunk; forest := forest; coarsen := coarsen;
     interpolation := interpolation; errors := None; errors_adapt := None;
     errors_global := None; errors_adapt_global := None; counter := 0;
     num_elements := 0 |}.

(** ** Quantities of a merge, and the rules in the words of the
    specification *)

(** The array [values] that the callbacks fill for tracer [d] at layer
    [z] from the four siblings that start at leaf [first_outgoing]. *)
Definition sibling_values (messy_data : t8_messy_data_t)
    (first_outgoing z d : Z) : list double :=
  let data_chunk := chunk messy_data in
  let element_length := num_tracers data_chunk * z_length data_chunk in
  get_values (first_outgoing * element_length + z * num_tracers data_chunk)
    4 element_length d (data data_chunk).

(** The value of tracer [d] at layer [z] of leaf [leaf]. *)
Definition leaf_value (messy_data : t8_messy_data_t) (leaf z d : Z) : double :=
  let data_chunk := chunk messy_data in
  rd (data data_chunk)
     (leaf * (num_tracers data_chunk * z_length data_chunk)
      + z * num_tracers data_chunk + d).

Definition mass_index (messy_data : t8_messy_data_t) : Z :=
  num_tracers (chunk messy_data) - 1.

(** The variables [total_mass] and [interpolated] of the callbacks at
    layer [z] and tracer [d]. *)
Definition total_mass_at (messy_data : t8_messy_data_t)
    (first_outgoing z : Z) : double :=
  sum 4 (sibling_values messy_data first_outgoing z (mass_index messy_data))
    (missing_value (chunk messy_data)).

Definition interpolated_at (messy_data : t8_messy_data_t)
    (first_outgoing z d : Z) : double :=
  fdiv (mult_sum 4 (sibling_values messy_data first_outgoing z d)
          (sibling_values messy_data first_outgoing z (mass_index messy_data))
          (missing_value (chunk messy_data)))
       (total_mass_at messy_data first_outgoing z).

(** The place of tracer [d] at layer [z] in the record of the new leaf. *)
Definition adapt_index (messy_data : t8_messy_data_t)
    (first_incoming z d : Z) : Z :=
  let data_chunk := chunk messy_data in
  first_incoming * (num_tracers data_chunk * z_length data_chunk)
  + z * num_tracers data_chunk + d.

(** The place of the errors of tracer [d] of a leaf. *)
Definition error_index (messy_data : t8_messy_data_t) (leaf d : Z) : Z :=
  leaf * (num_tracers (chunk messy_data) - 1) + d.

(** The rule for the mass tracer in the words of the specification: the
    arithmetic sum of the masses, those equal to [missing_value]
    skipped. *)
Definition spec_mass_sum (masses : list double) (missing_value : double)
    : double :=
  fold_left fadd
    (List.filter (fun m => negb (feq m missing_value)) masses) 0%float.

(** The rule for the other tracers in the words of the specification:
    the sum of [value * mass] over the sum of [mass], both sums skipping
    the siblings of which either operand equals [missing_value]. *)
Definition neither_missing (missing_value : double) (vm : double * double)
    : bool :=
  negb (feq (fst vm) missing_value) && negb (feq (snd vm) missing_value).

Definition spec_mass_weighted (values masses : list double)
    (missing_value : double) : double :=
  let kept := List.filter (neither_missing missing_value)
                (combine values masses) in
  fdiv (fold_left fadd (map (fun vm => fmul (fst vm) (snd vm)) kept) 0%float)
       (fold_left fadd (map snd kept) 0%float).

(** The relative error in the words of the specification:
    [|value - interpolated| / |value|], taken as [0] when the value is [0]
    or missing; and its maximum over a list of values. *)
Definition spec_relative_error (missing_value interpolated value : double)
    : double :=
  if feq value missing_value || feq value 0%float then 0%float
  else fdiv (fabs (fsub value interpolated)) (fabs value).

Definition spec_max_relative_error (missing_value interpolated : double)
    (values : list double) : double :=
  fold_left fmax (map (spec_relative_error missing_value interpolated) values)
    0%float.

(** What the mass-weighted callback leaves at layer [z], tracer [d] of the
    new leaf: the total mass for the mass tracer, the interpolated value
    for any other. *)
Definition merged_value (messy_data : t8_messy_data_t)
    (first_outgoing z d : Z) : double :=
  if d =? mass_index messy_data then total_mass_at messy_data first_outgoing z
  else interpolated_at messy_data first_outgoing z d.

(** The callback reads [data] and the shape of the chunk, and leaves them
    as they are. *)
Definition same_input (m0 m : t8_messy_data_t) : Prop :=
  data (chunk m) = data (chunk m0)
  /\ buf_len (data_adapt (chunk m)) = buf_len (data_adapt (chunk m0))
  /\ buf_len (errors_adapt m) = buf_len (errors_adapt m0)
  /\ errors_global m = errors_global m0
  /\ buf_len (errors_adapt_global m) = buf_len (errors_adapt_global m0).

(** ** Concrete couplers *)

(** The four leaves of a level-1 quadtree. *)
Definition four_leaves : t8_forest_t :=
  [ {| level := 1; morton := 0 |}; {| level := 1; morton := 1 |};
    {| level := 1; morton := 2 |}; {| level := 1; morton := 3 |} ].

(** A coupler after [apply_sfc] on a 2 x 2 grid: [values] holds, leaf by
    leaf in Morton order, [z_length] layers of [num_tracers] tracers, the
    mass last; the missing value is [-999]. *)
Definition coupler_2x2 (z_length num_tracers : Z) (values : list double)
    (coarsen : option t8_messy_coarsen_t)
    (interpolation : option t8_messy_interpolate_t) : t8_messy_data_t :=
  {| chunk :=
       {| description := "2x2"; x_start := 0; y_start := 0;
          x_length := 2; y_length := 2; z_length := z_length;
          shape := [2; 2; z_length]; num_tracers := num_tracers;
          x_axis := 0; y_axis := 1; z_axis := 2;
          tracer_names := ["tracer"; "mass"]%string;
          missing_value := (-999)%float; max_level := 1;
          numbering := T8_LATLON_DATA_MORTON;
          data := Some values; data_ids := Some [0; 1; 2; 3];
          data_adapt := None; data_ids_adapt := None |};
     forest := four_leaves; coarsen := coarsen;
     interpolation := interpolation;
     errors := None; errors_adapt := None; errors_global := None;
     errors_adapt_global := None; counter := 0; num_elements := 0 |}.

(** The same coupler inside an adapt round that merges the four leaves
    into one: the adapt buffers are allocated for one leaf, and the error
    arrays of the old forest are [errors] and [errors_global]. *)
Definition merge_2x2 (z_length num_tracers : Z) (values : list double)
    (errors errors_global : list double) : t8_messy_data_t :=
  let m := coupler_2x2 z_length num_tracers values None None in
  let m :=
    set_chunk m
      (set_data_adapt (chunk m)
         (T8_ALLOC_ZERO 0%float (1 * z_length * num_tracers))) in
  let m := set_errors m (Some errors) in
  let m := set_errors_global m (Some errors_global) in
  let m :=
    set_errors_adapt m (T8_ALLOC_ZERO 0%float (1 * (num_tracers - 1))) in
  set_errors_adapt_global m (T8_ALLOC_ZERO 0%float (1 * (num_tracers - 1))).

(** One layer, one tracer and the mass: the values 10, 10, 10, 11 with
    mass 1 each. *)
Definition merge_plain : t8_messy_data_t :=
  merge_2x2 1 2 [10; 1; 10; 1; 10; 1; 11; 1]%float
    [0; 0; 0; 0]%float [0; 0; 0; 0]%float.

(** One step of [sum]: an entry equal to [missing_value] leaves the
    running sum as it is. *)
Definition sum_step (missing_value acc x : double) : double :=
  if feq x missing_value then acc else fadd acc x.

(** The values of tracer [d] at layer [z] of the four leaves that start
    at [first_outgoing]. *)
Definition four_values (messy_data : t8_messy_data_t)
    (first_outgoing z d : Z) : list double :=
  [ leaf_value messy_data first_outgoing z d;
    leaf_value messy_data (first_outgoing + 1) z d;
    leaf_value messy_data (first_outgoing + 2) z d;
    leaf_value messy_data (first_outgoing + 3) z d ].

(** The largest error ratio of tracer [d] at layer [z] of a merge, as the
    callbacks compute it, and the running maximum over the layers below
    [k] that the interpolation callback keeps in [errors_adapt]. *)
Definition layer_error (messy_data : t8_messy_data_t)
    (first_outgoing z d : Z) : double :=
  get_max
    (calculate_error_ratios 4 (sibling_values messy_data first_outgoing z d)
       (interpolated_at messy_data first_outgoing z d)
       (missing_value (chunk messy_data))) 4.

Definition local_error_upto (messy_data : t8_messy_data_t)
    (first_outgoing first_incoming d k : Z) : double :=
  for_loop 0 k
    (fun z e => fmax e (layer_error messy_data first_outgoing z d))
    (rd (errors_adapt messy_data) (error_index messy_data first_incoming d)).

(** One layer, one tracer and the mass, nothing but missing values. *)
Definition merge_all_missing : t8_messy_data_t :=
  merge_2x2 1 2 [-999; -999; -999; -999; -999; -999; -999; -999]%float
    [0; 0; 0; 0]%float [0; 0; 0; 0]%float.

(** At layer [z] every one of the four siblings has the value of tracer
    [d] and the mass equal to [missing_value]. *)
Definition layer_missing (messy_data : t8_messy_data_t)
    (first_outgoing z d : Z) : bool :=
  let mv := missing_value (chunk messy_data) in
  forallb (fun v => feq v mv) (four_values messy_data first_outgoing z d)
  && forallb (fun v => feq v mv)
       (four_values messy_data first_outgoing z (mass_index messy_data)).

(** The loop of [t8_messy_coarsen] cut after [k] rounds. *)
Definition coarsen_rounds (k : Z) (st : coarsen_loop_t)
    : coarsen_loop_t + coarsen_loop_t :=
  for_loop_ret 0 k coarsen_round st.

Definition loop_state (r : coarsen_loop_t + coarsen_loop_t) : coarsen_loop_t :=
  match r with inl st => st | inr st => st end.

(** The rule for the global error in the words of the specification: the
    largest accumulated global error of the outgoing children, plus the
    local error of the merge. *)
Definition max_of (l : list double) : double :=
  match l with
  | [] => 0%float
  | x :: rest => fold_left fmax rest x
  end.

Definition spec_global_error (children_global : list double)
    (local : double) : double :=
  fadd (max_of children_global) local.

Definition set_coarsen (m : t8_messy_data_t) (v : option t8_messy_coarsen_t) :=
  {| chunk := chunk m; forest := forest m; coarsen := v;
     interpolation := interpolation m; errors := errors m;
     errors_adapt := errors_adapt m; errors_global := errors_global m;
     errors_adapt_global := errors_adapt_global m; counter := counter m;
     num_elements := num_elements m |}.

Definition set_interpolation (m : t8_messy_data_t)
    (v : option t8_messy_interpolate_t) :=
  {| chunk := chunk m; forest := forest m; coarsen := coarsen m;
     interpolation := v; errors := errors m;
     errors_adapt := errors_adapt m; errors_global := errors_global m;
     errors_adapt_global := errors_adapt_global m; counter := counter m;
     num_elements := num_elements m |}.

(** The configurations used below: the defaults of the error-tolerance
    coarsener with the mean reduction, a threshold on the largest value, and
    the reduction to the minimum. *)
Definition config_error_tol : option t8_messy_coarsen_t :=
  Some (t8_messy_new_coarsen_config "error_tol" "tracer" 0 0%float None).

Definition config_max_lower : option t8_messy_coarsen_t :=
  Some (t8_messy_new_coarsen_config "max_lower" "tracer" 0 0.5%float None).

Definition config_mean : option t8_messy_interpolate_t :=
  Some (t8_messy_new_interpolate_config "mean" None).

Definition config_min : option t8_messy_interpolate_t :=
  Some (t8_messy_new_interpolate_config "min" None).

(** A coupler after [apply_sfc] on a 4 x 4 grid with one layer, one tracer
    and the mass: sixteen leaves of level 2.  Every leaf has the value 10
    and the mass 1, but for leaf 7, whose value is 11. *)
Definition coupler_4x4 : t8_messy_data_t :=
  let ten := [10; 1; 10; 1; 10; 1; 10; 1]%float in
  {| chunk :=
       {| description := "4x4"; x_start := 0; y_start := 0;
          x_length := 4; y_length := 4; z_length := 1;
          shape := [4; 4; 1]; num_tracers := 2;
          x_axis := 0; y_axis := 1; z_axis := 2;
          tracer_names := ["tracer"; "mass"]%string;
          missing_value := (-999)%float; max_level := 2;
          numbering := T8_LATLON_DATA_MORTON;
          data := Some (ten ++ [10; 1; 10; 1; 10; 1; 11; 1]%float
                            ++ ten ++ ten);
          data_ids := Some (map Z.of_nat (seq 0 16));
          data_adapt := None; data_ids_adapt := None |};
     forest := t8_latlon_refine 4 4; coarsen := config_error_tol;
     interpolation := config_mean;
     errors := None; errors_adapt := None; errors_global := None;
     errors_adapt_global := None; counter := 0; num_elements := 0 |}.

(** A 2 x 2 grid of negative values: -10, -10, -10, -30 with mass 1. *)
Definition coupler_negative : t8_messy_data_t :=
  coupler_2x2 1 2 [-10; 1; -10; 1; -10; 1; -30; 1]%float
    config_error_tol config_mean.

(** A 2 x 2 grid of which the first cell has no value but has the mass
    2^-11: the values missing, 2, 2, 2 with the masses 2^-11, 1, 1, 1. *)
Definition coupler_value_missing : t8_messy_data_t :=
  coupler_2x2 1 2 [-999; 0x1p-11; 2; 1; 2; 1; 2; 1]%float
    config_error_tol config_mean.

(** A 2 x 2 grid of which the first cell has a value but no mass: the
    values -2, -2, -2, -2 with the masses missing, 1, 1, 1. *)
Definition coupler_mass_missing : t8_messy_data_t :=
  coupler_2x2 1 2 [-2; -999; -2; 1; -2; 1; -2; 1]%float
    config_error_tol config_mean.

(** A 2 x 2 grid with the value 1 and the mass 1 everywhere, to be
    coarsened where the largest value is below 0.5. *)
Definition coupler_threshold : t8_messy_data_t :=
  coupler_2x2 1 2 [1; 1; 1; 1; 1; 1; 1; 1]%float
    config_max_lower config_mean.

(** A 2 x 2 grid with the values 10, 10, 10, 11 and the mass 1, to be
    interpolated by the minimum. *)
Definition coupler_min : t8_messy_data_t :=
  coupler_2x2 1 2 [10; 1; 10; 1; 10; 1; 11; 1]%float
    config_error_tol config_min.

(** The same coupler inside the round that merges its four leaves. *)
Definition merge_min : t8_messy_data_t :=
  set_interpolation merge_plain config_min.

(** The coupler with other configurations, and the same for a state of
    the loop. *)
Definition with_configs (coarsen : option t8_messy_coarsen_t)
    (interpolation : option t8_messy_interpolate_t) (m : t8_messy_data_t)
    : t8_messy_data_t :=
  set_interpolation (set_coarsen m coarsen) interpolation.

Definition loop_with_configs (coarsen : option t8_messy_coarsen_t)
    (interpolation : option t8_messy_interpolate_t) (st : coarsen_loop_t)
    : coarsen_loop_t :=
  {| lp_data := with_configs coarsen interpolation (lp_data st);
     lp_forest := lp_forest st; lp_forest_adapt := lp_forest_adapt st;
     lp_last_num_elements := lp_last_num_elements st;
     lp_num_elements := lp_num_elements st; lp_r := lp_r st;
     lp_live := lp_live st |}.

(** ** The dense layout *)

(** The offset of the scalar of tracer [t] at the internal coordinates
    [(x, y, z)] in the dense layout. *)
Definition dense_offset (c : t8_latlon_data_chunk_t) (x y z t : Z) : Z :=
  ((y * z_length c * x_length c + x * z_length c + z) * num_tracers c) + t.

(** The coordinate along the input axis [k] of the scalar with the logical
    coordinates [(x, y, z)], and the index of that scalar in the input
    buffer, whose first axis runs fastest. *)
Definition axis_coordinate (c : t8_latlon_data_chunk_t) (x y z k : Z) : Z :=
  if k =? x_axis c then x else if k =? y_axis c then y else z.

Definition input_index (c : t8_latlon_data_chunk_t) (x y z : Z) : Z :=
  axis_coordinate c x y z 0
  + int_at (shape c) 0
    * (axis_coordinate c x y z 1
       + int_at (shape c) 1 * axis_coordinate c x y z 2).

(** The three axis indices are a permutation of 0, 1, 2. *)
Definition axes_permutation (c : t8_latlon_data_chunk_t) : bool :=
  existsb
    (fun p : Z * Z * Z =>
       let '(a, b, d) := p in
       (x_axis c =? a) && (y_axis c =? b) && (z_axis c =? d))
    [(0, 1, 2); (0, 2, 1); (1, 0, 2); (1, 2, 0); (2, 0, 1); (2, 1, 0)].

(** A chunk in the dense numbering as [t8_messy_initialize] builds it from
    an axis string that holds X, Y and Z: a shape of three positive
    lengths, the lengths of the chunk read from the shape along its axes,
    no more names than tracers, and a data array of
    [x_length * y_length * z_length * num_tracers] doubles. *)
Definition dense_chunk (c : t8_latlon_data_chunk_t) : bool :=
  (length (shape c) =? 3)%nat
  && (0 <? int_at (shape c) 0) && (0 <? int_at (shape c) 1)
  && (0 <? int_at (shape c) 2)
  && axes_permutation c
  && (x_length c =? int_at (shape c) (x_axis c))
  && (y_length c =? int_at (shape c) (y_axis c))
  && (z_length c =? int_at (shape c) (z_axis c))
  && (1 <=? num_tracers c)
  && (tracer_names_size c <=? num_tracers c)
  && (buf_len (data c)
      =? x_length c * y_length c * z_length c * num_tracers c).

(** The tracer index that [t8_messy_set_tracer_values] resolves a name
    to. *)
Definition resolved_index (c : t8_latlon_data_chunk_t) (tracer_name : string)
    : Z :=
  fst (t8_latlon_get_tracer_idx c (trimwhitespace BUFSIZ tracer_name)
         (tracer_names_size c <? num_tracers c)).

(** The offset that the loop of [t8_messy_set_tracer_values] writes in
    round [i]. *)
Definition written_offset (c : t8_latlon_data_chunk_t) (tracer_index i : Z)
    : Z :=
  let len := int_at (shape c) 0 * int_at (shape c) 1 in
  let idx0 := Z.quot i len in
  let l := Z.rem i len in
  let idx1 := Z.quot l (int_at (shape c) 0) in
  let idx2 := Z.rem l (int_at (shape c) 0) in
  let idx := [idx0; idx1; idx2] in
  dense_offset c (int_at idx (2 - x_axis c))
    ((y_length c - 1) - int_at idx (2 - y_axis c))
    (int_at idx (2 - z_axis c)) tracer_index.

(** A 2 x 3 x 2 chunk for the axis string "ZYX" with two tracers, as
    [t8_messy_initialize] builds it, and an input buffer for it. *)
Definition coupler_zyx : t8_messy_data_t :=
  t8_messy_initialize 0 "zyx" "ZYX" [2; 3; 2] 0 0 2 (-999)%float
    config_error_tol config_mean.

Definition input_zyx : list double :=
  [0; 1; 2; 3; 4; 5; 6; 7; 8; 9; 10; 11]%float.

(** The coupler [coupler_zyx] after the ingest of a tracer named
    ["  q  "]. *)
Definition coupler_zyx_q : t8_messy_data_t :=
  match t8_messy_set_tracer_values coupler_zyx "  q  " input_zyx with
  | Some m => m
  | None => coupler_zyx
  end.

(** The six axis strings that hold X, Y and Z. *)
Definition axis_strings : list string :=
  ["XYZ"; "XZY"; "YXZ"; "YZX"; "ZXY"; "ZYX"]%string.

(** ** The rounds of the coarsening loop *)

(** A pointer that holds an allocation. *)
Definition allocated {A} (p : buffer A) : bool :=
  match p with Some _ => true | None => false end.

(** The forest a round adapts to. *)
Definition round_adapt (st : coarsen_loop_t) : t8_forest_t :=
  t8_forest_new_adapt (lp_forest st) t8_messy_coarsen_by_error_tol_callback
    (lp_data st).

(** The coupler of a round after the adapt buffers are allocated, and
    after the replace iteration has filled them. *)
Definition round_allocated (st : coarsen_loop_t) : t8_messy_data_t :=
  let messy_data := lp_data st in
  let num_elements := t8_forest_get_num_element (round_adapt st) in
  let data_chunk := chunk messy_data in
  let n_err := num_elements * (num_tracers data_chunk - 1) in
  let data_chunk :=
    set_data_ids_adapt data_chunk (T8_ALLOC_ZERO 0 num_elements) in
  let data_chunk :=
    set_data_adapt data_chunk
      (T8_ALLOC_ZERO 0%float
         (num_elements * z_length data_chunk * num_tracers data_chunk)) in
  let messy_data := set_chunk messy_data data_chunk in
  let messy_data :=
    set_errors_adapt messy_data (T8_ALLOC_ZERO 0%float n_err) in
  set_errors_adapt_global messy_data (T8_ALLOC_ZERO 0%float n_err).

Definition round_filled (st : coarsen_loop_t) : t8_messy_data_t :=
  t8_forest_iterate_replace (round_adapt st) (lp_forest st)
    t8_messy_interpolate_callback2 (round_allocated st).

(** The four arrays of the current forest are allocated. *)
Definition buffers_live (m : t8_messy_data_t) : bool :=
  allocated (data_ids (chunk m)) && allocated (data (chunk m))
  && allocated (errors m) && allocated (errors_global m).

(** The state [st'] holds what a completed round leaves of the state
    [st]: the adapted forest with its leaf count recorded, the four adapt
    buffers as filled by the replace iteration in the place of the old
    arrays, the adapt pointers [NULL], and as many live buffers as
    before: four allocated, four freed. *)
Definition swapped (st st' : coarsen_loop_t) : Prop :=
  lp_forest st' = round_adapt st
  /\ lp_last_num_elements st' = t8_forest_get_num_element (round_adapt st)
  /\ data_ids (chunk (lp_data st')) = data_ids_adapt (chunk (round_filled st))
  /\ data (chunk (lp_data st')) = data_adapt (chunk (round_filled st))
  /\ errors (lp_data st') = errors_adapt (round_filled st)
  /\ errors_global (lp_data st') = errors_adapt_global (round_filled st)
  /\ data_ids_adapt (chunk (lp_data st')) = None
  /\ data_adapt (chunk (lp_data st')) = None
  /\ errors_adapt (lp_data st') = None
  /\ errors_adapt_global (lp_data st') = None
  /\ lp_live st' = lp_live st
  /\ buffers_live (lp_data st') = true.

(** The state after [k] rounds. *)
Definition state_after (k : Z) (st : coarsen_loop_t) : coarsen_loop_t :=
  loop_state (coarsen_rounds k st).

(** What the interpolation callback keeps of a coupler: the arrays of the
    old forest and the ids, and the allocation of the adapt buffers. *)
Definition kept (m0 m : t8_messy_data_t) : Prop :=
  data (chunk m) = data (chunk m0)
  /\ data_ids (chunk m) = data_ids (chunk m0)
  /\ data_ids_adapt (chunk m) = data_ids_adapt (chunk m0)
  /\ errors m = errors m0
  /\ errors_global m = errors_global m0
  /\ (allocated (data_adapt (chunk m0)) = true ->
      allocated (data_adapt (chunk m)) = true)
  /\ (allocated (errors_adapt m0) = true ->
      allocated (errors_adapt m) = true)
  /\ (allocated (errors_adapt_global m0) = true ->
      allocated (errors_adapt_global m) = true).

(** ** Scenarios *)

(** The record of every leaf of a grid with one layer: its value and the
    mass 1. *)
Definition with_unit_mass (values : list double) : list double :=
  flat_map (fun v => [v; 1%float]) values.

(** A coupler after [apply_sfc] on a 4 x 4 grid with one layer, one tracer
    and the mass 1 everywhere. *)
Definition coupler_4x4_of (values : list double) : t8_messy_data_t :=
  set_chunk coupler_4x4
    (set_data (chunk coupler_4x4) (Some (with_unit_mass values))).

Definition uniform_seven : t8_messy_data_t :=
  coupler_4x4_of (repeat 7%float 16).

Definition ramp : t8_messy_data_t :=
  coupler_4x4_of (map (fun n => double_of_int (Z.of_nat n)) (seq 0 16)).

(** What a run of [t8_messy_coarsen] leaves: the rounds reported, the
    leaves, the data and the two error arrays. *)
Definition outcome (r : option coarsen_loop_t) :=
  option_map
    (fun st => (lp_r st, length (lp_forest st), data (chunk (lp_data st)),
                errors (lp_data st), errors_global (lp_data st))) r.

(** ** Reset, queries and output *)

Definition set_numbering (c : t8_latlon_data_chunk_t)
    (v : T8_LATLON_DATA_NUMBERING) :=
  {| description := description c; x_start := x_start c;
     y_start := y_start c; x_length := x_length c; y_length := y_length c;
     z_length := z_length c; shape := shape c; num_tracers := num_tracers c;
     x_axis := x_axis c; y_axis := y_axis c; z_axis := z_axis c;
     tracer_names := tracer_names c; missing_value := missing_value c;
     max_level := max_level c; numbering := v;
     data := data c; data_ids := data_ids c;
     data_adapt := data_adapt c; data_ids_adapt := data_ids_adapt c |}.

(** [t8_messy_reset], with the ledger of live buffers.  The four error
    pointers are freed and set to [NULL].  A chunk in Morton numbering has
    its four arrays freed and its data and ids allocated anew for the dense
    numbering; the code does not assign the two adapt pointers of the chunk
    after freeing them, so they keep their value. *)
Definition t8_messy_reset (messy_data : t8_messy_data_t) (live : Z)
    : t8_messy_data_t * Z :=
  let live := T8_FREE (errors messy_data) live in
  let live := T8_FREE (errors_adapt messy_data) live in
  let live := T8_FREE (errors_global messy_data) live in
  let live := T8_FREE (errors_adapt_global messy_data) live in
  let messy_data := set_errors messy_data None in
  let messy_data := set_errors_adapt messy_data None in
  let messy_data := set_errors_global messy_data None in
  let messy_data := set_errors_adapt_global messy_data None in
  let chunk := chunk messy_data in
  match numbering chunk with
  | T8_LATLON_DATA_MORTON =>
      let live := T8_FREE (data chunk) live in
      let live := T8_FREE (data_ids chunk) live in
      let live := T8_FREE (data_adapt chunk) live in
      let live := T8_FREE (data_ids_adapt chunk) live in
      let chunk :=
        set_data chunk
          (T8_ALLOC_ZERO 0%float
             (x_length chunk * y_length chunk * z_length chunk
              * num_tracers chunk)) in
      let chunk :=
        set_data_ids chunk
          (T8_ALLOC_ZERO 0 (x_length chunk * y_length chunk)) in
      let live := live + 2 in
      let chunk := set_numbering chunk T8_LATLON_DATA_MESSY in
      (set_chunk messy_data chunk, live)
  | T8_LATLON_DATA_MESSY => (messy_data, live)
  end.

(** [t8_messy_get_max_number_elements]: the leaves of the forest the
    coupler holds. *)
Definition t8_messy_get_max_number_elements (messy_data : t8_messy_data_t)
    : Z :=
  t8_forest_get_num_element (forest messy_data).

(** [t8_messy_write_tracer_values]: the output array [data] after the
    call.  The state of the two loops is the running [index] and the
    output array. *)
Definition t8_messy_write_tracer_values (messy_data : t8_messy_data_t)
    (tracer_name : string) (data : buffer double) : buffer double :=
  let data_chunk := chunk messy_data in
  let name := trimwhitespace BUFSIZ tracer_name in
  let num_elements := num_elements messy_data in
  let tracer_index :=
    fst (t8_latlon_get_tracer_idx data_chunk name false) in
  let num_data := z_length data_chunk * num_tracers data_chunk in
  snd
    (for_loop 0 (z_length data_chunk)
       (fun z st =>
          for_loop 0 num_elements
            (fun element (st : Z * buffer double) =>
               let offset :=
                 element * num_data + z * num_tracers data_chunk
                 + tracer_index in
               (fst st + 1,
                wr (snd st) (fst st) (rd (Coupler.data data_chunk) offset)))
            st)
       (0, data)).

(** The value that [trimwhitespace] returns: the number of characters
    stored, but [1] for a string of nothing but spaces, and [0] when
    [len] is [0]. *)
Definition trimwhitespace_size (len : Z) (str : string) : Z :=
  if len =? 0 then 0
  else
    match trim_leading str with
    | EmptyString => 1
    | String c rest =>
        let trimmed :=
          Z.of_nat (String.length (String c (trim_trailing rest))) in
        if trimmed <? len - 1 then trimmed else len - 1
    end.

(** ** Predicates on names and chunks *)

Fixpoint all_space (str : string) : bool :=
  match str with
  | EmptyString => true
  | String c rest => isspace c && all_space rest
  end.

Definition first_char (str : string) : option Ascii.ascii :=
  match str with
  | EmptyString => None
  | String c _ => Some c
  end.

Fixpoint last_char (str : string) : option Ascii.ascii :=
  match str with
  | EmptyString => None
  | String c rest =>
      match rest with
      | EmptyString => Some c
      | String _ _ => last_char rest
      end
  end.

(** The name is among the registered names of the chunk. *)
Definition registered (c : t8_latlon_data_chunk_t) (name : string) : bool :=
  0 <=? find_tracer (tracer_names c) name 0.

(** What makes a chunk dense, its data array apart. *)
Definition dense_shape (c : t8_latlon_data_chunk_t) : bool :=
  (length (shape c) =? 3)%nat
  && (0 <? int_at (shape c) 0) && (0 <? int_at (shape c) 1)
  && (0 <? int_at (shape c) 2)
  && axes_permutation c
  && (x_length c =? int_at (shape c) (x_axis c))
  && (y_length c =? int_at (shape c) (y_axis c))
  && (z_length c =? int_at (shape c) (z_axis c))
  && (1 <=? num_tracers c)
  && (tracer_names_size c <=? num_tracers c).

(** The axis strings that hold two of X, Y and Z. *)
Definition two_axis_strings : list string :=
  ["XY"; "YX"; "XZ"; "ZX"; "YZ"; "ZY"]%string.

(** The fields of a chunk and of a coupler that say what the grid is:
    everything but the arrays, the registered names, the counter and the
    recorded number of elements. *)
Definition chunk_header (c : t8_latlon_data_chunk_t) :=
  (description c, x_start c, y_start c, x_length c, y_length c, z_length c,
   shape c, num_tracers c, x_axis c, y_axis c, z_axis c, missing_value c,
   max_level c, numbering c).

Definition coupler_header (m : t8_messy_data_t) :=
  (chunk_header (chunk m), tracer_names (chunk m), forest m, coarsen m,
   interpolation m).

(** The lengths of the three adapt buffers that the interpolation
    callbacks write. *)
Definition adapt_lengths (m : t8_messy_data_t) :=
  (buf_len (data_adapt (chunk m)), buf_len (errors_adapt m),
   buf_len (errors_adapt_global m)).

(** What an interpolation callback leaves untouched of a coupler, beside
    the arrays of [kept]: the header, the counter, the recorded number of
    elements and the lengths of the adapt buffers. *)
Definition untouched (m0 m : t8_messy_data_t) : Prop :=
  coupler_header m = coupler_header m0
  /\ counter m = counter m0
  /\ num_elements m = num_elements m0
  /\ adapt_lengths m = adapt_lengths m0.

(** The offset [j] lies outside the [len] scalars of the record of leaf
    [leaf]. *)
Definition outside (leaf len j : Z) : Prop :=
  j < leaf * len \/ (leaf + 1) * len <= j.

(** ** Further couplers *)

(** A second input for the chunk of [coupler_zyx], and the coupler after
    its ingest under the name ["p"]. *)
Definition input_zyx_p : list double :=
  [100; 101; 102; 103; 104; 105; 106; 107; 108; 109; 110; 111]%float.

Definition coupler_zyx_qp : t8_messy_data_t :=
  match t8_messy_set_tracer_values coupler_zyx_q "p" input_zyx_p with
  | Some m => m
  | None => coupler_zyx_q
  end.


(** The result of [t8_messy_coarsen] on the 4 x 4 grid. *)
Definition coarsened_4x4 : coarsen_loop_t :=
  match t8_messy_coarsen coupler_4x4 2 with
  | Some st => st
  | None => coarsen_enter coupler_4x4 2
  end.

(** A 2 x 2 grid with two layers, to be coarsened where the mean over the
    layers is below 5: the first leaf has the values 1 and 2, the other
    three have the value 9 in [coupler_column] and 0 in
    [coupler_column_other]. *)
Definition config_column : t8_messy_coarsen_t :=
  t8_messy_new_coarsen_config "mean_lower" "tracer" (-1) 5%float None.

Definition coupler_column : t8_messy_data_t :=
  coupler_2x2 2 2
    [1; 1; 2; 1; 9; 1; 9; 1; 9; 1; 9; 1; 9; 1; 9; 1]%float
    (Some config_column) config_mean.

Definition coupler_column_other : t8_messy_data_t :=
  coupler_2x2 2 2
    [1; 1; 2; 1; 0; 1; 0; 1; 0; 1; 0; 1; 0; 1; 0; 1]%float
    (Some config_column) config_mean.

End Coupler.

Import Coupler.

(** * Loops and buffers *)

Section Loops.

Context {St : Type}.

Lemma for_up_inv (P : Z -> St -> Prop) (body : Z -> St -> St) :
  forall (n : nat) (i : Z) (s : St),
    P i s ->
    (forall j t, i <= j < i + Z.of_nat n -> P j t -> P (j + 1) (body j t)) ->
    P (i + Z.of_nat n) (for_up n i body s).
Proof.
  induction n as [|n IH]; intros i s Hs Hstep.
  - simpl for_up. replace (i + Z.of_nat 0) with i by lia. exact Hs.
  - simpl for_up.
    replace (i + Z.of_nat (S n)) with ((i + 1) + Z.of_nat n) by lia.
    apply IH.
    + apply Hstep; [lia | exact Hs].
    + intros j t Hj Ht. apply Hstep; [lia | exact Ht].
Qed.

Lemma for_loop_inv (P : Z -> St -> Prop) (lo hi : Z)
    (body : Z -> St -> St) (s : St) :
  lo <= hi ->
  P lo s ->
  (forall j t, lo <= j < hi -> P j t -> P (j + 1) (body j t)) ->
  P hi (for_loop lo hi body s).
Proof.
  intros Hle Hs Hstep. unfold for_loop.
  replace hi with (lo + Z.of_nat (Z.to_nat (hi - lo))) at 1 by lia.
  apply for_up_inv; [exact Hs |].
  intros j t Hj. apply Hstep. lia.
Qed.

(** A loop whose bounds are empty does nothing. *)
Lemma for_loop_empty (lo hi : Z) (body : Z -> St -> St) (s : St) :
  hi <= lo -> for_loop lo hi body s = s.
Proof.
  intros H. unfold for_loop.
  replace (Z.to_nat (hi - lo)) with 0%nat by lia. reflexivity.
Qed.

(** The four iterations of a loop over four siblings. *)
Lemma for_loop_four (body : Z -> St -> St) (s : St) :
  for_loop 0 4 body s = body 3 (body 2 (body 1 (body 0 s))).
Proof. reflexivity. Qed.

End Loops.

Section Buffers.

Lemma buf_len_wr (p : buffer double) (i : Z) (v : double) :
  buf_len (wr p i v) = buf_len p.
Proof.
  unfold buf_len, wr. destruct p as [l|]; [|reflexivity].
  destruct (i <? 0); simpl; [reflexivity|].
  now rewrite length_insert.
Qed.

Lemma rd_wr_same (p : buffer double) (i : Z) (v : double) :
  0 <= i < buf_len p -> rd (wr p i v) i = v.
Proof.
  unfold buf_len, rd, wr. intros [H0 Hlen].
  destruct p as [l|]; simpl in Hlen; [|lia].
  destruct (i <? 0) eqn:E; [lia|]. simpl.
  rewrite nth_lookup, list_lookup_insert_eq by lia. reflexivity.
Qed.

Lemma rd_wr_other (p : buffer double) (i j : Z) (v : double) :
  i <> j -> rd (wr p i v) j = rd p j.
Proof.
  unfold rd, wr. intros Hne.
  destruct p as [l|]; [|reflexivity].
  destruct (j <? 0) eqn:Ej; [reflexivity|].
  destruct (i <? 0) eqn:Ei; [reflexivity|]. simpl.
  rewrite !nth_lookup, list_lookup_insert_ne by lia. reflexivity.
Qed.

Lemma buf_len_alloc (n : Z) :
  0 <= n -> buf_len (T8_ALLOC_ZERO 0%float n) = n.
Proof.
  intros H. unfold buf_len, T8_ALLOC_ZERO. simpl.
  rewrite repeat_length. lia.
Qed.

Lemma rd_alloc (n i : Z) : rd (T8_ALLOC_ZERO 0%float n) i = 0%float.
Proof.
  unfold rd, T8_ALLOC_ZERO. simpl. destruct (i <? 0); [reflexivity|].
  destruct (Nat.lt_ge_cases (Z.to_nat i) (Z.to_nat n)) as [H|H].
  - now rewrite nth_repeat_lt.
  - apply nth_overflow. now rewrite repeat_length.
Qed.

End Buffers.

(** * The mass-weighted interpolation *)

Arguments get_values : simpl never.
Arguments Coupler.sum : simpl never.
Arguments mult_sum : simpl never.
Arguments calculate_error_ratios : simpl never.
Arguments get_max : simpl never.
Arguments rd : simpl never.
Arguments wr : simpl never.
Arguments fmax : simpl never.
Arguments fadd : simpl never.
Arguments fdiv : simpl never.
Arguments for_loop : simpl never.

Section Merge.

Variables (m0 : t8_messy_data_t) (fo fi : Z).

Hypothesis Hnt : 1 <= num_tracers (chunk m0).
Hypothesis Hfi : 0 <= fi.
Hypothesis Hlen :
  (fi + 1) * (num_tracers (chunk m0) * z_length (chunk m0))
  <= buf_len (data_adapt (chunk m0)).

Lemma adapt_index_range (z d : Z) :
  0 <= z < z_length (chunk m0) -> 0 <= d < num_tracers (chunk m0) ->
  0 <= adapt_index m0 fi z d < buf_len (data_adapt (chunk m0)).
Proof.
  unfold adapt_index. intros Hz Hd.
  set (nt := num_tracers (chunk m0)) in *.
  set (zl := z_length (chunk m0)) in *.
  assert (0 <= nt * zl) by nia.
  assert (0 <= fi * (nt * zl)) by nia.
  assert (0 <= z * nt) by nia.
  assert (z * nt + d < nt * zl) by nia.
  split; [lia | nia].
Qed.

Lemma adapt_index_inj (z z' d d' : Z) :
  0 <= d < num_tracers (chunk m0) -> 0 <= d' < num_tracers (chunk m0) ->
  adapt_index m0 fi z d = adapt_index m0 fi z' d' -> z = z' /\ d = d'.
Proof.
  unfold adapt_index. intros Hd Hd' E.
  set (nt := num_tracers (chunk m0)) in *.
  assert (z = z') by nia. subst z'. split; [reflexivity | lia].
Qed.

(** After the callback every place of the new leaf's record holds the
    merged value. *)
Lemma callback2_data_adapt (z d : Z) :
  0 <= z < z_length (chunk m0) -> 0 <= d < num_tracers (chunk m0) ->
  rd (data_adapt (chunk (t8_messy_interpolate_callback2 m0 4 fo 1 fi)))
     (adapt_index m0 fi z d)
  = merged_value m0 fo z d.
Proof.
  intros Hz Hd.
  unfold t8_messy_interpolate_callback2.
  change (4 >? 1) with true. cbv iota.
  set (nt := num_tracers (chunk m0)) in *.
  set (zl := z_length (chunk m0)) in *.
  pose (Inv := fun (k : Z) (m : t8_messy_data_t) =>
    same_input m0 m /\
    forall z' d', 0 <= z' < k -> 0 <= d' < nt ->
      rd (data_adapt (chunk m)) (adapt_index m0 fi z' d')
      = merged_value m0 fo z' d').
  match goal with |- rd (data_adapt (chunk ?F)) _ = _ =>
    assert (HI : Inv zl F) end.
  2: { destruct HI as [_ HI]. apply HI; assumption. }
  apply (for_loop_inv Inv); [lia | |].
  { split; [repeat split | intros; lia]. }
  intros k m Hk [[Hdata [Hl [He [Hg Hlg]]]] Hprev].
  pose (Q := fun (j : Z) (m' : t8_messy_data_t) =>
    same_input m0 m' /\
    (forall z' d', 0 <= z' < k -> 0 <= d' < nt ->
      rd (data_adapt (chunk m')) (adapt_index m0 fi z' d')
      = merged_value m0 fo z' d') /\
    rd (data_adapt (chunk m')) (adapt_index m0 fi k (nt - 1))
    = total_mass_at m0 fo k /\
    (forall d', 0 <= d' < j ->
      rd (data_adapt (chunk m')) (adapt_index m0 fi k d')
      = interpolated_at m0 fo k d')).
  match goal with |- Inv _ ?F => assert (HQ : Q (nt - 1) F) end.
  2: { destruct HQ as [HS [Hp [Hm Hd']]]. split; [exact HS|].
       intros z' d' Hz' Hd''.
       destruct (Z.eq_dec z' k) as [->|Hne]; [|apply Hp; lia].
       unfold merged_value, mass_index. fold nt.
       destruct (d' =? nt - 1) eqn:E.
       - apply Z.eqb_eq in E. subst d'. exact Hm.
       - apply Z.eqb_neq in E. apply Hd'. lia. }
  apply (for_loop_inv Q); [lia | |].
  { (* the mass is written first *)
    unfold Q, upd_data_adapt; simpl.
    split; [repeat split; simpl; try assumption; now rewrite buf_len_wr|].
    split; [| split].
    - intros z' d' Hz' Hd''. rewrite rd_wr_other; [apply Hprev; assumption|].
      fold (adapt_index m0 fi k (nt - 1)). intros E.
      apply adapt_index_inj in E; lia.
    - fold (adapt_index m0 fi k (nt - 1)).
      rewrite rd_wr_same by (rewrite Hl; apply adapt_index_range; lia).
      rewrite Hdata. reflexivity.
    - intros; lia. }
  intros j m' Hj [[Hdata' [Hl' [He' [Hg' Hlg']]]] [Hp [Hm Hd']]].
  unfold Q, upd_data_adapt; simpl.
  split; [repeat split; simpl; try assumption; now rewrite buf_len_wr|].
  fold (adapt_index m0 fi k j).
  split; [| split].
  - intros z' d' Hz' Hd''. rewrite rd_wr_other; [apply Hp; assumption|].
    intros E. apply adapt_index_inj in E; lia.
  - rewrite rd_wr_other; [exact Hm|].
    intros E. apply adapt_index_inj in E; lia.
  - intros d' Hd''. destruct (Z.eq_dec d' j) as [->|Hne].
    + rewrite rd_wr_same by (rewrite Hl'; apply adapt_index_range; lia).
      rewrite Hdata', Hdata. reflexivity.
    + rewrite rd_wr_other; [apply Hd'; lia|].
      intros E. apply adapt_index_inj in E; lia.
Qed.

End Merge.

(** * The sums of the merge *)

Section Sums.

Variable mv : double.

Lemma at_middle (pre l : list double) (x : double) :
  at_ (pre ++ x :: l) (Z.of_nat (length pre)) = x.
Proof.
  unfold at_. destruct (Z.of_nat (length pre) <? 0) eqn:E;
    [apply Z.ltb_lt in E; lia|].
  rewrite Nat2Z.id. apply nth_middle.
Qed.

Lemma sum_loop_fold (l pre : list double) (acc : double) :
  for_up (length l) (Z.of_nat (length pre))
    (fun i s => if feq (at_ (pre ++ l) i) mv then s
                else fadd s (at_ (pre ++ l) i)) acc
  = fold_left (sum_step mv) l acc.
Proof.
  revert pre acc. induction l as [|x l IH]; intros pre acc; [reflexivity|].
  simpl for_up. rewrite at_middle.
  replace (Z.of_nat (length pre) + 1)
    with (Z.of_nat (length (pre ++ [x])))
    by (rewrite length_app; simpl; lia).
  replace (pre ++ x :: l) with ((pre ++ [x]) ++ l)
    by (now rewrite <- app_assoc).
  rewrite IH. reflexivity.
Qed.

Lemma fold_sum_step_filter (l : list double) (acc : double) :
  fold_left (sum_step mv) l acc
  = fold_left fadd (List.filter (fun m => negb (feq m mv)) l) acc.
Proof.
  revert acc. induction l as [|x l IH]; intros acc; [reflexivity|].
  simpl. unfold sum_step at 2. destruct (feq x mv); simpl; apply IH.
Qed.

(** [sum] over a whole array is the sum of the specification. *)
Lemma sum_is_spec_mass_sum (a : list double) :
  Coupler.sum (Z.of_nat (length a)) a mv = spec_mass_sum a mv.
Proof.
  unfold Coupler.sum, spec_mass_sum, for_loop.
  replace (Z.to_nat (Z.of_nat (length a) - 0)) with (length a) by lia.
  rewrite <- fold_sum_step_filter.
  exact (sum_loop_fold a [] 0%float).
Qed.

End Sums.

(** The values the callbacks collect are those of the four sibling
    leaves. *)
Lemma sibling_values_leaves (m : t8_messy_data_t) (fo z d : Z) :
  sibling_values m fo z d
  = four_values m fo z d.
Proof.
  unfold sibling_values, four_values, leaf_value, get_values.
  rewrite for_loop_four. simpl app.
  repeat (f_equal; try (f_equal; ring)).
Qed.

(** C7. When four siblings merge into the leaf [fi], at every layer [z]
    the mass tracer (the last one) of the new leaf is the sum of the
    masses of the four siblings, taken in order and skipping those equal
    to [missing_value]: the mass of the merged cells, missing values
    apart, is carried over unchanged. *)
Theorem mass_of_merged_leaf (m0 : t8_messy_data_t) (fo fi z : Z) :
  1 <= num_tracers (chunk m0) ->
  0 <= fi ->
  (fi + 1) * (num_tracers (chunk m0) * z_length (chunk m0))
    <= buf_len (data_adapt (chunk m0)) ->
  0 <= z < z_length (chunk m0) ->
  rd (data_adapt (chunk (t8_messy_interpolate_callback2 m0 4 fo 1 fi)))
     (adapt_index m0 fi z (mass_index m0))
  = spec_mass_sum (four_values m0 fo z (mass_index m0))
      (missing_value (chunk m0)).
Proof.
  intros Hnt Hfi Hlen Hz.
  rewrite callback2_data_adapt
    by (try assumption; unfold mass_index; lia).
  unfold merged_value. rewrite Z.eqb_refl.
  unfold total_mass_at. rewrite sibling_values_leaves.
  exact (sum_is_spec_mass_sum (missing_value (chunk m0))
           (four_values m0 fo z (mass_index m0))).
Qed.

(** The merge of the leaves 10, 10, 10, 11 with mass 1: the new mass is
    their sum. *)
Lemma mass_of_merged_leaf_witness :
  rd (data_adapt (chunk (t8_messy_interpolate_callback2 merge_plain 4 0 1 0)))
     (adapt_index merge_plain 0 0 (mass_index merge_plain))
  = spec_mass_sum (four_values merge_plain 0 0 (mass_index merge_plain))
      (missing_value (chunk merge_plain)).
Proof.
  apply (mass_of_merged_leaf merge_plain 0 0 0); vm_compute;
    repeat split; solve [reflexivity | intro; discriminate].
Defined.

(** The weighted sum and the total mass of four siblings, when every
    sibling has its value missing exactly when its mass is missing, are
    the two sums of the specification. *)
Lemma weighted_four_is_spec (mv v0 v1 v2 v3 w0 w1 w2 w3 : double) :
  feq v0 mv = feq w0 mv -> feq v1 mv = feq w1 mv ->
  feq v2 mv = feq w2 mv -> feq v3 mv = feq w3 mv ->
  fdiv (mult_sum 4 [v0; v1; v2; v3] [w0; w1; w2; w3] mv)
       (Coupler.sum 4 [w0; w1; w2; w3] mv)
  = spec_mass_weighted [v0; v1; v2; v3] [w0; w1; w2; w3] mv.
Proof.
  intros H0 H1 H2 H3.
  unfold mult_sum, Coupler.sum, spec_mass_weighted, neither_missing.
  rewrite !for_loop_four.
  change (at_ [v0; v1; v2; v3] 0) with v0.
  change (at_ [v0; v1; v2; v3] 1) with v1.
  change (at_ [v0; v1; v2; v3] 2) with v2.
  change (at_ [v0; v1; v2; v3] 3) with v3.
  change (at_ [w0; w1; w2; w3] 0) with w0.
  change (at_ [w0; w1; w2; w3] 1) with w1.
  change (at_ [w0; w1; w2; w3] 2) with w2.
  change (at_ [w0; w1; w2; w3] 3) with w3.
  simpl combine. simpl List.filter.
  rewrite H0, H1, H2, H3.
  destruct (feq w0 mv), (feq w1 mv), (feq w2 mv), (feq w3 mv);
    reflexivity.
Qed.

(** Where the rule of the specification and the code agree.  When four
    siblings merge into the leaf [fi] and, at layer [z], every sibling has
    the value of tracer [d] missing exactly when its mass is missing, the
    value stored for the non-mass tracer [d] is the sum of [value * mass]
    over the sum of [mass], both sums skipping the missing siblings. *)
Lemma weighted_value_of_merged_leaf (m0 : t8_messy_data_t)
    (fo fi z d : Z) :
  1 <= num_tracers (chunk m0) ->
  0 <= fi ->
  (fi + 1) * (num_tracers (chunk m0) * z_length (chunk m0))
    <= buf_len (data_adapt (chunk m0)) ->
  0 <= z < z_length (chunk m0) ->
  0 <= d < num_tracers (chunk m0) - 1 ->
  (forall i, 0 <= i < 4 ->
     feq (leaf_value m0 (fo + i) z d) (missing_value (chunk m0))
     = feq (leaf_value m0 (fo + i) z (mass_index m0))
           (missing_value (chunk m0))) ->
  rd (data_adapt (chunk (t8_messy_interpolate_callback2 m0 4 fo 1 fi)))
     (adapt_index m0 fi z d)
  = spec_mass_weighted (four_values m0 fo z d)
      (four_values m0 fo z (mass_index m0)) (missing_value (chunk m0)).
Proof.
  intros Hnt Hfi Hlen Hz Hd Hsame.
  rewrite callback2_data_adapt by (try assumption; lia).
  unfold merged_value, mass_index.
  destruct (d =? num_tracers (chunk m0) - 1) eqn:E;
    [apply Z.eqb_eq in E; lia|].
  unfold interpolated_at, total_mass_at.
  rewrite !sibling_values_leaves. unfold four_values.
  apply weighted_four_is_spec.
  - specialize (Hsame 0). rewrite Z.add_0_r in Hsame. apply Hsame. lia.
  - apply (Hsame 1). lia.
  - apply (Hsame 2). lia.
  - apply (Hsame 3). lia.
Qed.

(** The merge of the leaves 10, 10, 10, 11 with mass 1, where nothing is
    missing. *)
Lemma weighted_value_of_merged_leaf_witness :
  rd (data_adapt (chunk (t8_messy_interpolate_callback2 merge_plain 4 0 1 0)))
     (adapt_index merge_plain 0 0 0)
  = spec_mass_weighted (four_values merge_plain 0 0 0)
      (four_values merge_plain 0 0 (mass_index merge_plain))
      (missing_value (chunk merge_plain)).
Proof.
  apply (weighted_value_of_merged_leaf merge_plain 0 0 0 0).
  - vm_compute. intro; discriminate.
  - vm_compute. intro; discriminate.
  - vm_compute. intro; discriminate.
  - vm_compute. split; [intro; discriminate | reflexivity].
  - vm_compute. split; [intro; discriminate | reflexivity].
  - intros i Hi.
    assert (i = 0 \/ i = 1 \/ i = 2 \/ i = 3) as [->|[->|[->| ->]]] by lia;
      vm_compute; reflexivity.
Defined.

(** C2, on four siblings of which one has a single operand missing.
    [sum] skips a sibling whose mass is missing; [mult_sum] skips a sibling
    only when its value and its mass are both missing, so a sibling with
    one of the two missing has its product with the missing value -999
    added to the numerator.  Both groups below pass the tolerance
    predicate, which answers [-1], and [t8_messy_coarsen] merges them into
    the single leaf whose record is shown.
    - Values missing, 2, 2, 2 with the masses 2^-11, 1, 1, 1: the rule of
      the claim skips the first sibling and gives 6 / 3 = 2; the code
      stores (-999 * 2^-11 + 6) / (2^-11 + 3), which is below 2.
    - Values -2, -2, -2, -2 with the masses missing, 1, 1, 1: the rule of
      the claim gives -6 / 3 = -2; the code stores (1998 - 6) / 3 = 664. *)
Theorem weighted_value_takes_missing_operand :
  (four_values coupler_value_missing 0 0 0 = [-999; 2; 2; 2]%float
   /\ four_values coupler_value_missing 0 0
        (mass_index coupler_value_missing) = [0x1p-11; 1; 1; 1]%float
   /\ mult_sum 4 (four_values coupler_value_missing 0 0 0)
        (four_values coupler_value_missing 0 0
           (mass_index coupler_value_missing))
        (missing_value (chunk coupler_value_missing))
      = 5.51220703125%float
   /\ Coupler.sum 4
        (four_values coupler_value_missing 0 0
           (mass_index coupler_value_missing))
        (missing_value (chunk coupler_value_missing))
      = 3.00048828125%float
   /\ spec_mass_weighted (four_values coupler_value_missing 0 0 0)
        (four_values coupler_value_missing 0 0
           (mass_index coupler_value_missing))
        (missing_value (chunk coupler_value_missing))
      = 2%float
   /\ t8_messy_coarsen_by_error_tol_callback coupler_value_missing 0 4 = -1
   /\ option_map (fun st => (lp_forest st, data (chunk (lp_data st))))
        (t8_messy_coarsen coupler_value_missing 2)
      = Some ([ {| level := 0; morton := 0 |} ],
              Some [fdiv 5.51220703125 3.00048828125;
                    3.00048828125]%float)
   /\ (flt (fdiv 5.51220703125 3.00048828125) 2 = true)%float)
  /\ (four_values coupler_mass_missing 0 0 0 = [-2; -2; -2; -2]%float
      /\ four_values coupler_mass_missing 0 0
           (mass_index coupler_mass_missing) = [-999; 1; 1; 1]%float
      /\ mult_sum 4 (four_values coupler_mass_missing 0 0 0)
           (four_values coupler_mass_missing 0 0
              (mass_index coupler_mass_missing))
           (missing_value (chunk coupler_mass_missing))
         = 1992%float
      /\ Coupler.sum 4
           (four_values coupler_mass_missing 0 0
              (mass_index coupler_mass_missing))
           (missing_value (chunk coupler_mass_missing))
         = 3%float
      /\ spec_mass_weighted (four_values coupler_mass_missing 0 0 0)
           (four_values coupler_mass_missing 0 0
              (mass_index coupler_mass_missing))
           (missing_value (chunk coupler_mass_missing))
         = (-2)%float
      /\ t8_messy_coarsen_by_error_tol_callback coupler_mass_missing 0 4
         = -1
      /\ option_map (fun st => (lp_forest st, data (chunk (lp_data st))))
           (t8_messy_coarsen coupler_mass_missing 2)
         = Some ([ {| level := 0; morton := 0 |} ],
                 Some [664%float; 3%float])).
Proof. repeat split; vm_compute; reflexivity. Qed.

(** * The errors of the merge *)

Lemma for_up_snoc {St : Type} (body : Z -> St -> St) :
  forall (n : nat) (i : Z) (s : St),
    for_up (S n) i body s = body (i + Z.of_nat n) (for_up n i body s).
Proof.
  induction n as [|n IH]; intros i s.
  - simpl for_up. f_equal. lia.
  - change (for_up (S (S n)) i body s)
      with (for_up (S n) (i + 1) body (body i s)).
    rewrite IH. simpl for_up. f_equal. lia.
Qed.

Lemma for_loop_snoc {St : Type} (k : Z) (body : Z -> St -> St) (s : St) :
  0 <= k -> for_loop 0 (k + 1) body s = body k (for_loop 0 k body s).
Proof.
  intros Hk. unfold for_loop.
  replace (Z.to_nat (k + 1 - 0)) with (S (Z.to_nat (k - 0))) by lia.
  rewrite for_up_snoc. f_equal. lia.
Qed.

Section MergeErrors.

Variables (m0 : t8_messy_data_t) (fo fi : Z).

Hypothesis Hnt : 1 <= num_tracers (chunk m0).
Hypothesis Hzl : 0 <= z_length (chunk m0).
Hypothesis Hfi : 0 <= fi.
Hypothesis Herr :
  (fi + 1) * (num_tracers (chunk m0) - 1) <= buf_len (errors_adapt m0).

Hypothesis Hglob :
  (fi + 1) * (num_tracers (chunk m0) - 1) <= buf_len (errors_adapt_global m0).

Lemma error_index_range (d : Z) :
  0 <= d < num_tracers (chunk m0) - 1 ->
  0 <= error_index m0 fi d < buf_len (errors_adapt m0).
Proof. unfold error_index. intros Hd. nia. Qed.

Lemma global_index_range (d : Z) :
  0 <= d < num_tracers (chunk m0) - 1 ->
  0 <= error_index m0 fi d < buf_len (errors_adapt_global m0).
Proof. unfold error_index. intros Hd. nia. Qed.

(** After the callback the local error of tracer [d] of the new leaf is
    the running maximum over all layers, started from what [errors_adapt]
    held; and its global error is that local error added to the entry of
    [errors_global] at the index of the new leaf. *)
Lemma callback2_errors (d : Z) :
  0 <= d < num_tracers (chunk m0) - 1 ->
  let m1 := t8_messy_interpolate_callback2 m0 4 fo 1 fi in
  rd (errors_adapt m1) (error_index m0 fi d)
  = local_error_upto m0 fo fi d (z_length (chunk m0))
  /\ (0 < z_length (chunk m0) ->
      rd (errors_adapt_global m1) (error_index m0 fi d)
      = fadd (rd (errors_global m0) (error_index m0 fi d))
             (local_error_upto m0 fo fi d (z_length (chunk m0)))).
Proof.
  intros Hd m1. subst m1.
  unfold t8_messy_interpolate_callback2.
  change (4 >? 1) with true. cbv iota.
  set (nt := num_tracers (chunk m0)) in *.
  set (zl := z_length (chunk m0)) in *.
  pose (Inv := fun (k : Z) (m : t8_messy_data_t) =>
    same_input m0 m /\
    (forall d', 0 <= d' < nt - 1 ->
      rd (errors_adapt m) (error_index m0 fi d')
      = local_error_upto m0 fo fi d' k) /\
    (0 < k -> forall d', 0 <= d' < nt - 1 ->
      rd (errors_adapt_global m) (error_index m0 fi d')
      = fadd (rd (errors_global m0) (error_index m0 fi d'))
             (local_error_upto m0 fo fi d' k))).
  match goal with |- rd (errors_adapt ?F) _ = _ /\ _ =>
    assert (HI : Inv zl F) end.
  2: { destruct HI as [_ [HI HG]]. split; [apply HI; assumption|].
       intros Hpos. apply HG; assumption. }
  apply (for_loop_inv Inv); [lia | |].
  { split; [repeat split | split; [intros; reflexivity | intros; lia]]. }
  intros k m Hk [[Hdata [Hl [He [Hg Hlg]]]] [Hprev _]].
  pose (Q := fun (j : Z) (m' : t8_messy_data_t) =>
    same_input m0 m' /\
    (forall d', 0 <= d' < j ->
      rd (errors_adapt m') (error_index m0 fi d')
      = local_error_upto m0 fo fi d' (k + 1)) /\
    (forall d', j <= d' < nt - 1 ->
      rd (errors_adapt m') (error_index m0 fi d')
      = local_error_upto m0 fo fi d' k) /\
    (forall d', 0 <= d' < j ->
      rd (errors_adapt_global m') (error_index m0 fi d')
      = fadd (rd (errors_global m0) (error_index m0 fi d'))
             (local_error_upto m0 fo fi d' (k + 1)))).
  match goal with |- Inv _ ?F => assert (HQ : Q (nt - 1) F) end.
  2: { destruct HQ as [HS [Hlo [_ HG]]]. split; [exact HS|].
       split; [intros d' Hd'; apply Hlo; lia|].
       intros _ d' Hd'. apply HG. lia. }
  apply (for_loop_inv Q); [lia | |].
  { unfold Q, upd_data_adapt; simpl.
    split; [repeat split; simpl; try assumption; now rewrite buf_len_wr|].
    split; [intros; lia|]. split; [|intros; lia].
    intros d' Hd'. apply Hprev. lia. }
  intros j m' Hj [[Hdata' [Hl' [He' [Hg' Hlg']]]] [Hlo [Hhi HG]]].
  assert (Hstep :
    fmax (rd (errors_adapt m') (error_index m0 fi j))
      (get_max
         (calculate_error_ratios 4
            (get_values (fo * (nt * zl) + k * nt) 4 (nt * zl) j
               (data (chunk m')))
            (fdiv
               (mult_sum 4
                  (get_values (fo * (nt * zl) + k * nt) 4 (nt * zl) j
                     (data (chunk m')))
                  (get_values (fo * (nt * zl) + k * nt) 4 (nt * zl) (nt - 1)
                     (data (chunk m)))
                  (missing_value (chunk m0)))
               (Coupler.sum 4
                  (get_values (fo * (nt * zl) + k * nt) 4 (nt * zl) (nt - 1)
                     (data (chunk m)))
                  (missing_value (chunk m0))))
            (missing_value (chunk m0))) 4)
    = local_error_upto m0 fo fi j (k + 1)).
  { rewrite (Hhi j) by lia.
    unfold local_error_upto at 2. rewrite for_loop_snoc by lia.
    rewrite Hdata', Hdata.
    unfold local_error_upto, layer_error, interpolated_at, total_mass_at,
      sibling_values, mass_index.
    reflexivity. }
  unfold Q, upd_data_adapt; simpl.
  split; [repeat split; simpl; try assumption; now rewrite buf_len_wr|].
  change (fi * (nt - 1) + j) with (error_index m0 fi j).
  split; [| split].
  - intros d' Hd'. destruct (Z.eq_dec d' j) as [->|Hne].
    + rewrite rd_wr_same by (rewrite He'; apply error_index_range; lia).
      exact Hstep.
    + rewrite rd_wr_other; [apply Hlo; lia|].
      unfold error_index. lia.
  - intros d' Hd'. rewrite rd_wr_other; [apply Hhi; lia|].
    unfold error_index. lia.
  - intros d' Hd'. destruct (Z.eq_dec d' j) as [->|Hne].
    + rewrite rd_wr_same
        by (rewrite Hlg'; apply global_index_range; lia).
      rewrite Hg', Hstep. reflexivity.
    + rewrite rd_wr_other; [apply HG; lia|].
      unfold error_index. lia.
Qed.

End MergeErrors.

(** * A group of missing values *)

Lemma forallb_four (f : double -> bool) (a b c d : double) :
  forallb f [a; b; c; d] = true ->
  f a = true /\ f b = true /\ f c = true /\ f d = true.
Proof.
  simpl. rewrite !andb_true_iff. tauto.
Qed.

(** Where the four values and the four masses are missing, both sums are
    empty and the interpolated value is the quotient [0.0 / 0.0]. *)
Lemma interpolated_of_missing (m : t8_messy_data_t) (fo z d : Z) :
  layer_missing m fo z d = true ->
  total_mass_at m fo z = 0%float
  /\ interpolated_at m fo z d = fdiv 0%float 0%float.
Proof.
  unfold layer_missing. rewrite andb_true_iff. intros [Hv Hm].
  unfold interpolated_at, total_mass_at. rewrite !sibling_values_leaves.
  unfold four_values in *.
  apply forallb_four in Hv. destruct Hv as (V0 & V1 & V2 & V3).
  apply forallb_four in Hm. destruct Hm as (M0 & M1 & M2 & M3).
  assert (Hs : Coupler.sum 4
                 [leaf_value m fo z (mass_index m);
                  leaf_value m (fo + 1) z (mass_index m);
                  leaf_value m (fo + 2) z (mass_index m);
                  leaf_value m (fo + 3) z (mass_index m)]
                 (missing_value (chunk m)) = 0%float).
  { unfold Coupler.sum. rewrite for_loop_four.
    unfold at_; simpl. now rewrite M0, M1, M2, M3. }
  split; [exact Hs|]. rewrite Hs. f_equal.
  unfold mult_sum. rewrite for_loop_four.
  unfold at_; simpl. now rewrite V0, V1, V2, V3, M0, M1, M2, M3.
Qed.

(** The error ratios of such a layer are all [0]. *)
Lemma layer_error_of_missing (m : t8_messy_data_t) (fo z d : Z) :
  layer_missing m fo z d = true -> layer_error m fo z d = 0%float.
Proof.
  unfold layer_missing. rewrite andb_true_iff. intros [Hv _].
  unfold layer_error. rewrite sibling_values_leaves.
  unfold four_values in *.
  apply forallb_four in Hv. destruct Hv as (V0 & V1 & V2 & V3).
  unfold calculate_error_ratios. rewrite for_loop_four.
  unfold at_; simpl. rewrite V0, V1, V2, V3. reflexivity.
Qed.

(** C5, as the code has it.  When four siblings merge and at layer [z]
    every sibling's value of the non-mass tracer [d] and every sibling's
    mass equal [missing_value], the callback stores the quotient
    [0.0 / 0.0], a NaN and not [0], as the value of [d] at that layer, and
    [0] as the mass; the error ratios of that layer are [0], and when
    every layer of the group is like this and [errors_adapt] starts at
    [0] (as the coarsening loop allocates it, with room for the new leaf
    in both error arrays), the local error recorded for the new leaf is
    [0]. *)
Theorem merge_of_missing_layer (m0 : t8_messy_data_t) (fo fi z d : Z) :
  1 <= num_tracers (chunk m0) ->
  0 <= fi ->
  (fi + 1) * (num_tracers (chunk m0) * z_length (chunk m0))
    <= buf_len (data_adapt (chunk m0)) ->
  (fi + 1) * (num_tracers (chunk m0) - 1) <= buf_len (errors_adapt m0) ->
  (fi + 1) * (num_tracers (chunk m0) - 1)
    <= buf_len (errors_adapt_global m0) ->
  0 <= z < z_length (chunk m0) ->
  0 <= d < num_tracers (chunk m0) - 1 ->
  layer_missing m0 fo z d = true ->
  let m1 := t8_messy_interpolate_callback2 m0 4 fo 1 fi in
  PrimFloat.is_nan (rd (data_adapt (chunk m1)) (adapt_index m0 fi z d)) = true
  /\ rd (data_adapt (chunk m1)) (adapt_index m0 fi z (mass_index m0))
     = 0%float
  /\ layer_error m0 fo z d = 0%float
  /\ ((forall z', 0 <= z' < z_length (chunk m0) ->
         layer_missing m0 fo z' d = true) ->
      rd (errors_adapt m0) (error_index m0 fi d) = 0%float ->
      rd (errors_adapt m1) (error_index m0 fi d) = 0%float).
Proof.
  intros Hnt Hfi Hlen Herr Hglob Hz Hd Hmiss m1. subst m1.
  assert (Hzl : 0 <= z_length (chunk m0)) by lia.
  destruct (interpolated_of_missing m0 fo z d Hmiss) as [Ht Hi].
  repeat split.
  - rewrite callback2_data_adapt by (try assumption; lia).
    unfold merged_value, mass_index.
    destruct (d =? num_tracers (chunk m0) - 1) eqn:E;
      [apply Z.eqb_eq in E; lia|].
    rewrite Hi. reflexivity.
  - rewrite callback2_data_adapt
      by (try assumption; unfold mass_index; lia).
    unfold merged_value. rewrite Z.eqb_refl. exact Ht.
  - now apply layer_error_of_missing.
  - intros Hall H0.
    destruct (callback2_errors m0 fo fi Hnt Hzl Hfi Herr Hglob d Hd)
      as [-> _].
    unfold local_error_upto. rewrite H0.
    apply (for_loop_inv (fun _ e => e = 0%float)); [lia | reflexivity |].
    intros k e Hk ->. rewrite layer_error_of_missing by (apply Hall; lia).
    reflexivity.
Qed.

(** The merge of four leaves that hold nothing but missing values. *)
Lemma merge_of_missing_layer_witness :
  let m1 := t8_messy_interpolate_callback2 merge_all_missing 4 0 1 0 in
  PrimFloat.is_nan
    (rd (data_adapt (chunk m1)) (adapt_index merge_all_missing 0 0 0)) = true
  /\ rd (data_adapt (chunk m1))
        (adapt_index merge_all_missing 0 0 (mass_index merge_all_missing))
     = 0%float
  /\ layer_error merge_all_missing 0 0 0 = 0%float
  /\ ((forall z', 0 <= z' < z_length (chunk merge_all_missing) ->
         layer_missing merge_all_missing 0 z' 0 = true) ->
      rd (errors_adapt merge_all_missing) (error_index merge_all_missing 0 0)
      = 0%float ->
      rd (errors_adapt m1) (error_index merge_all_missing 0 0) = 0%float).
Proof.
  apply (merge_of_missing_layer merge_all_missing 0 0 0 0); vm_compute;
    repeat split; solve [reflexivity | intro; discriminate].
Defined.

(** C5 fails as stated: for four siblings with nothing but missing
    values the value stored for the tracer is a NaN, which is not [0]. *)
Lemma merge_of_missing_counterexample :
  layer_missing merge_all_missing 0 0 0 = true
  /\ rd (data_adapt
           (chunk (t8_messy_interpolate_callback2 merge_all_missing 4 0 1 0)))
        (adapt_index merge_all_missing 0 0 0)
     = nan
  /\ feq (rd (data_adapt
                (chunk (t8_messy_interpolate_callback2
                          merge_all_missing 4 0 1 0)))
             (adapt_index merge_all_missing 0 0 0)) 0%float
     = false.
Proof. repeat split; vm_compute; reflexivity. Qed.

(** * The error-tolerance predicate *)

Section ReturningLoops.

Context {R : Type}.

(** A returning loop over a state without content either runs through,
    every round going on, or returns what its first returning round
    returns. *)
Lemma for_up_ret_unit (body : Z -> unit -> R + unit) :
  forall (n : nat) (i : Z),
    (for_up_ret n i body tt = inr tt
     /\ forall j, i <= j < i + Z.of_nat n -> body j tt = inr tt)
    \/ (exists j r, i <= j < i + Z.of_nat n
          /\ body j tt = inl r
          /\ for_up_ret n i body tt = inl r
          /\ forall j', i <= j' < j -> body j' tt = inr tt).
Proof.
  induction n as [|n IH]; intros i.
  - left. split; [reflexivity | intros; lia].
  - simpl for_up_ret. destruct (body i tt) as [r|[]] eqn:E.
    + right. exists i, r.
      split; [lia|]. split; [exact E|]. split; [reflexivity|].
      intros; lia.
    + destruct (IH (i + 1)) as [[Hrun Hall]|(j & r & Hj & Hb & Hr & Hbefore)].
      * left. split; [exact Hrun|]. intros j Hj.
        destruct (Z.eq_dec j i) as [->|Hne]; [exact E | apply Hall; lia].
      * right. exists j, r.
        split; [lia|]. split; [exact Hb|]. split; [exact Hr|].
        intros j' Hj'.
        destruct (Z.eq_dec j' i) as [->|Hne]; [exact E | apply Hbefore; lia].
Qed.

Lemma for_loop_ret_runs (n : Z) (body : Z -> unit -> R + unit) :
  0 <= n ->
  (for_loop_ret 0 n body tt = inr tt
   <-> forall j, 0 <= j < n -> body j tt = inr tt).
Proof.
  intros Hn. unfold for_loop_ret.
  destruct (for_up_ret_unit body (Z.to_nat (n - 0)) 0)
    as [[Hrun Hall]|(j & r & Hj & Hb & Hr & _)].
  - split; [|intros _; exact Hrun]. intros _ j Hj. apply Hall. lia.
  - split; [intros E; rewrite E in Hr; discriminate|].
    intros Hall. rewrite Hall in Hb by lia. discriminate.
Qed.

End ReturningLoops.

(** The predicate, with the quantities of the merge named. *)
Lemma error_tol_callback_layers (m : t8_messy_data_t) (fo : Z) :
  t8_messy_coarsen_by_error_tol_callback m fo 4
  = match
      for_loop_ret 0 (z_length (chunk m))
        (fun z (_ : unit) =>
           for_loop_ret 0 (num_tracers (chunk m) - 1)
             (fun d (_ : unit) =>
                if fgt (layer_error m fo z d) error_tolerance
                then inl 0 else inr tt) tt) tt
    with
    | inl r => r
    | inr _ => -1
    end.
Proof.
  unfold t8_messy_coarsen_by_error_tol_callback.
  change (4 =? 1) with false. cbv iota.
  unfold layer_error, interpolated_at, total_mass_at, sibling_values,
    mass_index.
  replace (fo * z_length (chunk m) * num_tracers (chunk m))
    with (fo * (num_tracers (chunk m) * z_length (chunk m))) by ring.
  replace (z_length (chunk m) * num_tracers (chunk m))
    with (num_tracers (chunk m) * z_length (chunk m)) by ring.
  reflexivity.
Qed.

(** The predicate answers [-1] (merge) exactly when no layer and no
    non-mass tracer has its largest error ratio above the tolerance, and
    [0] (keep) otherwise.  The error ratio is the one of
    [calculate_error_ratios], whose divisor is the value with its sign. *)
Lemma error_tol_callback_merges (m : t8_messy_data_t) (fo : Z) :
  0 <= z_length (chunk m) -> 1 <= num_tracers (chunk m) ->
  (t8_messy_coarsen_by_error_tol_callback m fo 4 = -1
   <-> forall z d, 0 <= z < z_length (chunk m) ->
         0 <= d < num_tracers (chunk m) - 1 ->
         fgt (layer_error m fo z d) error_tolerance = false)
  /\ (t8_messy_coarsen_by_error_tol_callback m fo 4 = -1
      \/ t8_messy_coarsen_by_error_tol_callback m fo 4 = 0).
Proof.
  intros Hzl Hnt. rewrite error_tol_callback_layers.
  set (inner := fun z (_ : unit) =>
         for_loop_ret 0 (num_tracers (chunk m) - 1)
           (fun d (_ : unit) =>
              if fgt (layer_error m fo z d) error_tolerance
              then inl 0 else inr tt) tt).
  assert (Hinner : forall z,
            (inner z tt = inr tt
             <-> forall d, 0 <= d < num_tracers (chunk m) - 1 ->
                   fgt (layer_error m fo z d) error_tolerance = false)
            /\ (inner z tt = inr tt \/ inner z tt = inl 0)).
  { intros z. unfold inner. split.
    - rewrite for_loop_ret_runs by lia.
      split; intros H d Hd; specialize (H d Hd);
        destruct (fgt (layer_error m fo z d) error_tolerance);
        congruence.
    - unfold for_loop_ret.
      match goal with |- context [for_up_ret ?n ?i ?b tt] =>
        destruct (for_up_ret_unit b n i)
          as [[Hrun _]|(j & r & _ & Hb & Hr & _)] end.
      + left. exact Hrun.
      + right. rewrite Hr. simpl in Hb.
        destruct (fgt (layer_error m fo z j) error_tolerance);
          congruence. }
  split.
  - destruct (for_loop_ret 0 (z_length (chunk m)) inner tt)
      as [r|[]] eqn:E.
    + split.
      * intros ->. exfalso.
        unfold for_loop_ret in E.
        destruct (for_up_ret_unit inner (Z.to_nat (z_length (chunk m) - 0)) 0)
          as [[Hrun _]|(j & r' & _ & Hb & Hr & _)]; [congruence|].
        rewrite E in Hr. injection Hr as <-.
        destruct (proj2 (Hinner j)) as [H|H]; rewrite H in Hb; discriminate.
      * intros Hall. exfalso.
        assert (Hrun : for_loop_ret 0 (z_length (chunk m)) inner tt = inr tt).
        { apply for_loop_ret_runs; [lia|]. intros z Hz.
          apply (proj1 (Hinner z)). intros d Hd. now apply Hall. }
        congruence.
    + split; [|reflexivity]. intros _ z d Hz Hd.
      apply (proj1 (for_loop_ret_runs _ inner Hzl)) with (j := z) in E;
        [|lia].
      now apply (proj1 (proj1 (Hinner z)) E).
  - unfold for_loop_ret.
    destruct (for_up_ret_unit inner (Z.to_nat (z_length (chunk m) - 0)) 0)
      as [[Hrun _]|(j & r & _ & Hb & Hr & _)].
    + left. now rewrite Hrun.
    + right. rewrite Hr.
      destruct (proj2 (Hinner j)) as [H|H]; rewrite H in Hb; congruence.
Qed.

(** C4, on four siblings with negative values.  For the values -10, -10,
    -10, -30 with mass 1 the interpolated value is -15, so the relative
    error [|value - interpolated| / |value|] is 0.5 for every sibling, five
    times the tolerance, and the group is to be kept.  The code divides by
    the value itself, finds the ratio -0.5, and merges: the predicate
    answers [-1], and [t8_messy_coarsen] ends with the single merged leaf
    and a local error of [0]. *)
Theorem error_tol_merges_negative_values :
  interpolated_at coupler_negative 0 0 0 = (-15)%float
  /\ spec_max_relative_error (missing_value (chunk coupler_negative))
       (interpolated_at coupler_negative 0 0 0)
       (four_values coupler_negative 0 0 0) = 0.5%float
  /\ fgt 0.5%float error_tolerance = true
  /\ layer_error coupler_negative 0 0 0 = (-0.5)%float
  /\ t8_messy_coarsen_by_error_tol_callback coupler_negative 0 4 = -1
  /\ option_map (fun st => (lp_forest st, data (chunk (lp_data st)),
                            errors (lp_data st)))
       (t8_messy_coarsen coupler_negative 2)
     = Some ([ {| level := 0; morton := 0 |} ],
             Some [(-15)%float; 4%float], Some [0%float]).
Proof. repeat split; vm_compute; reflexivity. Qed.

(** C3, on the 4 x 4 grid.  The first round merges the sixteen leaves into
    four, whose accumulated global errors are 0, e, 0, 0 with e > 0 (the
    second quadrant holds the value 11).  The second round merges these
    four children into the root.  The callback adds the local error of
    that merge to the entry of [errors_global] at the index of the new
    leaf, which is the entry of the first child, 0; the largest global
    error of the children is not looked for.  The root ends with a global
    error below the one its second child had, and different from the
    maximum over the children plus the local error. *)
Theorem global_error_misses_children :
  let st1 := loop_state (coarsen_rounds 1 (coarsen_enter coupler_4x4 2)) in
  let st2 := loop_state (coarsen_rounds 2 (coarsen_enter coupler_4x4 2)) in
  let children := contents (errors_global (lp_data st1)) in
  let local := rd (errors (lp_data st2)) 0 in
  let global := rd (errors_global (lp_data st2)) 0 in
  length (lp_forest st1) = 4%nat
  /\ length children = 4%nat
  /\ lp_forest st2 = [ {| level := 0; morton := 0 |} ]
  /\ global = fadd (at_ children 0) local
  /\ max_of children = at_ children 1
  /\ flt global (max_of children) = true
  /\ feq global (spec_global_error children local) = false.
Proof. repeat split; vm_compute; reflexivity. Qed.

(** The same, for any merge: the global error stored for tracer [d] of
    the new leaf [fi] is the entry of [errors_global] at the index of that
    new leaf, whichever the outgoing children are, plus the local error of
    the merge. *)
Lemma global_error_of_merged_leaf (m0 : t8_messy_data_t) (fo fi d : Z) :
  1 <= num_tracers (chunk m0) ->
  0 < z_length (chunk m0) ->
  0 <= fi ->
  (fi + 1) * (num_tracers (chunk m0) - 1) <= buf_len (errors_adapt m0) ->
  (fi + 1) * (num_tracers (chunk m0) - 1)
    <= buf_len (errors_adapt_global m0) ->
  0 <= d < num_tracers (chunk m0) - 1 ->
  let m1 := t8_messy_interpolate_callback2 m0 4 fo 1 fi in
  rd (errors_adapt_global m1) (error_index m0 fi d)
  = fadd (rd (errors_global m0) (error_index m0 fi d))
         (rd (errors_adapt m1) (error_index m0 fi d)).
Proof.
  intros Hnt Hzl Hfi Herr Hglob Hd m1. subst m1.
  assert (Hzl' : 0 <= z_length (chunk m0)) by lia.
  destruct (callback2_errors m0 fo fi Hnt Hzl' Hfi Herr Hglob d Hd)
    as [-> HG].
  now apply HG.
Qed.

(** * The configurations and the coarsening loop *)

Section Configurations.

Variables (c : option t8_messy_coarsen_t) (i : option t8_messy_interpolate_t).

Lemma for_up_commute {St : Type} (f : St -> St) (body body' : Z -> St -> St) :
  (forall j s, body' j (f s) = f (body j s)) ->
  forall (n : nat) (k : Z) (s : St),
    for_up n k body' (f s) = f (for_up n k body s).
Proof.
  intros H. induction n as [|n IH]; intros k s; [reflexivity|].
  simpl. rewrite H. apply IH.
Qed.

(** The interpolation callback does not look at the configurations. *)
Lemma callback2_with_configs (m : t8_messy_data_t) (no fo ni fi : Z) :
  t8_messy_interpolate_callback2 (with_configs c i m) no fo ni fi
  = with_configs c i (t8_messy_interpolate_callback2 m no fo ni fi).
Proof.
  unfold t8_messy_interpolate_callback2.
  change (chunk (with_configs c i m)) with (chunk m).
  destruct (no >? ni); [|reflexivity].
  unfold for_loop. apply for_up_commute. intros z s.
  change (chunk (with_configs c i s)) with (chunk s).
  change (upd_data_adapt (with_configs c i s))
    with (fun k v => with_configs c i (upd_data_adapt s k v)).
  cbv beta. apply for_up_commute. intros d t. reflexivity.
Qed.

Lemma replace_with_configs (elements_new : list t8_element_t) :
  forall (elements_old : list t8_element_t) (fi fo : Z) (m : t8_messy_data_t),
    replace_elements t8_messy_interpolate_callback2 elements_new elements_old
      fi fo (with_configs c i m)
    = with_configs c i
        (replace_elements t8_messy_interpolate_callback2 elements_new
           elements_old fi fo m).
Proof.
  induction elements_new as [|e rest IH]; intros old fi fo m;
    [reflexivity|].
  simpl. destruct old as [|e_old old']; [reflexivity|].
  destruct (level e <? level e_old);
    rewrite callback2_with_configs; apply IH.
Qed.

(** Neither does a round of the loop. *)
Lemma coarsen_round_with_configs (r : Z) (st : coarsen_loop_t) :
  coarsen_round r (loop_with_configs c i st)
  = match coarsen_round r st with
    | inl st' => inl (loop_with_configs c i st')
    | inr st' => inr (loop_with_configs c i st')
    end.
Proof.
  unfold coarsen_round.
  change (lp_data (loop_with_configs c i st))
    with (with_configs c i (lp_data st)).
  change (lp_forest (loop_with_configs c i st)) with (lp_forest st).
  change (lp_last_num_elements (loop_with_configs c i st))
    with (lp_last_num_elements st).
  change (lp_live (loop_with_configs c i st)) with (lp_live st).
  change (t8_forest_new_adapt (lp_forest st)
            t8_messy_coarsen_by_error_tol_callback
            (with_configs c i (lp_data st)))
    with (t8_forest_new_adapt (lp_forest st)
            t8_messy_coarsen_by_error_tol_callback (lp_data st)).
  cbv zeta.
  destruct (t8_forest_get_num_element
              (t8_forest_new_adapt (lp_forest st)
                 t8_messy_coarsen_by_error_tol_callback (lp_data st))
            =? lp_last_num_elements st); [reflexivity|].
  unfold t8_forest_iterate_replace.
  match goal with
  | |- context [replace_elements _ ?n ?o 0 0 ?m] =>
      change m with (with_configs c i
        (set_errors_adapt_global
           (set_errors_adapt
              (set_chunk (lp_data st)
                 (set_data_adapt
                    (set_data_ids_adapt (chunk (lp_data st))
                       (T8_ALLOC_ZERO 0
                          (t8_forest_get_num_element
                             (t8_forest_new_adapt (lp_forest st)
                                t8_messy_coarsen_by_error_tol_callback
                                (lp_data st)))))
                    (T8_ALLOC_ZERO 0%float
                       (t8_forest_get_num_element
                          (t8_forest_new_adapt (lp_forest st)
                             t8_messy_coarsen_by_error_tol_callback
                             (lp_data st))
                        * z_length (chunk (lp_data st))
                        * num_tracers (chunk (lp_data st))))))
              (T8_ALLOC_ZERO 0%float
                 (t8_forest_get_num_element
                    (t8_forest_new_adapt (lp_forest st)
                       t8_messy_coarsen_by_error_tol_callback (lp_data st))
                  * (num_tracers (chunk (lp_data st)) - 1))))
           (T8_ALLOC_ZERO 0%float
              (t8_forest_get_num_element
                 (t8_forest_new_adapt (lp_forest st)
                    t8_messy_coarsen_by_error_tol_callback (lp_data st))
               * (num_tracers (chunk (lp_data st)) - 1)))))
  end.
  rewrite replace_with_configs. reflexivity.
Qed.

Lemma coarsen_rounds_with_configs (n : nat) :
  forall (r : Z) (st : coarsen_loop_t),
    for_up_ret n r coarsen_round (loop_with_configs c i st)
    = match for_up_ret n r coarsen_round st with
      | inl st' => inl (loop_with_configs c i st')
      | inr st' => inr (loop_with_configs c i st')
      end.
Proof.
  induction n as [|n IH]; intros r st; [reflexivity|].
  simpl. rewrite coarsen_round_with_configs.
  destruct (coarsen_round r st) as [st'|st']; [reflexivity|]. apply IH.
Qed.

(** The loop of [t8_messy_coarsen] yields the same forest, data and
    errors whatever the coarsen and interpolate configurations are: the
    configurations are only carried along. *)
Lemma coarsen_loop_with_configs (m : t8_messy_data_t) (live : Z) :
  coarsen_loop (coarsen_enter (with_configs c i m) live)
  = loop_with_configs c i (coarsen_loop (coarsen_enter m live)).
Proof.
  unfold coarsen_loop, for_loop_ret.
  change (coarsen_enter (with_configs c i m) live)
    with (loop_with_configs c i (coarsen_enter m live)).
  rewrite coarsen_rounds_with_configs.
  destruct (for_up_ret (Z.to_nat (ROUNDS - 0)) 0 coarsen_round
              (coarsen_enter m live)); reflexivity.
Qed.

End Configurations.

(** C1, on a 2 x 2 grid with the value 1 everywhere.  The configuration is
    built from the method string "max_lower" with the threshold 0.5, and it
    names the predicate that compares the largest value with the threshold:
    [t8_messy_coarsen_callback] keeps the four leaves, since 1 is not below
    0.5.  [t8_messy_coarsen] hands the error-tolerance predicate to the
    forest instead and merges them.  The method string "error_tol" is not
    among those [t8_messy_new_coarsen_config] compares: it yields the
    mean-lower threshold. *)
Theorem coarsen_ignores_coarsen_method :
  coarsen coupler_threshold = config_max_lower
  /\ option_map co_method config_max_lower
     = Some T8_MESSY_COARSEN_THRESHOLD_MAX_LOWER
  /\ t8_messy_coarsen_callback coupler_threshold 0 4 = Some 0
  /\ t8_messy_coarsen_by_error_tol_callback coupler_threshold 0 4 = -1
  /\ option_map (fun st => (lp_forest st, data (chunk (lp_data st))))
       (t8_messy_coarsen coupler_threshold 2)
     = Some ([ {| level := 0; morton := 0 |} ], Some [1%float; 4%float])
  /\ option_map co_method config_error_tol
     = Some T8_MESSY_COARSEN_THRESHOLD_MEAN_LOWER.
Proof. repeat split; vm_compute; reflexivity. Qed.

(** C6, on a 2 x 2 grid with the values 10, 10, 10, 11 and the mass 1.
    The configuration is built from the method string "min":
    [t8_messy_interpolate_callback] would store the minimum of the values,
    10, and the minimum of the masses, 1.  [t8_messy_coarsen] iterates with
    the mass-weighted callback instead and stores 10.25 and the total mass
    4.  The method string "mass_weighted" is not among those
    [t8_messy_new_interpolate_config] compares: it yields the mean. *)
Theorem coarsen_ignores_interpolate_method :
  interpolation coupler_min = config_min
  /\ option_map ip_method config_min = Some T8_MESSY_INTERPOLATE_MIN
  /\ option_map (fun m => data_adapt (chunk m))
       (t8_messy_interpolate_callback merge_min 4 0 1 0)
     = Some (Some [10%float; 1%float])
  /\ option_map (fun st => (lp_forest st, data (chunk (lp_data st))))
       (t8_messy_coarsen coupler_min 2)
     = Some ([ {| level := 0; morton := 0 |} ],
             Some [10.25%float; 4%float])
  /\ ip_method (t8_messy_new_interpolate_config "mass_weighted" None)
     = T8_MESSY_INTERPOLATE_MEAN.
Proof. repeat split; vm_compute; reflexivity. Qed.

(** * Tracer ingest: the dense layout *)

Section Layout.

Variables (xl yl zl nt : Z).
Hypothesis Hxl : 0 < xl.
Hypothesis Hyl : 0 < yl.
Hypothesis Hzl : 0 < zl.
Hypothesis Hnt : 0 < nt.

Lemma offset_range (x y z t : Z) :
  0 <= x < xl -> 0 <= y < yl -> 0 <= z < zl -> 0 <= t < nt ->
  0 <= (y * zl * xl + x * zl + z) * nt + t < xl * yl * zl * nt.
Proof.
  intros Hx Hy Hz Ht.
  assert (H1 : 0 <= x * zl + z < xl * zl) by nia.
  assert (H2 : 0 <= y * zl * xl + (x * zl + z) < yl * (xl * zl)) by nia.
  replace (y * zl * xl + x * zl + z) with (y * zl * xl + (x * zl + z))
    by ring.
  nia.
Qed.

Lemma offset_inj (x y z x' y' z' t : Z) :
  0 <= x < xl -> 0 <= z < zl -> 0 <= x' < xl -> 0 <= z' < zl ->
  (y * zl * xl + x * zl + z) * nt + t
  = (y' * zl * xl + x' * zl + z') * nt + t ->
  x = x' /\ y = y' /\ z = z'.
Proof.
  intros Hx Hz Hx' Hz' E.
  assert (E1 : y * zl * xl + x * zl + z = y' * zl * xl + x' * zl + z')
    by nia.
  assert (H1 : 0 <= x * zl + z < xl * zl) by nia.
  assert (H1' : 0 <= x' * zl + z' < xl * zl) by nia.
  assert (Ey : y = y') by nia. subst y'.
  assert (Ex : x = x') by nia. subst x'.
  split; [reflexivity|]. split; [reflexivity | lia].
Qed.

End Layout.

Section Decode.

Variables (s0 s1 s2 : Z).
Hypothesis H0 : 0 < s0.
Hypothesis H1 : 0 < s1.
Hypothesis H2 : 0 < s2.

(** The three indices that [t8_messy_set_tracer_values] computes from
    the position [i] in the input. *)
Lemma decode_range (i : Z) :
  0 <= i < s0 * s1 * s2 ->
  let a := Z.quot i (s0 * s1) in
  let l := Z.rem i (s0 * s1) in
  let b := Z.quot l s0 in
  let c := Z.rem l s0 in
  0 <= a < s2 /\ 0 <= b < s1 /\ 0 <= c < s0
  /\ i = c + s0 * (b + s1 * a).
Proof.
  intros Hi a l b c. subst a l b c.
  assert (Hp : 0 < s0 * s1) by nia.
  rewrite (Z.quot_div_nonneg i), (Z.rem_mod_nonneg i) by lia.
  pose proof (Z.mod_pos_bound i (s0 * s1) Hp) as Hl.
  rewrite Z.quot_div_nonneg, Z.rem_mod_nonneg by lia.
  pose proof (Z.mod_pos_bound (i mod (s0 * s1)) s0 H0) as Hc.
  pose proof (Z.div_mod i (s0 * s1) ltac:(lia)) as Ei.
  pose proof (Z.div_mod (i mod (s0 * s1)) s0 ltac:(lia)) as El.
  assert (Ha : 0 <= i / (s0 * s1) < s2).
  { split; [apply Z.div_pos; lia|].
    apply Z.div_lt_upper_bound; [lia | nia]. }
  assert (Hb : 0 <= i mod (s0 * s1) / s0 < s1).
  { split; [apply Z.div_pos; lia|].
    apply Z.div_lt_upper_bound; [lia | nia]. }
  repeat split; first [lia | nia].
Qed.

Lemma decode_encode (a b c : Z) :
  0 <= a < s2 -> 0 <= b < s1 -> 0 <= c < s0 ->
  let i := c + s0 * (b + s1 * a) in
  0 <= i < s0 * s1 * s2
  /\ Z.quot i (s0 * s1) = a
  /\ Z.quot (Z.rem i (s0 * s1)) s0 = b
  /\ Z.rem (Z.rem i (s0 * s1)) s0 = c.
Proof.
  intros Ha Hb Hc i. subst i.
  assert (Hp : 0 < s0 * s1) by nia.
  assert (Hl : 0 <= c + s0 * b < s0 * s1) by nia.
  assert (Hi : 0 <= c + s0 * (b + s1 * a) < s0 * s1 * s2) by nia.
  split; [exact Hi|].
  rewrite (Z.quot_div_nonneg (c + s0 * (b + s1 * a))),
    (Z.rem_mod_nonneg (c + s0 * (b + s1 * a))) by lia.
  assert (Ediv : (c + s0 * (b + s1 * a)) / (s0 * s1) = a).
  { symmetry. apply (Z.div_unique _ _ a (c + s0 * b)); [lia | ring]. }
  assert (Emod : (c + s0 * (b + s1 * a)) mod (s0 * s1) = c + s0 * b).
  { symmetry. apply (Z.mod_unique _ _ a (c + s0 * b)); [lia | ring]. }
  rewrite Ediv, Emod.
  rewrite Z.quot_div_nonneg, Z.rem_mod_nonneg by lia.
  repeat split.
  - symmetry. apply (Z.div_unique _ _ b c); [lia | ring].
  - symmetry. apply (Z.mod_unique _ _ b c); [lia | ring].
Qed.

End Decode.

Arguments int_at : simpl never.

Section DenseChunk.

Variable c : t8_latlon_data_chunk_t.
Hypothesis Hdense : dense_chunk c = true.

Lemma dense_chunk_facts :
  exists s0 s1 s2,
    shape c = [s0; s1; s2] /\ 0 < s0 /\ 0 < s1 /\ 0 < s2
    /\ ((x_axis c = 0 /\ y_axis c = 1 /\ z_axis c = 2)
        \/ (x_axis c = 0 /\ y_axis c = 2 /\ z_axis c = 1)
        \/ (x_axis c = 1 /\ y_axis c = 0 /\ z_axis c = 2)
        \/ (x_axis c = 1 /\ y_axis c = 2 /\ z_axis c = 0)
        \/ (x_axis c = 2 /\ y_axis c = 0 /\ z_axis c = 1)
        \/ (x_axis c = 2 /\ y_axis c = 1 /\ z_axis c = 0))
    /\ x_length c = int_at (shape c) (x_axis c)
    /\ y_length c = int_at (shape c) (y_axis c)
    /\ z_length c = int_at (shape c) (z_axis c)
    /\ 1 <= num_tracers c
    /\ tracer_names_size c <= num_tracers c
    /\ buf_len (data c)
       = x_length c * y_length c * z_length c * num_tracers c.
Proof.
  unfold dense_chunk in Hdense.
  repeat (apply andb_prop in Hdense;
          let H := fresh "H" in destruct Hdense as [Hdense H]).
  apply Nat.eqb_eq in Hdense.
  destruct (shape c) as [|s0 [|s1 [|s2 [|? ?]]]] eqn:Hs;
    try discriminate Hdense.
  exists s0, s1, s2.
  change (int_at [s0; s1; s2] 0) with s0 in *.
  change (int_at [s0; s1; s2] 1) with s1 in *.
  change (int_at [s0; s1; s2] 2) with s2 in *.
  repeat match goal with
         | H : (_ <? _) = true |- _ => apply Z.ltb_lt in H
         | H : (_ <=? _) = true |- _ => apply Z.leb_le in H
         | H : (_ =? _) = true |- _ => apply Z.eqb_eq in H
         end.
  repeat split; try assumption.
  unfold axes_permutation in *. simpl existsb in *.
  repeat match goal with
         | H : (_ || _) = true |- _ => apply orb_prop in H; destruct H as [H|H]
         | H : (_ && _) = true |- _ => apply andb_prop in H; destruct H as [? ?]
         | H : (_ =? _) = true |- _ => apply Z.eqb_eq in H
         | H : false = true |- _ => discriminate H
         end; tauto.
Qed.

End DenseChunk.

Section WrittenOffsets.

Variables (c : t8_latlon_data_chunk_t) (k : Z).
Hypothesis Hdense : dense_chunk c = true.
Hypothesis Hk : 0 <= k < num_tracers c.

Let size : Z := x_length c * y_length c * z_length c.

(** The facts of the chunk, with the shape and the axes made explicit. *)
Ltac chunk_cases :=
  destruct (dense_chunk_facts c Hdense)
    as (s0 & s1 & s2 & Hs & P0 & P1 & P2 & Hperm & Exl & Eyl & Ezl
        & Hnt & Hnames & Hlen);
  unfold written_offset, input_index, axis_coordinate, dense_offset;
  subst size; rewrite ?Hlen, Exl, Eyl, Ezl, Hs;
  destruct Hperm as [(Ex & Ey & Ez)|[(Ex & Ey & Ez)|[(Ex & Ey & Ez)|
                    [(Ex & Ey & Ez)|[(Ex & Ey & Ez)|(Ex & Ey & Ez)]]]]];
  rewrite Ex, Ey, Ez;
  change (2 - 0) with 2; change (2 - 1) with 1; change (2 - 2) with 0;
  cbn [Z.eqb Pos.eqb];
  repeat match goal with
         | |- context [int_at [?a; ?b; ?d] 0] =>
             change (int_at [a; b; d] 0) with a
         | |- context [int_at [?a; ?b; ?d] 1] =>
             change (int_at [a; b; d] 1) with b
         | |- context [int_at [?a; ?b; ?d] 2] =>
             change (int_at [a; b; d] 2) with d
         end.

Lemma written_offset_range (i : Z) :
  0 <= i < size ->
  0 <= written_offset c k i < buf_len (data c).
Proof.
  chunk_cases; intros Hi;
    (destruct (decode_range s0 s1 s2 P0 P1 i ltac:(nia))
       as (Ha & Hb & Hc & _));
    apply offset_range; lia.
Qed.

Lemma written_offset_inj (i i' : Z) :
  0 <= i < size -> 0 <= i' < size ->
  written_offset c k i = written_offset c k i' -> i = i'.
Proof.
  chunk_cases; intros Hi Hi' E;
    (destruct (decode_range s0 s1 s2 P0 P1 i ltac:(nia))
       as (Ha & Hb & Hc & Ei));
    (destruct (decode_range s0 s1 s2 P0 P1 i' ltac:(nia))
       as (Ha' & Hb' & Hc' & Ei'));
    apply offset_inj in E; try lia;
    destruct E as (E1 & E2 & E3);
    set (a := Z.quot i (s0 * s1)) in *;
    set (b := Z.quot (Z.rem i (s0 * s1)) s0) in *;
    set (d := Z.rem (Z.rem i (s0 * s1)) s0) in *;
    set (a' := Z.quot i' (s0 * s1)) in *;
    set (b' := Z.quot (Z.rem i' (s0 * s1)) s0) in *;
    set (d' := Z.rem (Z.rem i' (s0 * s1)) s0) in *;
    rewrite Ei, Ei';
    replace a' with a by lia; replace b' with b by lia;
    replace d' with d by lia; reflexivity.
Qed.

Lemma written_offset_of_input (x y z : Z) :
  0 <= x < x_length c -> 0 <= y < y_length c -> 0 <= z < z_length c ->
  0 <= input_index c x y z < size
  /\ written_offset c k (input_index c x y z)
     = dense_offset c x (y_length c - 1 - y) z k.
Proof.
  chunk_cases; intros Hx Hy Hz;
    match goal with
    | _ : shape c = [?a0; ?a1; ?a2], Q0 : 0 < ?a0, Q1 : 0 < ?a1
      |- context [?c0 + ?a0 * (?c1 + ?a1 * ?c2)] =>
        destruct (decode_encode a0 a1 a2 Q0 Q1 c2 c1 c0)
          as (Hi & Ea & Eb & Ec); try lia
    end;
    (split; [lia | rewrite Ea, Eb, Ec; reflexivity]).
Qed.

End WrittenOffsets.

(** The loop of [t8_messy_set_tracer_values] writes, in round [i], the
    input scalar [data[i]] at [written_offset]. *)
Lemma set_tracer_loop_writes (c : t8_latlon_data_chunk_t) (k : Z)
    (input : list double) :
  set_tracer_loop c k input
  = for_loop 0 (x_length c * y_length c * z_length c)
      (fun i buf => wr buf (written_offset c k i) (at_ input i)) (data c).
Proof. reflexivity. Qed.

Lemma set_tracer_loop_len (c : t8_latlon_data_chunk_t) (k : Z)
    (input : list double) :
  buf_len (set_tracer_loop c k input) = buf_len (data c).
Proof.
  rewrite set_tracer_loop_writes. unfold for_loop.
  generalize (Z.to_nat (x_length c * y_length c * z_length c - 0)).
  generalize 0. generalize (data c) as buf.
  intros buf i n. revert i buf.
  induction n as [|n IH]; intros i buf; [reflexivity|].
  simpl. rewrite IH. apply buf_len_wr.
Qed.

(** Offsets that are not congruent to the tracer index modulo
    [num_tracers] are left alone. *)
Lemma set_tracer_loop_frame (c : t8_latlon_data_chunk_t) (k : Z)
    (input : list double) (j : Z) :
  0 < num_tracers c ->
  j mod num_tracers c <> k mod num_tracers c ->
  rd (set_tracer_loop c k input) j = rd (data c) j.
Proof.
  intros Hnt Hj. rewrite set_tracer_loop_writes.
  destruct (Z.le_gt_cases 0 (x_length c * y_length c * z_length c))
    as [Hsize|Hsize]; [|now rewrite for_loop_empty by lia].
  apply (for_loop_inv (fun _ buf => rd buf j = rd (data c) j));
    [exact Hsize | reflexivity |].
  intros i buf _ IH. rewrite rd_wr_other; [exact IH|].
  intros E. apply Hj. rewrite <- E.
  unfold written_offset, dense_offset. cbv zeta.
  rewrite Z.add_comm. apply Z_mod_plus_full.
Qed.

(** In a dense chunk every input scalar ends at its offset. *)
Lemma set_tracer_loop_written (c : t8_latlon_data_chunk_t) (k : Z)
    (input : list double) (i : Z) :
  dense_chunk c = true -> 0 <= k < num_tracers c ->
  0 <= i < x_length c * y_length c * z_length c ->
  rd (set_tracer_loop c k input) (written_offset c k i) = at_ input i.
Proof.
  intros Hdense Hk Hi. rewrite set_tracer_loop_writes.
  set (size := x_length c * y_length c * z_length c) in *.
  assert (HP : (fun n buf =>
                  buf_len buf = buf_len (data c)
                  /\ forall i', 0 <= i' < n ->
                       rd buf (written_offset c k i') = at_ input i')
               size
               (for_loop 0 size
                  (fun i buf => wr buf (written_offset c k i) (at_ input i))
                  (data c))).
  { apply for_loop_inv; [lia | split; [reflexivity | intros; lia] |].
    intros n buf Hn [Hlen Hprev]. split; [now rewrite buf_len_wr|].
    intros i' Hi'. destruct (Z.eq_dec i' n) as [->|Hne].
    - apply rd_wr_same. rewrite Hlen.
      apply written_offset_range; assumption.
    - rewrite rd_wr_other; [apply Hprev; lia|].
      intros E. apply written_offset_inj in E; try assumption; lia. }
  destruct HP as [_ HP]. apply HP. exact Hi.
Qed.

(** The index a name resolves to. *)
Lemma find_tracer_range (names : list string) (name : string) :
  forall i, find_tracer names name i = -1
            \/ i <= find_tracer names name i < i + Z.of_nat (length names).
Proof.
  induction names as [|n rest IH]; intros i; [left; reflexivity|].
  simpl find_tracer. destruct (String.eqb n name).
  - right. simpl length. lia.
  - destruct (IH (i + 1)) as [H|H]; [left; exact H|].
    right. simpl length. lia.
Qed.

Lemma get_tracer_idx_cases (c : t8_latlon_data_chunk_t) (name : string)
    (add : bool) :
  let r := t8_latlon_get_tracer_idx c name add in
  (snd r = c \/ snd r = set_tracer_names c (tracer_names c ++ [name]))
  /\ (fst r = -1
      \/ 0 <= fst r < tracer_names_size c
      \/ (add = true /\ fst r = tracer_names_size c)).
Proof.
  unfold t8_latlon_get_tracer_idx, tracer_names_size.
  destruct (find_tracer_range (tracer_names c) name 0) as [H|H].
  - rewrite H. simpl. destruct add; simpl; auto.
  - destruct (0 <=? find_tracer (tracer_names c) name 0) eqn:E;
      [simpl; split; [left; reflexivity | right; left; lia]|].
    apply Z.leb_gt in E. lia.
Qed.

(** [t8_messy_initialize] builds a dense chunk from every axis string that
    holds X, Y and Z and every shape of positive lengths. *)
Lemma initialize_dense (null_diff : Z) (description axis : string)
    (s0 s1 s2 x_start y_start num_tracers : Z) (missing_value : double)
    (coarsen : option t8_messy_coarsen_t)
    (interpolation : option t8_messy_interpolate_t) :
  In axis axis_strings ->
  0 < s0 -> 0 < s1 -> 0 < s2 -> 1 <= num_tracers ->
  dense_chunk
    (chunk (t8_messy_initialize null_diff description axis [s0; s1; s2]
              x_start y_start num_tracers missing_value coarsen
              interpolation))
  = true.
Proof.
  intros Hin P0 P1 P2 Hnt.
  assert (Hb : forall n, 0 <= n ->
            (buf_len (T8_ALLOC_ZERO 0%float n) =? n) = true)
    by (intros n Hn; rewrite buf_len_alloc by lia; apply Z.eqb_refl).
  simpl in Hin.
  destruct Hin as [<-|[<-|[<-|[<-|[<-|[<-|[]]]]]]];
    unfold dense_chunk, t8_messy_initialize, t8_latlon_new_chunk,
      axes_permutation, tracer_names_size; simpl;
    repeat match goal with
           | |- context [int_at [s0; s1; s2] ?n] =>
               let v := eval cbv in (int_at [s0; s1; s2] n) in
               change (int_at [s0; s1; s2] n) with v
           end;
    rewrite Hb by (repeat apply Z.mul_nonneg_nonneg; lia);
    repeat (apply andb_true_intro; split);
    first [reflexivity | apply Z.ltb_lt; lia | apply Z.leb_le; lia
          | apply Z.eqb_refl].
Qed.

(** C9.  In a dense chunk (as [t8_messy_initialize] builds it for any of
    the six axis permutations), [t8_messy_set_tracer_values] stores the
    input scalar with the logical coordinates [(x, y, z)] for the tracer
    the name resolves to at the dense offset
    [((y' * z_length * x_length + x * z_length + z) * num_tracers) + t] of
    the chunk's data, where [y' = y_length - 1 - y]: the input row 0 goes
    to the internal row [y_length - 1]. *)
Theorem set_tracer_values_layout (md md' : t8_messy_data_t) (name : string)
    (input : list double) (x y z : Z) :
  dense_chunk (chunk md) = true ->
  t8_messy_set_tracer_values md name input = Some md' ->
  0 <= x < x_length (chunk md) ->
  0 <= y < y_length (chunk md) ->
  0 <= z < z_length (chunk md) ->
  0 <= resolved_index (chunk md) name < num_tracers (chunk md)
  /\ rd (data (chunk md'))
        (dense_offset (chunk md) x (y_length (chunk md) - 1 - y) z
           (resolved_index (chunk md) name))
     = at_ input (input_index (chunk md) x y z).
Proof.
  intros Hdense Hset Hx Hy Hz.
  destruct (dense_chunk_facts _ Hdense)
    as (s0 & s1 & s2 & _ & _ & _ & _ & _ & _ & _ & _ & Hnt & Hnames & _).
  unfold t8_messy_set_tracer_values in Hset. unfold resolved_index.
  pose proof (get_tracer_idx_cases (chunk md)
                (trimwhitespace BUFSIZ name)
                (tracer_names_size (chunk md) <? num_tracers (chunk md)))
    as [Hc Ht].
  destruct (t8_latlon_get_tracer_idx (chunk md)
              (trimwhitespace BUFSIZ name)
              (tracer_names_size (chunk md) <? num_tracers (chunk md)))
    as [t c'] eqn:Er.
  cbn [fst snd] in *.
  destruct (t >? -1) eqn:Egt; [|discriminate Hset].
  injection Hset as <-.
  assert (Hk : 0 <= t < num_tracers (chunk md)).
  { assert (-1 < t) by (apply Z.gtb_lt in Egt; lia).
    destruct Ht as [Ht|[Ht|[Hadd Ht]]]; [lia | lia |].
    apply Z.ltb_lt in Hadd. lia. }
  split; [exact Hk|].
  assert (Eloop : data (chunk (set_chunk md
                     (set_data c' (set_tracer_loop c' t input))))
                  = set_tracer_loop (chunk md) t input).
  { destruct Hc as [->| ->]; reflexivity. }
  rewrite Eloop.
  destruct (written_offset_of_input (chunk md) t Hdense x y z Hx Hy Hz)
    as [Hi <-].
  now apply set_tracer_loop_written.
Qed.

(** The ingest of a tracer into the chunk of the axis string "ZYX": the
    scalar at x = 1, input row 2, z = 0. *)
Lemma set_tracer_values_layout_witness :
  0 <= resolved_index (chunk coupler_zyx) "  q  "
    < num_tracers (chunk coupler_zyx)
  /\ rd (data (chunk coupler_zyx_q))
        (dense_offset (chunk coupler_zyx) 1
           (y_length (chunk coupler_zyx) - 1 - 2) 0
           (resolved_index (chunk coupler_zyx) "  q  "))
     = at_ input_zyx (input_index (chunk coupler_zyx) 1 2 0).
Proof.
  apply (set_tracer_values_layout coupler_zyx coupler_zyx_q "  q  "
           input_zyx 1 2 0);
    vm_compute; repeat split; solve [reflexivity | intro; discriminate].
Defined.

(** C10.  A call of [t8_messy_set_tracer_values] whose name resolves to
    the tracer index [k] leaves every offset of the data that is not
    congruent to [k] modulo [num_tracers] as it was, so the values of every
    other tracer [k'] are unchanged; the length of the data, the lengths,
    shape and axes of the chunk, its numbering and its other arrays, and
    the rest of the coupler are unchanged as well. *)
Theorem set_tracer_values_frame (md md' : t8_messy_data_t) (name : string)
    (input : list double) :
  0 < num_tracers (chunk md) ->
  t8_messy_set_tracer_values md name input = Some md' ->
  let c := chunk md in
  let c' := chunk md' in
  let k := resolved_index c name in
  (forall j, j mod num_tracers c <> k mod num_tracers c ->
     rd (data c') j = rd (data c) j)
  /\ (forall cell k', k < num_tracers c -> 0 <= k' < num_tracers c ->
        k' <> k ->
        rd (data c') (cell * num_tracers c + k')
        = rd (data c) (cell * num_tracers c + k'))
  /\ buf_len (data c') = buf_len (data c)
  /\ (x_length c', y_length c', z_length c', shape c')
     = (x_length c, y_length c, z_length c, shape c)
  /\ (x_axis c', y_axis c', z_axis c', num_tracers c')
     = (x_axis c, y_axis c, z_axis c, num_tracers c)
  /\ (x_start c', y_start c', description c', missing_value c',
      max_level c', numbering c')
     = (x_start c, y_start c, description c, missing_value c, max_level c,
        numbering c)
  /\ (data_ids c', data_adapt c', data_ids_adapt c')
     = (data_ids c, data_adapt c, data_ids_adapt c)
  /\ (forest md', coarsen md', interpolation md', counter md',
      num_elements md')
     = (forest md, coarsen md, interpolation md, counter md, num_elements md)
  /\ (errors md', errors_adapt md', errors_global md', errors_adapt_global md')
     = (errors md, errors_adapt md, errors_global md, errors_adapt_global md).
Proof.
  intros Hnt Hset c c' k. subst c c' k.
  unfold t8_messy_set_tracer_values in Hset. unfold resolved_index.
  pose proof (get_tracer_idx_cases (chunk md)
                (trimwhitespace BUFSIZ name)
                (tracer_names_size (chunk md) <? num_tracers (chunk md)))
    as [Hc _].
  destruct (t8_latlon_get_tracer_idx (chunk md)
              (trimwhitespace BUFSIZ name)
              (tracer_names_size (chunk md) <? num_tracers (chunk md)))
    as [t c'] eqn:Er.
  cbn [fst snd] in *.
  destruct (t >? -1) eqn:Egt; [|discriminate Hset].
  injection Hset as <-.
  assert (Ht : 0 <= t) by (apply Z.gtb_lt in Egt; lia).
  assert (Eloop : data (chunk (set_chunk md
                     (set_data c' (set_tracer_loop c' t input))))
                  = set_tracer_loop (chunk md) t input)
    by (destruct Hc as [->| ->]; reflexivity).
  rewrite Eloop.
  split; [intros j Hj; now apply set_tracer_loop_frame|].
  split.
  { intros cell k' Hk Hk' Hne. apply set_tracer_loop_frame; [exact Hnt|].
    rewrite Z.add_comm, Z_mod_plus_full.
    rewrite !Z.mod_small by lia. exact Hne. }
  split; [apply set_tracer_loop_len|].
  destruct Hc as [->| ->]; repeat split.
Qed.

(** The same ingest leaves the second tracer and the chunk alone. *)
Lemma set_tracer_values_frame_witness :
  let c := chunk coupler_zyx in
  let c' := chunk coupler_zyx_q in
  let k := resolved_index c "  q  " in
  (forall j, j mod num_tracers c <> k mod num_tracers c ->
     rd (data c') j = rd (data c) j)
  /\ (forall cell k', k < num_tracers c -> 0 <= k' < num_tracers c ->
        k' <> k ->
        rd (data c') (cell * num_tracers c + k')
        = rd (data c) (cell * num_tracers c + k'))
  /\ buf_len (data c') = buf_len (data c)
  /\ (x_length c', y_length c', z_length c', shape c')
     = (x_length c, y_length c, z_length c, shape c)
  /\ (x_axis c', y_axis c', z_axis c', num_tracers c')
     = (x_axis c, y_axis c, z_axis c, num_tracers c)
  /\ (x_start c', y_start c', description c', missing_value c',
      max_level c', numbering c')
     = (x_start c, y_start c, description c, missing_value c, max_level c,
        numbering c)
  /\ (data_ids c', data_adapt c', data_ids_adapt c')
     = (data_ids c, data_adapt c, data_ids_adapt c)
  /\ (forest coupler_zyx_q, coarsen coupler_zyx_q,
      interpolation coupler_zyx_q, counter coupler_zyx_q,
      num_elements coupler_zyx_q)
     = (forest coupler_zyx, coarsen coupler_zyx, interpolation coupler_zyx,
        counter coupler_zyx, num_elements coupler_zyx)
  /\ (errors coupler_zyx_q, errors_adapt coupler_zyx_q,
      errors_global coupler_zyx_q, errors_adapt_global coupler_zyx_q)
     = (errors coupler_zyx, errors_adapt coupler_zyx,
        errors_global coupler_zyx, errors_adapt_global coupler_zyx).
Proof.
  apply (set_tracer_values_frame coupler_zyx coupler_zyx_q "  q  " input_zyx);
    vm_compute; reflexivity.
Defined.

(** * The rounds of the coarsening loop *)

Lemma for_up_prop {St : Type} (P : St -> Prop) (body : Z -> St -> St) :
  (forall j t, P t -> P (body j t)) ->
  forall (n : nat) (i : Z) (s : St), P s -> P (for_up n i body s).
Proof.
  intros Hstep. induction n as [|n IH]; intros i s Hs; [exact Hs|].
  simpl. apply IH, Hstep, Hs.
Qed.

Lemma allocated_wr (p : buffer double) (i : Z) (v : double) :
  allocated (wr p i v) = allocated p.
Proof. unfold wr. destruct p; [destruct (i <? 0)|]; reflexivity. Qed.

Lemma allocated_memcpy (dst src : buffer double) (doff soff n : Z) :
  allocated (memcpy dst doff src soff n) = allocated dst.
Proof.
  unfold memcpy, for_loop.
  apply (for_up_prop (fun d => allocated d = allocated dst));
    [|reflexivity].
  intros j t Ht. now rewrite allocated_wr.
Qed.

Lemma kept_refl (m : t8_messy_data_t) : kept m m.
Proof. unfold kept. repeat split; auto. Qed.

Lemma kept_trans (m0 m1 m2 : t8_messy_data_t) :
  kept m0 m1 -> kept m1 m2 -> kept m0 m2.
Proof.
  unfold kept.
  intros (A1 & A2 & A3 & A4 & A5 & A6 & A7 & A8)
         (B1 & B2 & B3 & B4 & B5 & B6 & B7 & B8).
  repeat split; try congruence; auto.
Qed.

(** The interpolation callback writes the three adapt buffers and
    nothing else. *)
Lemma callback2_kept (m : t8_messy_data_t) (no fo ni fi : Z) :
  kept m (t8_messy_interpolate_callback2 m no fo ni fi).
Proof.
  unfold t8_messy_interpolate_callback2.
  destruct (no >? ni).
  - unfold for_loop. apply (for_up_prop (kept m)); [|apply kept_refl].
    intros z t Ht. apply (for_up_prop (kept m)).
    + intros d t' Ht'. apply (kept_trans _ _ _ Ht').
      unfold kept, upd_data_adapt; simpl.
      repeat split; try reflexivity; intros H;
        rewrite allocated_wr; exact H.
    + apply (kept_trans _ _ _ Ht).
      unfold kept, upd_data_adapt; simpl.
      repeat split; try reflexivity; intros H;
        rewrite ?allocated_wr; exact H.
  - unfold kept; simpl.
    repeat split; try reflexivity; intros H;
      rewrite allocated_memcpy; exact H.
Qed.

Lemma replace_kept (elements_new : list t8_element_t) :
  forall (elements_old : list t8_element_t) (fi fo : Z) (m : t8_messy_data_t),
    kept m
      (replace_elements t8_messy_interpolate_callback2 elements_new
         elements_old fi fo m).
Proof.
  induction elements_new as [|e rest IH]; intros old fi fo m;
    [apply kept_refl|].
  simpl. destruct old as [|e_old old']; [apply kept_refl|].
  destruct (level e <? level e_old);
    (eapply kept_trans; [apply callback2_kept | apply IH]).
Qed.

Lemma round_filled_kept (st : coarsen_loop_t) :
  kept (round_allocated st) (round_filled st).
Proof. apply replace_kept. Qed.

(** A round either leaves the loop, when the adapted forest has as many
    leaves as recorded, or swaps. *)
Lemma coarsen_round_cases (r : Z) (st : coarsen_loop_t) :
  buffers_live (lp_data st) = true ->
  (t8_forest_get_num_element (round_adapt st) = lp_last_num_elements st
   /\ exists st', coarsen_round r st = inl st'
        /\ lp_data st' = lp_data st /\ lp_forest st' = lp_forest st
        /\ lp_live st' = lp_live st /\ lp_r st' = r)
  \/ (t8_forest_get_num_element (round_adapt st) <> lp_last_num_elements st
      /\ exists st', coarsen_round r st = inr st'
           /\ swapped st st' /\ lp_r st' = r + 1).
Proof.
  intros Hlive. unfold coarsen_round. fold (round_adapt st).
  destruct (t8_forest_get_num_element (round_adapt st)
            =? lp_last_num_elements st) eqn:E.
  - left. apply Z.eqb_eq in E. split; [exact E|].
    eexists. split; [reflexivity|]. repeat split.
  - right. apply Z.eqb_neq in E. split; [exact E|].
    eexists. split; [reflexivity|].
    cbv zeta. fold (round_allocated st). fold (round_filled st).
    destruct (round_filled_kept st) as (K1 & K2 & K3 & K4 & K5 & K6 & K7 & K8).
    unfold buffers_live in Hlive.
    apply andb_prop in Hlive. destruct Hlive as [Hlive L4].
    apply andb_prop in Hlive. destruct Hlive as [Hlive L3].
    apply andb_prop in Hlive. destruct Hlive as [L1 L2].
    change (data (chunk (round_allocated st))) with (data (chunk (lp_data st)))
      in K1.
    change (data_ids (chunk (round_allocated st)))
      with (data_ids (chunk (lp_data st))) in K2.
    change (errors (round_allocated st)) with (errors (lp_data st)) in K4.
    change (errors_global (round_allocated st))
      with (errors_global (lp_data st)) in K5.
    split; [|reflexivity].
    unfold swapped; simpl.
    repeat split.
    + rewrite K1, K2, K4, K5.
      destruct (data_ids (chunk (lp_data st))); [|discriminate L1].
      destruct (data (chunk (lp_data st))); [|discriminate L2].
      destruct (errors (lp_data st)); [|discriminate L3].
      destruct (errors_global (lp_data st)); [|discriminate L4].
      simpl. lia.
    + unfold buffers_live; simpl.
      rewrite K3, (K6 eq_refl), (K7 eq_refl), (K8 eq_refl). reflexivity.
Qed.

Lemma for_up_ret_snoc {St R : Type} (body : Z -> St -> R + St) :
  forall (n : nat) (i : Z) (s : St),
    for_up_ret (S n) i body s
    = match for_up_ret n i body s with
      | inl r => inl r
      | inr s' => body (i + Z.of_nat n) s'
      end.
Proof.
  induction n as [|n IH]; intros i s.
  - simpl for_up_ret. replace (i + Z.of_nat 0) with i by lia.
    destruct (body i s); reflexivity.
  - change (for_up_ret (S (S n)) i body s)
      with (match body i s with
            | inl r => inl r
            | inr s' => for_up_ret (S n) (i + 1) body s'
            end).
    simpl for_up_ret at 2.
    destruct (body i s) as [r|s']; [reflexivity|].
    rewrite IH.
    replace (i + 1 + Z.of_nat n) with (i + Z.of_nat (S n)) by lia.
    reflexivity.
Qed.

Lemma coarsen_rounds_succ (j : Z) (st : coarsen_loop_t) :
  0 <= j ->
  coarsen_rounds (j + 1) st
  = match coarsen_rounds j st with
    | inl s => inl s
    | inr s => coarsen_round j s
    end.
Proof.
  intros Hj. unfold coarsen_rounds, for_loop_ret.
  replace (Z.to_nat (j + 1 - 0)) with (S (Z.to_nat (j - 0))) by lia.
  rewrite for_up_ret_snoc.
  replace (0 + Z.of_nat (Z.to_nat (j - 0))) with j by lia.
  reflexivity.
Qed.

(** The adapted forest of a forest with a leaf has a leaf. *)
Lemma adapt_not_empty (st : coarsen_loop_t) :
  lp_forest st <> [] -> 0 < t8_forest_get_num_element (round_adapt st).
Proof.
  unfold round_adapt, t8_forest_new_adapt, t8_forest_get_num_element.
  destruct (lp_forest st) as [|e rest]; [congruence|]. intros _.
  simpl adapt_elements.
  match goal with |- context [if ?b then _ else _] => destruct b end;
    simpl length; lia.
Qed.

Section Rounds.

Variables (m : t8_messy_data_t) (live : Z).
Hypothesis Hids : allocated (data_ids (chunk m)) = true.
Hypothesis Hdata : allocated (data (chunk m)) = true.

Let st0 : coarsen_loop_t := coarsen_enter m live.

(** The course of the loop up to [n] rounds: [K] rounds are completed;
    either [K = n], or round [K] has left the loop. *)
Lemma rounds_course (n : nat) :
  exists K : Z,
    0 <= K <= Z.of_nat n
    /\ (forall j, 0 <= j <= K ->
          exists s, coarsen_rounds j st0 = inr s /\ lp_r s = j
                    /\ buffers_live (lp_data s) = true)
    /\ (forall j, 0 <= j < K ->
          exists s s', coarsen_rounds j st0 = inr s
                       /\ coarsen_rounds (j + 1) st0 = inr s'
                       /\ coarsen_round j s = inr s'
                       /\ t8_forest_get_num_element (round_adapt s)
                          <> lp_last_num_elements s
                       /\ swapped s s')
    /\ ((K = Z.of_nat n /\ exists s, coarsen_rounds (Z.of_nat n) st0 = inr s)
        \/ (K < Z.of_nat n
            /\ exists s sb, coarsen_rounds K st0 = inr s
                 /\ coarsen_round K s = inl sb
                 /\ coarsen_rounds (Z.of_nat n) st0 = inl sb
                 /\ lp_r sb = K
                 /\ t8_forest_get_num_element (round_adapt s)
                    = lp_last_num_elements s
                 /\ lp_data sb = lp_data s)).
Proof.
  induction n as [|n IH].
  - exists 0. split; [lia|]. split; [|split].
    + intros j Hj. assert (j = 0) as -> by lia.
      exists st0. repeat split.
      subst st0. unfold buffers_live, coarsen_enter; simpl.
      now rewrite Hids, Hdata.
    + intros; lia.
    + left. split; [reflexivity|]. now exists st0.
  - destruct IH as (K & HK & Hdone & Hswaps & [[-> (s & Hs)]|(Hlt & Hbreak)]).
    + destruct (Hdone (Z.of_nat n) ltac:(lia)) as (s' & Hs' & Hr & Hlive).
      rewrite Hs in Hs'. injection Hs' as <-.
      destruct (coarsen_round_cases (Z.of_nat n) s Hlive)
        as [(Hsame & sb & Hb & Hd & _ & _ & Hrb)
           |(Hdiff & s' & Hc & Hsw & Hr')].
      * exists (Z.of_nat n). split; [lia|].
        split; [exact Hdone|]. split; [exact Hswaps|].
        right. split; [lia|]. exists s, sb.
        replace (Z.of_nat (S n)) with (Z.of_nat n + 1) by lia.
        rewrite coarsen_rounds_succ, Hs by lia.
        repeat split; assumption.
      * assert (Hnext : coarsen_rounds (Z.of_nat n + 1) st0 = inr s')
          by (rewrite coarsen_rounds_succ, Hs by lia; exact Hc).
        exists (Z.of_nat n + 1). split; [lia|]. split; [|split].
        -- intros j Hj. destruct (Z.eq_dec j (Z.of_nat n + 1)) as [->|Hne].
           ++ exists s'. repeat split; try assumption.
              now destruct Hsw as (_ & _ & _ & _ & _ & _ & _ & _ & _ & _ & _ & H).
           ++ apply Hdone. lia.
        -- intros j Hj. destruct (Z.eq_dec j (Z.of_nat n)) as [->|Hne].
           ++ exists s, s'.
              split; [exact Hs|]. split; [exact Hnext|].
              split; [exact Hc|]. split; [exact Hdiff | exact Hsw].
           ++ apply Hswaps. lia.
        -- left. split; [lia|]. exists s'.
           now replace (Z.of_nat (S n)) with (Z.of_nat n + 1) by lia.
    + exists K. split; [lia|]. split; [exact Hdone|]. split; [exact Hswaps|].
      right. split; [lia|].
      destruct Hbreak as (s & sb & H1 & H2 & H3 & H4 & H5 & H6).
      exists s, sb.
      replace (Z.of_nat (S n)) with (Z.of_nat n + 1) by lia.
      rewrite coarsen_rounds_succ, H3 by lia.
      repeat split; assumption.
Qed.

End Rounds.

(** [t8_messy_coarsen] returns whenever its assertions hold. *)
Lemma t8_messy_coarsen_returns (m : t8_messy_data_t) (live : Z)
    (c : t8_messy_coarsen_t) (i : t8_messy_interpolate_t) :
  coarsen m = Some c -> interpolation m = Some i ->
  (co_method c = T8_MESSY_COARSEN_FUNCTION -> co_func c <> None) ->
  (ip_method i = T8_MESSY_INTERPOLATE_FUNCTION -> ip_func i <> None) ->
  t8_messy_coarsen m live
  = Some (coarsen_leave (coarsen_loop (coarsen_enter m live))).
Proof.
  intros Hc Hi Hcf Hif. unfold t8_messy_coarsen. rewrite Hc, Hi. simpl.
  destruct (co_method c) eqn:Ec; destruct (co_func c) eqn:Ef;
    try (exfalso; apply Hcf; reflexivity);
    destruct (ip_method i) eqn:Ei; destruct (ip_func i) eqn:Eg;
    try (exfalso; apply Hif; reflexivity); reflexivity.
Qed.

Lemma t8_messy_coarsen_result (m : t8_messy_data_t) (live : Z)
    (res : coarsen_loop_t) :
  t8_messy_coarsen m live = Some res ->
  res = coarsen_leave (coarsen_loop (coarsen_enter m live)).
Proof.
  unfold t8_messy_coarsen.
  destruct (coarsen m) as [c|]; [|discriminate].
  destruct (interpolation m) as [i|]; [|discriminate]. simpl.
  repeat match goal with
         | |- context [if ?b then _ else _] => destruct b
         end; congruence.
Qed.



(** * Trimmed names *)

Section Trim.

Lemma trim_leading_first (str : string) (c : Ascii.ascii) (rest : string) :
  trim_leading str = String c rest -> isspace c = false.
Proof.
  induction str as [|a str IH]; simpl; [discriminate|].
  destruct (isspace a) eqn:E; [exact IH|].
  intros H. injection H as <- _. exact E.
Qed.

Lemma trim_leading_all_space (str : string) :
  all_space str = true -> trim_leading str = EmptyString.
Proof.
  induction str as [|a str IH]; simpl; [reflexivity|].
  destruct (isspace a); simpl; [exact IH | discriminate].
Qed.

Lemma trim_leading_length (str : string) :
  (String.length (trim_leading str) <= String.length str)%nat.
Proof.
  induction str as [|a str IH]; simpl; [lia|].
  destruct (isspace a); simpl; lia.
Qed.

Lemma trim_trailing_length (str : string) :
  (String.length (trim_trailing str) <= String.length str)%nat.
Proof.
  induction str as [|a str IH]; simpl; [lia|].
  destruct (trim_trailing str); [destruct (isspace a)|]; simpl in *; lia.
Qed.

Lemma trim_trailing_last (str : string) (c : Ascii.ascii) :
  last_char (trim_trailing str) = Some c -> isspace c = false.
Proof.
  induction str as [|a str IH]; simpl; [discriminate|].
  destruct (trim_trailing str) as [|b r] eqn:E.
  - destruct (isspace a) eqn:Ea; simpl; [discriminate|].
    intros H. injection H as <-. exact Ea.
  - exact IH.
Qed.

Lemma trim_trailing_idem (str : string) :
  trim_trailing (trim_trailing str) = trim_trailing str.
Proof.
  induction str as [|a str IH]; simpl; [reflexivity|].
  destruct (trim_trailing str) as [|b r] eqn:E.
  - destruct (isspace a) eqn:Ea; simpl; [reflexivity|]. now rewrite Ea.
  - change (trim_trailing (String a (String b r)))
      with (match trim_trailing (String b r) with
            | EmptyString =>
                if isspace a then EmptyString else String a EmptyString
            | r' => String a r'
            end).
    now rewrite IH.
Qed.

Lemma trim_trailing_all_space (str : string) :
  all_space str = true -> trim_trailing str = EmptyString.
Proof.
  induction str as [|a str IH]; simpl; [reflexivity|].
  intros H. apply andb_prop in H. destruct H as [Ha Hs].
  now rewrite (IH Hs), Ha.
Qed.

Lemma trim_trailing_app (str post : string) :
  all_space post = true ->
  trim_trailing (String.append str post) = trim_trailing str.
Proof.
  intros Hp. induction str as [|a str IH]; simpl.
  - now apply trim_trailing_all_space.
  - now rewrite IH.
Qed.

Lemma trim_leading_app (str post : string) :
  all_space post = true ->
  trim_leading (String.append str post)
  = match trim_leading str with
    | EmptyString => EmptyString
    | String c rest => String c (String.append rest post)
    end.
Proof.
  intros Hp. induction str as [|a str IH]; simpl.
  - now apply trim_leading_all_space.
  - destruct (isspace a); [exact IH | reflexivity].
Qed.

Lemma trim_leading_pre (pre str : string) :
  all_space pre = true ->
  trim_leading (String.append pre str) = trim_leading str.
Proof.
  induction pre as [|a pre IH]; simpl; [reflexivity|].
  intros H. apply andb_prop in H. destruct H as [-> Hs]. now apply IH.
Qed.

Lemma truncate_length (n : nat) (str : string) :
  (String.length (truncate n str) <= n)%nat
  /\ (String.length (truncate n str) <= String.length str)%nat.
Proof.
  revert str. induction n as [|n IH]; intros [|a str]; simpl; try lia.
  specialize (IH str). lia.
Qed.

Lemma truncate_fits (n : nat) (str : string) :
  (String.length str <= n)%nat -> truncate n str = str.
Proof.
  revert str. induction n as [|n IH]; intros [|a str]; simpl; try reflexivity;
    try lia.
  intros H. rewrite IH by lia. reflexivity.
Qed.

Lemma truncate_first (n : nat) (str : string) (c : Ascii.ascii) :
  first_char (truncate n str) = Some c -> first_char str = Some c.
Proof. destruct n, str; simpl; try discriminate. auto. Qed.

Lemma last_char_cons (a c : Ascii.ascii) (str : string) :
  isspace a = false ->
  (forall b, last_char str = Some b -> isspace b = false) ->
  last_char (String a str) = Some c -> isspace c = false.
Proof.
  intros Ha Hs. simpl. destruct str as [|b r].
  - intros H. injection H as <-. exact Ha.
  - apply Hs.
Qed.

(** What [trimwhitespace] leaves, when the string is not all spaces and
    fits the buffer. *)
Lemma trimwhitespace_fitting (len : Z) (str : string) (c : Ascii.ascii)
    (rest : string) :
  Z.of_nat (String.length str) < len ->
  trim_leading str = String c rest ->
  trimwhitespace len str = String c (trim_trailing rest).
Proof.
  intros Hlen E. unfold trimwhitespace. rewrite E.
  apply truncate_fits.
  pose proof (trim_leading_length str) as H1. rewrite E in H1.
  pose proof (trim_trailing_length rest) as H2. simpl in *. lia.
Qed.

End Trim.

(** X1.  [trimwhitespace] stores at most [len - 1] characters and never
    more than the input has; what it stores does not start with a
    whitespace character; and a string of nothing but whitespace (the empty
    string included) yields the empty string. *)
Theorem trimwhitespace_bounds (len : Z) (str : string) :
  Z.of_nat (String.length (trimwhitespace len str)) <= Z.max 0 (len - 1)
  /\ (String.length (trimwhitespace len str) <= String.length str)%nat
  /\ (forall c, first_char (trimwhitespace len str) = Some c ->
        isspace c = false)
  /\ (all_space str = true -> trimwhitespace len str = EmptyString).
Proof.
  unfold trimwhitespace.
  destruct (trim_leading str) as [|c rest] eqn:E.
  - simpl. repeat split; try lia. discriminate.
  - pose proof (truncate_length (Z.to_nat (len - 1))
                  (String c (trim_trailing rest))) as [H1 H2].
    pose proof (trim_leading_length str) as H3. rewrite E in H3.
    pose proof (trim_trailing_length rest) as H4.
    split; [lia|]. split; [simpl in *; lia|]. split.
    + intros a Ha. apply truncate_first in Ha. simpl in Ha.
      injection Ha as <-. exact (trim_leading_first _ _ _ E).
    + intros Hall. rewrite (trim_leading_all_space _ Hall) in E.
      discriminate.
Qed.

(** X2.  A name shorter than the buffer is stored without whitespace at
    either end, and trimming it again changes nothing. *)
Theorem trimwhitespace_idempotent (len : Z) (str : string) :
  Z.of_nat (String.length str) < len ->
  (forall c, first_char (trimwhitespace len str) = Some c ->
     isspace c = false)
  /\ (forall c, last_char (trimwhitespace len str) = Some c ->
        isspace c = false)
  /\ trimwhitespace len (trimwhitespace len str) = trimwhitespace len str.
Proof.
  intros Hlen.
  destruct (trim_leading str) as [|c rest] eqn:E.
  - unfold trimwhitespace. rewrite E. simpl.
    repeat split; discriminate.
  - rewrite (trimwhitespace_fitting len str c rest Hlen E).
    pose proof (trim_leading_first _ _ _ E) as Hc.
    split; [|split].
    + simpl. intros a Ha. injection Ha as <-. exact Hc.
    + intros a. apply last_char_cons; [exact Hc|].
      intros b. apply trim_trailing_last.
    + pose proof (trim_leading_length str) as H1. rewrite E in H1.
      pose proof (trim_trailing_length rest) as H2.
      rewrite (trimwhitespace_fitting len _ c (trim_trailing rest)).
      * now rewrite trim_trailing_idem.
      * simpl in *. lia.
      * simpl. now rewrite Hc.
Qed.

Lemma trimwhitespace_idempotent_witness :
  (forall c, first_char (trimwhitespace BUFSIZ "  ab cd  ") = Some c ->
     isspace c = false)
  /\ (forall c, last_char (trimwhitespace BUFSIZ "  ab cd  ") = Some c ->
        isspace c = false)
  /\ trimwhitespace BUFSIZ (trimwhitespace BUFSIZ "  ab cd  ")
     = trimwhitespace BUFSIZ "  ab cd  ".
Proof.
  apply (trimwhitespace_idempotent BUFSIZ "  ab cd  "). reflexivity.
Defined.

(** Whitespace around a string does not change what is stored. *)
Lemma trimwhitespace_padding (len : Z) (pre str post : string) :
  all_space pre = true -> all_space post = true ->
  trimwhitespace len (String.append pre (String.append str post))
  = trimwhitespace len str.
Proof.
  intros Hpre Hpost. unfold trimwhitespace.
  rewrite (trim_leading_pre _ _ Hpre), (trim_leading_app _ _ Hpost).
  destruct (trim_leading str) as [|c rest]; [reflexivity|].
  now rewrite (trim_trailing_app _ _ Hpost).
Qed.

(** X3.  The value returned by [trimwhitespace], for [len > 0], is the
    number of characters it has stored, except for a string of nothing
    but whitespace: then it returns 1 and stores the empty string. *)
Theorem trimwhitespace_returns (len : Z) (str : string) :
  0 < len ->
  (all_space str = true ->
     trimwhitespace_size len str = 1
     /\ trimwhitespace len str = EmptyString)
  /\ (all_space str = false ->
        trimwhitespace_size len str
        = Z.of_nat (String.length (trimwhitespace len str))).
Proof.
  intros Hlen. unfold trimwhitespace_size, trimwhitespace.
  destruct (len =? 0) eqn:E0; [apply Z.eqb_eq in E0; lia|].
  split.
  - intros Hall. now rewrite (trim_leading_all_space _ Hall).
  - intros Hnot. destruct (trim_leading str) as [|c rest] eqn:E.
    + exfalso. clear - E Hnot. induction str as [|a str IH];
        simpl in *; [discriminate|].
      destruct (isspace a); simpl in *; [auto | discriminate].
    + set (t := String c (trim_trailing rest)).
      destruct (Z.of_nat (String.length t) <? len - 1) eqn:El.
      * apply Z.ltb_lt in El. rewrite truncate_fits by lia. reflexivity.
      * apply Z.ltb_ge in El.
        pose proof (truncate_length (Z.to_nat (len - 1)) t) as [H1 _].
        assert (H2 : forall n s, (n <= String.length s)%nat ->
                       String.length (truncate n s) = n).
        { clear. induction n as [|n IH]; intros [|a s]; simpl; try lia.
          intros H. rewrite IH by lia. reflexivity. }
        rewrite H2 by lia. lia.
Qed.

Lemma trimwhitespace_returns_witness :
  (all_space "   " = true ->
     trimwhitespace_size BUFSIZ "   " = 1
     /\ trimwhitespace BUFSIZ "   " = EmptyString)
  /\ (all_space "   " = false ->
        trimwhitespace_size BUFSIZ "   "
        = Z.of_nat (String.length (trimwhitespace BUFSIZ "   "))).
Proof.
  apply (trimwhitespace_returns BUFSIZ "   "). reflexivity.
Defined.

(** * The registry of tracer names *)

Section Registry.

Lemma find_tracer_absent (names : list string) (name : string) :
  forall i, find_tracer names name i = -1 -> 0 <= i -> ~ In name names.
Proof.
  induction names as [|n rest IH]; intros i H Hi; [intros []|].
  simpl in H. destruct (String.eqb n name) eqn:E; [lia|].
  apply String.eqb_neq in E. intros [Hn|Hin]; [contradiction|].
  exact (IH (i + 1) H ltac:(lia) Hin).
Qed.

Lemma find_tracer_nth (names : list string) (name : string) :
  forall i, 0 <= i -> i <= find_tracer names name i ->
    nth (Z.to_nat (find_tracer names name i - i)) names EmptyString = name.
Proof.
  induction names as [|n rest IH]; intros i Hi H.
  - simpl in H. lia.
  - simpl in *. destruct (String.eqb n name) eqn:E.
    + apply String.eqb_eq in E. now rewrite Z.sub_diag.
    + destruct (find_tracer_range rest name (i + 1)) as [Hr|Hr].
      * rewrite Hr in H. lia.
      * replace (Z.to_nat (find_tracer rest name (i + 1) - i))
          with (S (Z.to_nat (find_tracer rest name (i + 1) - (i + 1))))
          by lia.
        apply IH; lia.
Qed.

Lemma find_tracer_app_found (names more : list string) (name : string) :
  forall i, 0 <= i -> i <= find_tracer names name i ->
    find_tracer (names ++ more) name i = find_tracer names name i.
Proof.
  induction names as [|n rest IH]; intros i Hi H.
  - simpl in H. lia.
  - simpl in *. destruct (String.eqb n name); [reflexivity|].
    destruct (find_tracer_range rest name (i + 1)) as [Hr|Hr];
      [rewrite Hr in H; lia|].
    apply IH; lia.
Qed.

Lemma find_tracer_app_new (names : list string) (name : string) :
  forall i, find_tracer names name i = -1 -> 0 <= i ->
    find_tracer (names ++ [name]) name i = i + Z.of_nat (length names).
Proof.
  induction names as [|n rest IH]; intros i H Hi.
  - simpl. rewrite String.eqb_refl. lia.
  - simpl in *. destruct (String.eqb n name); [lia|].
    rewrite IH by lia. lia.
Qed.

(** Two names found at the same index are the same name. *)
Lemma find_tracer_inj (names : list string) (n1 n2 : string) :
  0 <= find_tracer names n1 0 ->
  find_tracer names n1 0 = find_tracer names n2 0 -> n1 = n2.
Proof.
  intros H1 E.
  pose proof (find_tracer_nth names n1 0 ltac:(lia) H1) as A.
  pose proof (find_tracer_nth names n2 0 ltac:(lia) ltac:(lia)) as B.
  rewrite <- E in B. congruence.
Qed.

End Registry.

(** What a successful call of [t8_messy_set_tracer_values] does: the name
    is found or appended, and the loop runs on the data of the chunk. *)
Lemma set_tracer_values_inv (md md' : t8_messy_data_t) (name : string)
    (input : list double) :
  t8_messy_set_tracer_values md name input = Some md' ->
  let c := chunk md in
  let n := trimwhitespace BUFSIZ name in
  let k := resolved_index c name in
  ((registered c n = true /\ k = find_tracer (tracer_names c) n 0
    /\ tracer_names (chunk md') = tracer_names c)
   \/ (registered c n = false /\ k = tracer_names_size c
       /\ tracer_names_size c < num_tracers c
       /\ tracer_names (chunk md') = tracer_names c ++ [n]))
  /\ 0 <= k
  /\ md' = set_chunk md
             (set_data (set_tracer_names c (tracer_names (chunk md')))
                (set_tracer_loop c k input)).
Proof.
  intros Hset c n k. subst c n k.
  unfold t8_messy_set_tracer_values in Hset.
  unfold resolved_index, registered, t8_latlon_get_tracer_idx in *.
  destruct (0 <=? find_tracer (tracer_names (chunk md))
                    (trimwhitespace BUFSIZ name) 0) eqn:Ef.
  - apply Z.leb_le in Ef. cbn [fst snd] in *.
    destruct (_ >? -1) eqn:Eg in Hset; [|discriminate].
    injection Hset as <-. split; [left; repeat split|]. split; [exact Ef|].
    simpl. destruct md as [[]]; reflexivity.
  - destruct (tracer_names_size (chunk md) <? num_tracers (chunk md)) eqn:Ea;
      cbn [fst snd] in *; [|discriminate].
    apply Z.ltb_lt in Ea.
    destruct (_ >? -1) eqn:Eg in Hset; [|discriminate].
    injection Hset as <-. split; [right; repeat split; exact Ea|].
    split; [unfold tracer_names_size; lia|]. reflexivity.
Qed.

(** X4.  [t8_messy_set_tracer_values] fails its assertion exactly when
    the trimmed name is not registered and every one of the
    [num_tracers] slots has a name. *)
Theorem set_tracer_values_fails (md : t8_messy_data_t) (name : string)
    (input : list double) :
  t8_messy_set_tracer_values md name input = None
  <-> registered (chunk md) (trimwhitespace BUFSIZ name) = false
      /\ num_tracers (chunk md) <= tracer_names_size (chunk md).
Proof.
  unfold t8_messy_set_tracer_values, registered, t8_latlon_get_tracer_idx.
  destruct (find_tracer_range (tracer_names (chunk md))
              (trimwhitespace BUFSIZ name) 0) as [H|H].
  - rewrite H. change (0 <=? -1) with false. cbv iota.
    destruct (tracer_names_size (chunk md) <? num_tracers (chunk md)) eqn:Ea.
    + apply Z.ltb_lt in Ea.
      assert (E : (tracer_names_size (chunk md) >? -1) = true)
        by (apply Z.gtb_lt; unfold tracer_names_size; lia).
      rewrite E. split; [discriminate | lia].
    + apply Z.ltb_ge in Ea. change (-1 >? -1) with false.
      split; [intros _; split; [reflexivity | exact Ea] | reflexivity].
  - assert (E : (0 <=? find_tracer (tracer_names (chunk md))
                         (trimwhitespace BUFSIZ name) 0) = true)
      by (apply Z.leb_le; lia).
    rewrite E.
    assert (E' : (find_tracer (tracer_names (chunk md))
                    (trimwhitespace BUFSIZ name) 0 >? -1) = true)
      by (apply Z.gtb_lt; lia).
    rewrite E'. split; [discriminate | intros [? _]; discriminate].
Qed.

(** A successful ingest keeps the chunk dense. *)
Lemma set_tracer_values_dense (md md' : t8_messy_data_t) (name : string)
    (input : list double) :
  dense_chunk (chunk md) = true ->
  t8_messy_set_tracer_values md name input = Some md' ->
  dense_chunk (chunk md') = true.
Proof.
  intros Hdense Hset.
  destruct (set_tracer_values_inv _ _ _ _ Hset) as (Hcase & Hk & ->).
  cbv zeta in Hcase. simpl tracer_names in *.
  assert (Hn : tracer_names_size
                 (set_tracer_names (chunk md) (tracer_names (chunk md')))
               <= num_tracers (chunk md)).
  { destruct (dense_chunk_facts _ Hdense)
      as (_ & _ & _ & _ & _ & _ & _ & _ & _ & _ & _ & _ & Hn & _).
    unfold tracer_names_size in *. simpl.
    destruct Hcase as [(_ & _ & ->)|(_ & _ & Hroom & ->)]; [exact Hn|].
    rewrite length_app. simpl. lia. }
  unfold dense_chunk in *. simpl.
  rewrite set_tracer_loop_len.
  repeat (apply andb_prop in Hdense; destruct Hdense as [Hdense ?]).
  repeat (apply andb_true_intro; split); try assumption.
  apply Z.leb_le. exact Hn.
Qed.

(** X5.  A successful ingest keeps the chunk dense, registers no name
    twice, and leaves the trimmed name registered: it appends the name
    when it is new and leaves the names as they are otherwise. *)
Theorem set_tracer_values_keeps_dense (md md' : t8_messy_data_t)
    (name : string) (input : list double) :
  dense_chunk (chunk md) = true ->
  NoDup (tracer_names (chunk md)) ->
  t8_messy_set_tracer_values md name input = Some md' ->
  dense_chunk (chunk md') = true
  /\ NoDup (tracer_names (chunk md'))
  /\ registered (chunk md') (trimwhitespace BUFSIZ name) = true
  /\ tracer_names (chunk md')
     = (if registered (chunk md) (trimwhitespace BUFSIZ name)
        then tracer_names (chunk md)
        else tracer_names (chunk md) ++ [trimwhitespace BUFSIZ name]).
Proof.
  intros Hdense Hnd Hset.
  split; [exact (set_tracer_values_dense _ _ _ _ Hdense Hset)|].
  destruct (set_tracer_values_inv _ _ _ _ Hset) as (Hcase & Hk & _).
  cbv zeta in Hcase.
  set (n := trimwhitespace BUFSIZ name) in *.
  destruct Hcase as [(Hreg & Ek & En)|(Hreg & Ek & Hroom & En)];
    rewrite Hreg, En.
  - split; [exact Hnd|].
    split; [unfold registered in *; now rewrite En | reflexivity].
  - unfold registered in *. apply Z.leb_gt in Hreg.
    destruct (find_tracer_range (tracer_names (chunk md)) n 0) as [H|H];
      [|lia].
    split; [|split; [|reflexivity]].
    + apply NoDup_app. split; [exact Hnd|]. split; [|apply NoDup_singleton].
      intros x Hx Hx'. apply list_elem_of_In in Hx.
      apply list_elem_of_singleton in Hx'. subst x.
      exact (find_tracer_absent _ _ 0 H ltac:(lia) Hx).
    + rewrite En. rewrite find_tracer_app_new by (exact H || lia).
      apply Z.leb_le. lia.
Qed.

Lemma set_tracer_values_keeps_dense_witness :
  dense_chunk (chunk coupler_zyx_q) = true
  /\ NoDup (tracer_names (chunk coupler_zyx_q))
  /\ registered (chunk coupler_zyx_q) (trimwhitespace BUFSIZ "  q  ") = true
  /\ tracer_names (chunk coupler_zyx_q)
     = (if registered (chunk coupler_zyx) (trimwhitespace BUFSIZ "  q  ")
        then tracer_names (chunk coupler_zyx)
        else tracer_names (chunk coupler_zyx)
             ++ [trimwhitespace BUFSIZ "  q  "]).
Proof.
  apply (set_tracer_values_keeps_dense coupler_zyx coupler_zyx_q "  q  "
           input_zyx);
    [reflexivity | constructor | reflexivity].
Defined.

(** After a successful ingest the trimmed name is found at the index it
    resolved to. *)
Lemma set_tracer_values_found (md md' : t8_messy_data_t) (name : string)
    (input : list double) :
  t8_messy_set_tracer_values md name input = Some md' ->
  find_tracer (tracer_names (chunk md')) (trimwhitespace BUFSIZ name) 0
  = resolved_index (chunk md) name
  /\ 0 <= resolved_index (chunk md) name.
Proof.
  intros Hset.
  destruct (set_tracer_values_inv _ _ _ _ Hset) as (Hcase & Hk & E).
  cbv zeta in Hcase. split; [|exact Hk].
  destruct Hcase as [(_ & Ek & ->)|(Hreg & Ek & _ & ->)];
    [now rewrite Ek|].
  unfold registered in Hreg. apply Z.leb_gt in Hreg.
  destruct (find_tracer_range (tracer_names (chunk md))
              (trimwhitespace BUFSIZ name) 0) as [H|H]; [|lia].
  rewrite find_tracer_app_new by (exact H || lia).
  rewrite Ek. unfold tracer_names_size. lia.
Qed.

(** X6.  A name that has been ingested resolves to the same tracer index
    from then on: a second ingest under that name succeeds, whether or not
    a slot is free, and registers nothing. *)
Theorem set_tracer_values_again (md md' : t8_messy_data_t) (name : string)
    (input input' : list double) :
  t8_messy_set_tracer_values md name input = Some md' ->
  resolved_index (chunk md') name = resolved_index (chunk md) name
  /\ exists md'',
       t8_messy_set_tracer_values md' name input' = Some md''
       /\ tracer_names (chunk md'') = tracer_names (chunk md').
Proof.
  intros Hset.
  destruct (set_tracer_values_found _ _ _ _ Hset) as [Hfind Hk].
  set (n := trimwhitespace BUFSIZ name) in *.
  set (k := resolved_index (chunk md) name) in *.
  assert (Hres : resolved_index (chunk md') name = k).
  { unfold resolved_index, t8_latlon_get_tracer_idx. fold n.
    rewrite Hfind.
    destruct (0 <=? k) eqn:E0; [reflexivity | apply Z.leb_gt in E0; lia]. }
  split; [exact Hres|].
  unfold t8_messy_set_tracer_values, t8_latlon_get_tracer_idx. fold n.
  rewrite Hfind.
  destruct (0 <=? k) eqn:E0; [|apply Z.leb_gt in E0; lia].
  destruct (k >? -1) eqn:E1;
    [|rewrite Z.gtb_ltb in E1; apply Z.ltb_ge in E1; lia].
  eexists. split; [reflexivity | reflexivity].
Qed.

Lemma set_tracer_values_again_witness :
  resolved_index (chunk coupler_zyx_q) "  q  "
  = resolved_index (chunk coupler_zyx) "  q  "
  /\ exists md'',
       t8_messy_set_tracer_values coupler_zyx_q "  q  " input_zyx = Some md''
       /\ tracer_names (chunk md'') = tracer_names (chunk coupler_zyx_q).
Proof.
  apply (set_tracer_values_again coupler_zyx coupler_zyx_q "  q  "
           input_zyx input_zyx).
  reflexivity.
Defined.

(** * Ingest of several tracers *)

(** The values of an ingest are at their dense offsets, and the offsets of
    the other tracers are left alone. *)
Lemma set_tracer_values_reads (md md' : t8_messy_data_t) (name : string)
    (input : list double) :
  dense_chunk (chunk md) = true ->
  t8_messy_set_tracer_values md name input = Some md' ->
  let c := chunk md in
  let k := resolved_index c name in
  0 <= k < num_tracers c
  /\ chunk_header (chunk md') = chunk_header c
  /\ (forall x y z,
        0 <= x < x_length c -> 0 <= y < y_length c -> 0 <= z < z_length c ->
        rd (data (chunk md')) (dense_offset c x (y_length c - 1 - y) z k)
        = at_ input (input_index c x y z))
  /\ (forall j, j mod num_tracers c <> k mod num_tracers c ->
        rd (data (chunk md')) j = rd (data c) j).
Proof.
  intros Hdense Hset c k. subst c k.
  destruct (set_tracer_values_inv _ _ _ _ Hset) as (Hcase & Hk & E).
  cbv zeta in Hcase.
  destruct (dense_chunk_facts _ Hdense)
    as (_ & _ & _ & _ & _ & _ & _ & _ & _ & _ & _ & Hnt & Hnames & _).
  assert (Hlt : resolved_index (chunk md) name < num_tracers (chunk md)).
  { destruct Hcase as [(Hreg & Ek & _)|(_ & Ek & Hroom & _)]; [|lia].
    unfold registered in Hreg. apply Z.leb_le in Hreg.
    destruct (find_tracer_range (tracer_names (chunk md))
                (trimwhitespace BUFSIZ name) 0) as [H|H]; [lia|].
    unfold tracer_names_size in Hnames. lia. }
  split; [lia|]. rewrite E. simpl.
  split; [reflexivity|]. split.
  - intros x y z Hx Hy Hz.
    destruct (written_offset_of_input (chunk md)
                (resolved_index (chunk md) name) Hdense x y z Hx Hy Hz)
      as [Hi <-].
    apply set_tracer_loop_written; [exact Hdense | lia | exact Hi].
  - intros j Hj. apply set_tracer_loop_frame; [lia | exact Hj].
Qed.

(** X7.  Two ingests under names that differ after trimming use two
    different tracer indices, and after the second one every scalar of
    both inputs is at its dense offset: the second ingest does not
    disturb the first. *)
Theorem set_tracer_values_two (md md1 md2 : t8_messy_data_t)
    (name1 name2 : string) (input1 input2 : list double) (x y z : Z) :
  dense_chunk (chunk md) = true ->
  t8_messy_set_tracer_values md name1 input1 = Some md1 ->
  t8_messy_set_tracer_values md1 name2 input2 = Some md2 ->
  trimwhitespace BUFSIZ name1 <> trimwhitespace BUFSIZ name2 ->
  0 <= x < x_length (chunk md) ->
  0 <= y < y_length (chunk md) ->
  0 <= z < z_length (chunk md) ->
  let c := chunk md in
  let k1 := resolved_index c name1 in
  let k2 := resolved_index (chunk md1) name2 in
  k1 <> k2
  /\ rd (data (chunk md2)) (dense_offset c x (y_length c - 1 - y) z k1)
     = at_ input1 (input_index c x y z)
  /\ rd (data (chunk md2)) (dense_offset c x (y_length c - 1 - y) z k2)
     = at_ input2 (input_index c x y z).
Proof.
  intros Hdense H1 H2 Hne Hx Hy Hz c k1 k2. subst c k1 k2.
  pose proof (set_tracer_values_dense _ _ _ _ Hdense H1) as Hdense1.
  destruct (set_tracer_values_reads _ _ _ _ Hdense H1)
    as (Hk1 & Hh1 & Hr1 & _).
  destruct (set_tracer_values_reads _ _ _ _ Hdense1 H2)
    as (Hk2 & _ & Hr2 & Hf2).
  cbv zeta in *.
  set (k1 := resolved_index (chunk md) name1) in *.
  set (k2 := resolved_index (chunk md1) name2) in *.
  injection Hh1 as _ _ _ Exl Eyl Ezl Esh Ent Exa Eya Eza _ _ _.
  assert (Hk : k1 <> k2).
  { destruct (set_tracer_values_found _ _ _ _ H1) as [Ef1 _]. fold k1 in Ef1.
    destruct (set_tracer_values_inv _ _ _ _ H2) as (Hcase & _ & _).
    cbv zeta in Hcase. fold k2 in Hcase.
    destruct Hcase as [(_ & Ek & _)|(_ & Ek & _ & _)].
    - intros E. apply Hne.
      apply (find_tracer_inj (tracer_names (chunk md1))); [lia|].
      rewrite Ef1, <- Ek. exact E.
    - destruct (find_tracer_range (tracer_names (chunk md1))
                  (trimwhitespace BUFSIZ name1) 0) as [H|H]; [lia|].
      unfold tracer_names_size in Ek. lia. }
  split; [exact Hk|].
  assert (Eoff : forall k,
            dense_offset (chunk md1) x (y_length (chunk md1) - 1 - y) z k
            = dense_offset (chunk md) x (y_length (chunk md) - 1 - y) z k)
    by (intros k; unfold dense_offset; now rewrite Exl, Eyl, Ezl, Ent).
  assert (Ein : input_index (chunk md1) x y z
                = input_index (chunk md) x y z)
    by (unfold input_index, axis_coordinate; now rewrite Esh, Exa, Eya).
  split.
  - rewrite Hf2.
    + apply Hr1; assumption.
    + unfold dense_offset. rewrite Ent.
      rewrite Z.add_comm, Z_mod_plus_full.
      rewrite !Z.mod_small by lia. exact Hk.
  - rewrite <- Eoff, <- Ein. apply Hr2; congruence.
Qed.

Lemma set_tracer_values_two_witness :
  let c := chunk coupler_zyx in
  let k1 := resolved_index c "  q  " in
  let k2 := resolved_index (chunk coupler_zyx_q) "p" in
  k1 <> k2
  /\ rd (data (chunk coupler_zyx_qp))
        (dense_offset c 1 (y_length c - 1 - 2) 0 k1)
     = at_ input_zyx (input_index c 1 2 0)
  /\ rd (data (chunk coupler_zyx_qp))
        (dense_offset c 1 (y_length c - 1 - 2) 0 k2)
     = at_ input_zyx_p (input_index c 1 2 0).
Proof.
  apply (set_tracer_values_two coupler_zyx coupler_zyx_q coupler_zyx_qp
           "  q  " "p" input_zyx input_zyx_p 1 2 0);
    vm_compute; repeat split;
    solve [reflexivity | intro; discriminate].
Defined.

(** X8.  Whitespace before and after a tracer name does not matter: the
    ingest and the output of a tracer treat the padded name as the name
    itself. *)
Theorem tracer_name_padding (md : t8_messy_data_t) (pre name post : string)
    (input : list double) (out : buffer double) :
  all_space pre = true -> all_space post = true ->
  let padded := String.append pre (String.append name post) in
  t8_messy_set_tracer_values md padded input
  = t8_messy_set_tracer_values md name input
  /\ t8_messy_write_tracer_values md padded out
     = t8_messy_write_tracer_values md name out.
Proof.
  intros Hpre Hpost padded. subst padded.
  unfold t8_messy_set_tracer_values, t8_messy_write_tracer_values.
  rewrite (trimwhitespace_padding BUFSIZ pre name post Hpre Hpost).
  split; reflexivity.
Qed.

Lemma tracer_name_padding_witness :
  let padded := String.append "  " (String.append "q" "   ") in
  t8_messy_set_tracer_values coupler_zyx padded input_zyx
  = t8_messy_set_tracer_values coupler_zyx "q" input_zyx
  /\ t8_messy_write_tracer_values coupler_zyx padded (Some [])
     = t8_messy_write_tracer_values coupler_zyx "q" (Some []).
Proof.
  apply (tracer_name_padding coupler_zyx "  " "q" "   " input_zyx (Some []));
    reflexivity.
Defined.

(** * The reductions and the error checks *)

Section Reductions.

Variables (values : list double) (n : Z).

(** [fmax] and [fmin] with a first argument that is no NaN return one of
    their arguments, and no NaN. *)
Lemma fmax_selects (a b : double) :
  PrimFloat.is_nan a = false ->
  PrimFloat.is_nan (fmax a b) = false
  /\ (fmax a b = a \/ fmax a b = b)
  /\ (PrimFloat.is_nan b = true -> fmax a b = a).
Proof.
  intros Ha. unfold fmax. rewrite Ha.
  destruct (PrimFloat.is_nan b) eqn:Eb; [auto|].
  destruct (flt a b); auto.
  split; [exact Eb|]. split; [auto | discriminate].
Qed.

Lemma fmin_selects (a b : double) :
  PrimFloat.is_nan a = false ->
  PrimFloat.is_nan (fmin a b) = false
  /\ (fmin a b = a \/ fmin a b = b)
  /\ (PrimFloat.is_nan b = true -> fmin a b = a).
Proof.
  intros Ha. unfold fmin. rewrite Ha.
  destruct (PrimFloat.is_nan b) eqn:Eb; [auto|].
  destruct (flt b a); auto.
  split; [exact Eb|]. split; [auto | discriminate].
Qed.

(** A loop that folds a selecting operation over [values[0 .. n)],
    starting from [init]. *)
Lemma selecting_loop (op : double -> double -> double) (init : double) :
  PrimFloat.is_nan init = false ->
  (forall a b, PrimFloat.is_nan a = false ->
     PrimFloat.is_nan (op a b) = false
     /\ (op a b = a \/ op a b = b)
     /\ (PrimFloat.is_nan b = true -> op a b = a)) ->
  let r := for_loop 0 n (fun i m => op m (at_ values i)) init in
  PrimFloat.is_nan r = false
  /\ (r = init \/ exists i, 0 <= i < n /\ r = at_ values i)
  /\ ((forall i, 0 <= i < n -> PrimFloat.is_nan (at_ values i) = true) ->
      r = init).
Proof.
  intros Hinit Hop r. subst r.
  destruct (Z.le_gt_cases 0 n) as [Hn|Hn].
  2: { rewrite for_loop_empty by lia.
       split; [exact Hinit|]. split; [left; reflexivity | reflexivity]. }
  apply (for_loop_inv
           (fun k m =>
              PrimFloat.is_nan m = false
              /\ (m = init \/ exists i, 0 <= i < k /\ m = at_ values i)
              /\ ((forall i, 0 <= i < k ->
                     PrimFloat.is_nan (at_ values i) = true) -> m = init)));
    [exact Hn | |].
  - split; [exact Hinit|]. split; [left; reflexivity | reflexivity].
  - intros k m Hk (Hm & Hsel & Hnan).
    destruct (Hop m (at_ values k) Hm) as (H1 & H2 & H3).
    split; [exact H1|]. split.
    + destruct H2 as [->| ->].
      * destruct Hsel as [->|(i & Hi & ->)]; [left; reflexivity|].
        right. exists i. split; [lia | reflexivity].
      * right. exists k. split; [lia | reflexivity].
    + intros Hall. rewrite H3 by (apply Hall; lia).
      apply Hnan. intros i Hi. apply Hall. lia.
Qed.

End Reductions.

(** X9.  [get_max] returns its initial value [LONG_MIN] or one of the
    values [values[0 .. n)], and [get_min] its initial value [LONG_MAX] or
    one of the values; neither ever returns a NaN, and on an empty range
    or on nothing but NaNs they return the initial value. *)
Theorem get_max_min_select (values : list double) (n : Z) :
  (PrimFloat.is_nan (get_max values n) = false
   /\ (get_max values n = LONG_MIN
       \/ exists i, 0 <= i < n /\ get_max values n = at_ values i)
   /\ ((forall i, 0 <= i < n -> PrimFloat.is_nan (at_ values i) = true) ->
       get_max values n = LONG_MIN))
  /\ (PrimFloat.is_nan (get_min values n) = false
      /\ (get_min values n = LONG_MAX
          \/ exists i, 0 <= i < n /\ get_min values n = at_ values i)
      /\ ((forall i, 0 <= i < n -> PrimFloat.is_nan (at_ values i) = true) ->
          get_min values n = LONG_MAX)).
Proof.
  split.
  - exact (selecting_loop values n fmax LONG_MIN eq_refl fmax_selects).
  - exact (selecting_loop values n fmin LONG_MAX eq_refl fmin_selects).
Qed.

(** X10.  [check_errors] returns 1 exactly when one of [errors[0 .. n)]
    is above [max_error], and 0 otherwise; [check_errors_by_ratio] returns
    1 exactly when some value that is not missing has its error above
    [value * ratio], and 0 otherwise. *)
Theorem check_errors_finds (n : Z) (errors values : list double)
    (max_error ratio missing_value : double) :
  (check_errors n errors max_error = 1
   <-> exists i, 0 <= i < n /\ fgt (at_ errors i) max_error = true)
  /\ (check_errors n errors max_error = 1
      \/ check_errors n errors max_error = 0)
  /\ (check_errors_by_ratio n ratio errors values missing_value = 1
      <-> exists i, 0 <= i < n
            /\ feq (at_ values i) missing_value = false
            /\ fgt (at_ errors i) (fmul (at_ values i) ratio) = true)
  /\ (check_errors_by_ratio n ratio errors values missing_value = 1
      \/ check_errors_by_ratio n ratio errors values missing_value = 0).
Proof.
  assert (H : forall body : Z -> unit -> Z + unit,
            (forall j, body j tt = inl 1 \/ body j tt = inr tt) ->
            let r := match for_loop_ret 0 n body tt with
                     | inl r => r
                     | inr _ => 0
                     end in
            (r = 1 <-> exists i, 0 <= i < n /\ body i tt = inl 1)
            /\ (r = 1 \/ r = 0)).
  { intros body Hbody r. subst r. unfold for_loop_ret.
    destruct (for_up_ret_unit body (Z.to_nat (n - 0)) 0)
      as [[Hrun Hall]|(j & r & Hj & Hb & Hr & _)].
    - rewrite Hrun. split; [|right; reflexivity].
      split; [discriminate|]. intros (i & Hi & E).
      rewrite Hall in E by lia. discriminate.
    - rewrite Hr. destruct (Hbody j) as [E|E]; rewrite E in Hb;
        [|discriminate].
      injection Hb as <-. split; [|left; reflexivity].
      split; [|reflexivity]. intros _. exists j. split; [lia | exact E]. }
  split; [|split; [|split]].
  - unfold check_errors.
    match goal with |- context [for_loop_ret 0 n ?b tt] =>
      destruct (H b) as [H1 _] end.
    { intros j. destruct (fgt (at_ errors j) max_error); auto. }
    cbv zeta in H1. rewrite H1.
    split; intros (i & Hi & E); exists i; (split; [exact Hi|]);
      destruct (fgt (at_ errors i) max_error); congruence.
  - unfold check_errors.
    match goal with |- context [for_loop_ret 0 n ?b tt] =>
      destruct (H b) as [_ H2] end.
    { intros j. destruct (fgt (at_ errors j) max_error); auto. }
    exact H2.
  - unfold check_errors_by_ratio.
    match goal with |- context [for_loop_ret 0 n ?b tt] =>
      destruct (H b) as [H1 _] end.
    { intros j. destruct (feq (at_ values j) missing_value); [auto|].
      destruct (fgt (at_ errors j) (fmul (at_ values j) ratio)); auto. }
    cbv zeta in H1. rewrite H1.
    split.
    + intros (i & Hi & E). exists i. split; [exact Hi|].
      destruct (feq (at_ values i) missing_value); [discriminate|].
      destruct (fgt (at_ errors i) (fmul (at_ values i) ratio));
        [auto | discriminate].
    + intros (i & Hi & E1 & E2). exists i. split; [exact Hi|].
      now rewrite E1, E2.
  - unfold check_errors_by_ratio.
    match goal with |- context [for_loop_ret 0 n ?b tt] =>
      destruct (H b) as [_ H2] end.
    { intros j. destruct (feq (at_ values j) missing_value); [auto|].
      destruct (fgt (at_ errors j) (fmul (at_ values j) ratio)); auto. }
    exact H2.
Qed.

(** * The callbacks of a round *)

Lemma forallb_false_exists {A : Type} (f : A -> bool) (l : list A) :
  forallb f l = false -> exists x, In x l /\ f x = false.
Proof.
  induction l as [|a l IH]; simpl; [discriminate|].
  destruct (f a) eqn:E; simpl.
  - intros H. destruct (IH H) as (x & Hx & Ex). exists x. auto.
  - intros _. exists a. auto.
Qed.

(** X11.  The error-tolerance predicate keeps a single element; for a
    family of four it answers [-1] (merge) exactly when, at every layer and
    for every tracer but the mass, the largest error ratio that
    [calculate_error_ratios] yields for the interpolated value is not
    above [0.10], and [0] (keep) otherwise. *)
Theorem error_tol_verdict (m : t8_messy_data_t) (fo : Z) :
  0 <= z_length (chunk m) -> 1 <= num_tracers (chunk m) ->
  t8_messy_coarsen_by_error_tol_callback m fo 1 = 0
  /\ (t8_messy_coarsen_by_error_tol_callback m fo 4 = -1
      <-> forall z d, 0 <= z < z_length (chunk m) ->
            0 <= d < num_tracers (chunk m) - 1 ->
            fgt (get_max
                   (calculate_error_ratios 4 (four_values m fo z d)
                      (interpolated_at m fo z d) (missing_value (chunk m)))
                   4) error_tolerance = false)
  /\ (t8_messy_coarsen_by_error_tol_callback m fo 4 = 0
      <-> exists z d, 0 <= z < z_length (chunk m)
            /\ 0 <= d < num_tracers (chunk m) - 1
            /\ fgt (get_max
                      (calculate_error_ratios 4 (four_values m fo z d)
                         (interpolated_at m fo z d)
                         (missing_value (chunk m)))
                      4) error_tolerance = true).
Proof.
  intros Hzl Hnt.
  destruct (error_tol_callback_merges m fo Hzl Hnt) as [Hiff Hval].
  assert (El : forall z d,
            get_max
              (calculate_error_ratios 4 (four_values m fo z d)
                 (interpolated_at m fo z d) (missing_value (chunk m))) 4
            = layer_error m fo z d)
    by (intros; unfold layer_error; now rewrite sibling_values_leaves).
  split; [reflexivity|]. split.
  - rewrite Hiff. split; intros H z d Hz Hd; specialize (H z d Hz Hd);
      now rewrite ?El in *.
  - split.
    + intros H0.
      assert (Hnot : t8_messy_coarsen_by_error_tol_callback m fo 4 <> -1)
        by lia.
      rewrite Hiff in Hnot.
      (* a bounded search for the layer and the tracer above the
         tolerance *)
      assert (Hsearch : forall (P : Z -> bool) (n : Z), 0 <= n ->
                (forall i, 0 <= i < n -> P i = false)
                \/ exists i, 0 <= i < n /\ P i = true).
      { intros P n Hn. pattern n. apply natlike_ind; [| |exact Hn].
        - left. intros; lia.
        - intros k Hk [Hall|(i & Hi & Ei)].
          + destruct (P k) eqn:Ek.
            * right. exists k. split; [lia | exact Ek].
            * left. intros i Hi.
              destruct (Z.eq_dec i k) as [->|]; [exact Ek | apply Hall; lia].
          + right. exists i. split; [lia | exact Ei]. }
      destruct (Hsearch
                  (fun z =>
                     negb (forallb
                             (fun d => negb (fgt (layer_error m fo z
                                                    (Z.of_nat d))
                                               error_tolerance))
                             (seq 0 (Z.to_nat (num_tracers (chunk m) - 1)))))
                  (z_length (chunk m)) Hzl) as [Hall|(z & Hz & Ez)].
      * exfalso. apply Hnot. intros z d Hz Hd.
        specialize (Hall z Hz). apply negb_false_iff in Hall.
        rewrite forallb_forall in Hall.
        specialize (Hall (Z.to_nat d)).
        rewrite Z2Nat.id in Hall by lia.
        apply negb_true_iff, Hall, in_seq. lia.
      * apply negb_true_iff in Ez.
        destruct (forallb_false_exists _ _ Ez) as (d & Hd & Ed).
        apply in_seq in Hd. apply negb_false_iff in Ed.
        exists z, (Z.of_nat d). split; [exact Hz|]. split; [lia|].
        now rewrite El.
    + intros (z & d & Hz & Hd & E).
      destruct Hval as [Hm|H0]; [|exact H0].
      rewrite Hiff in Hm. specialize (Hm z d Hz Hd).
      rewrite El in E. congruence.
Qed.

Lemma error_tol_verdict_witness :
  t8_messy_coarsen_by_error_tol_callback merge_plain 0 1 = 0
  /\ (t8_messy_coarsen_by_error_tol_callback merge_plain 0 4 = -1
      <-> forall z d, 0 <= z < z_length (chunk merge_plain) ->
            0 <= d < num_tracers (chunk merge_plain) - 1 ->
            fgt (get_max
                   (calculate_error_ratios 4 (four_values merge_plain 0 z d)
                      (interpolated_at merge_plain 0 z d)
                      (missing_value (chunk merge_plain)))
                   4) error_tolerance = false)
  /\ (t8_messy_coarsen_by_error_tol_callback merge_plain 0 4 = 0
      <-> exists z d, 0 <= z < z_length (chunk merge_plain)
            /\ 0 <= d < num_tracers (chunk merge_plain) - 1
            /\ fgt (get_max
                      (calculate_error_ratios 4
                         (four_values merge_plain 0 z d)
                         (interpolated_at merge_plain 0 z d)
                         (missing_value (chunk merge_plain)))
                      4) error_tolerance = true).
Proof.
  apply (error_tol_verdict merge_plain 0);
    vm_compute; intro; discriminate.
Defined.

(** X12.  When the predicate approves the merge of a family, the local
    error that the interpolation callback records for the new leaf, in an
    error array that starts at 0 as the loop allocates it, is not above
    the tolerance. *)
Theorem approved_merge_error (m0 : t8_messy_data_t) (fo fi d : Z) :
  1 <= num_tracers (chunk m0) ->
  0 <= z_length (chunk m0) ->
  0 <= fi ->
  (fi + 1) * (num_tracers (chunk m0) - 1) <= buf_len (errors_adapt m0) ->
  (fi + 1) * (num_tracers (chunk m0) - 1)
    <= buf_len (errors_adapt_global m0) ->
  0 <= d < num_tracers (chunk m0) - 1 ->
  rd (errors_adapt m0) (error_index m0 fi d) = 0%float ->
  t8_messy_coarsen_by_error_tol_callback m0 fo 4 = -1 ->
  fgt (rd (errors_adapt (t8_messy_interpolate_callback2 m0 4 fo 1 fi))
          (error_index m0 fi d)) error_tolerance = false.
Proof.
  intros Hnt Hzl Hfi Herr Hglob Hd Hzero Hmerge.
  destruct (callback2_errors m0 fo fi Hnt Hzl Hfi Herr Hglob d Hd) as [E _].
  cbv zeta in E. rewrite E. unfold local_error_upto. rewrite Hzero.
  destruct (error_tol_callback_merges m0 fo Hzl Hnt) as [Hiff _].
  pose proof (proj1 Hiff Hmerge) as Hall.
  apply (for_loop_inv (fun _ e => fgt e error_tolerance = false));
    [exact Hzl | reflexivity |].
  intros z e Hz He. specialize (Hall z d Hz Hd).
  unfold fmax.
  destruct (PrimFloat.is_nan e); [exact Hall|].
  destruct (PrimFloat.is_nan (layer_error m0 fo z d)); [exact He|].
  destruct (flt e (layer_error m0 fo z d)); assumption.
Qed.

Lemma approved_merge_error_witness :
  fgt (rd (errors_adapt (t8_messy_interpolate_callback2 merge_plain 4 0 1 0))
          (error_index merge_plain 0 0)) error_tolerance = false.
Proof.
  apply (approved_merge_error merge_plain 0 0 0);
    vm_compute; repeat split; solve [reflexivity | intro; discriminate].
Defined.

(** ** What a callback writes *)

Section Memcpy.

Variables (dst src : buffer double) (doff soff n : Z).

Lemma memcpy_reads :
  buf_len (memcpy dst doff src soff n) = buf_len dst
  /\ (forall j, ~ (doff <= j < doff + n) ->
        rd (memcpy dst doff src soff n) j = rd dst j)
  /\ (0 <= doff -> doff + n <= buf_len dst ->
      forall k, 0 <= k < n ->
        rd (memcpy dst doff src soff n) (doff + k) = rd src (soff + k)).
Proof.
  unfold memcpy.
  destruct (Z.le_gt_cases 0 n) as [Hn|Hn].
  2: { rewrite for_loop_empty by lia.
       split; [reflexivity|]. split; [reflexivity | intros; lia]. }
  apply (for_loop_inv
           (fun i d =>
              buf_len d = buf_len dst
              /\ (forall j, ~ (doff <= j < doff + i) -> rd d j = rd dst j)
              /\ (0 <= doff -> doff + n <= buf_len dst ->
                  forall k, 0 <= k < i ->
                    rd d (doff + k) = rd src (soff + k))));
    [exact Hn | |].
  - split; [reflexivity|]. split; [reflexivity | intros; lia].
  - intros i d Hi (Hlen & Hout & Hin).
    split; [now rewrite buf_len_wr|]. split.
    + intros j Hj. rewrite rd_wr_other by lia. apply Hout. lia.
    + intros H0 Hfit k Hk. destruct (Z.eq_dec k i) as [->|Hne].
      * apply rd_wr_same. lia.
      * rewrite rd_wr_other by lia. apply Hin; lia.
Qed.

End Memcpy.

Lemma untouched_refl (m : t8_messy_data_t) : untouched m m.
Proof. unfold untouched. auto. Qed.

Lemma untouched_trans (m0 m1 m2 : t8_messy_data_t) :
  untouched m0 m1 -> untouched m1 m2 -> untouched m0 m2.
Proof.
  unfold untouched. intros (A1 & A2 & A3 & A4) (B1 & B2 & B3 & B4).
  repeat split; congruence.
Qed.

Lemma untouched_upd_data_adapt (m : t8_messy_data_t) (i : Z) (v : double) :
  untouched m (upd_data_adapt m i v).
Proof.
  unfold untouched, upd_data_adapt, adapt_lengths; simpl.
  rewrite buf_len_wr. auto.
Qed.

Lemma callback2_untouched (m : t8_messy_data_t) (no fo ni fi : Z) :
  untouched m (t8_messy_interpolate_callback2 m no fo ni fi).
Proof.
  unfold t8_messy_interpolate_callback2.
  destruct (no >? ni).
  - unfold for_loop. apply (for_up_prop (untouched m)); [|apply untouched_refl].
    intros z t Ht. apply (for_up_prop (untouched m)).
    + intros d t' Ht'. apply (untouched_trans _ _ _ Ht').
      unfold untouched, upd_data_adapt, adapt_lengths; simpl.
      rewrite !buf_len_wr. auto.
    + apply (untouched_trans _ _ _ Ht). apply untouched_upd_data_adapt.
  - unfold untouched, adapt_lengths; simpl.
    rewrite !(proj1 (memcpy_reads _ _ _ _ _)). auto.
Qed.

(** The records of the other leaves in the adapt buffers. *)
Lemma callback2_outside (m : t8_messy_data_t) (no fo ni fi : Z) :
  1 <= num_tracers (chunk m) ->
  let m1 := t8_messy_interpolate_callback2 m no fo ni fi in
  (forall j, outside fi (num_tracers (chunk m) * z_length (chunk m)) j ->
     rd (data_adapt (chunk m1)) j = rd (data_adapt (chunk m)) j)
  /\ (forall j, outside fi (num_tracers (chunk m) - 1) j ->
        rd (errors_adapt m1) j = rd (errors_adapt m) j
        /\ rd (errors_adapt_global m1) j = rd (errors_adapt_global m) j).
Proof.
  intros Hnt m1. subst m1. unfold t8_messy_interpolate_callback2.
  set (nt := num_tracers (chunk m)) in *.
  set (zl := z_length (chunk m)) in *.
  pose (F := fun (m' : t8_messy_data_t) =>
    (forall j, outside fi (nt * zl) j ->
       rd (data_adapt (chunk m')) j = rd (data_adapt (chunk m)) j)
    /\ (forall j, outside fi (nt - 1) j ->
          rd (errors_adapt m') j = rd (errors_adapt m) j
          /\ rd (errors_adapt_global m') j = rd (errors_adapt_global m) j)).
  destruct (no >? ni).
  - match goal with
    | |- (forall j, _ -> rd (data_adapt (chunk ?X)) j = _) /\ _ =>
        change (F X)
    end.
    destruct (Z.le_gt_cases 0 zl) as [Hzl|Hzl].
    2: { rewrite for_loop_empty by lia. split; auto. }
    apply (for_loop_inv (fun _ m' => F m')); [exact Hzl | split; auto |].
    intros z m' Hz [Hd He].
    apply (for_loop_inv (fun _ m' => F m')); [lia | |].
    + split; [|exact He].
      intros j Hj. unfold upd_data_adapt; simpl.
      rewrite rd_wr_other; [apply Hd; exact Hj|].
      unfold outside in Hj. nia.
    + intros d m'' Hdr [Hd' He'].
      split.
      * intros j Hj. unfold upd_data_adapt; simpl.
        rewrite rd_wr_other; [apply Hd'; exact Hj|].
        unfold outside in Hj. nia.
      * intros j Hj. unfold upd_data_adapt; simpl.
        rewrite !rd_wr_other by (unfold outside in Hj; nia).
        apply He'. exact Hj.
  - split.
    + intros j Hj. simpl.
      rewrite (proj1 (proj2 (memcpy_reads _ _ _ _ _)));
        [reflexivity|].
      unfold outside in Hj. nia.
    + intros j Hj. simpl.
      rewrite !(proj1 (proj2 (memcpy_reads _ _ _ _ _)))
        by (unfold outside in Hj; nia).
      split; reflexivity.
Qed.

(** X13.  Whatever its arguments, the mass-weighted interpolation
    callback writes nothing but the three adapt buffers ([data_adapt],
    [errors_adapt], [errors_adapt_global]), keeps their lengths, and in
    them changes only the record and the error slots of the incoming leaf:
    the records of all other leaves stay as they are. *)
Theorem interpolate_callback2_frame (m : t8_messy_data_t) (no fo ni fi : Z) :
  1 <= num_tracers (chunk m) ->
  let m1 := t8_messy_interpolate_callback2 m no fo ni fi in
  (data (chunk m1), data_ids (chunk m1), data_ids_adapt (chunk m1))
  = (data (chunk m), data_ids (chunk m), data_ids_adapt (chunk m))
  /\ (errors m1, errors_global m1) = (errors m, errors_global m)
  /\ coupler_header m1 = coupler_header m
  /\ (counter m1, num_elements m1) = (counter m, num_elements m)
  /\ adapt_lengths m1 = adapt_lengths m
  /\ (forall j, outside fi (num_tracers (chunk m) * z_length (chunk m)) j ->
        rd (data_adapt (chunk m1)) j = rd (data_adapt (chunk m)) j)
  /\ (forall j, outside fi (num_tracers (chunk m) - 1) j ->
        rd (errors_adapt m1) j = rd (errors_adapt m) j
        /\ rd (errors_adapt_global m1) j = rd (errors_adapt_global m) j).
Proof.
  intros Hnt m1. subst m1.
  destruct (callback2_kept m no fo ni fi)
    as (K1 & K2 & K3 & K4 & K5 & _).
  destruct (callback2_untouched m no fo ni fi) as (U1 & U2 & U3 & U4).
  destruct (callback2_outside m no fo ni fi Hnt) as [O1 O2].
  rewrite K1, K2, K3, K4, K5, U1, U2, U3, U4.
  repeat split; try reflexivity; [exact O1 | apply O2 | apply O2];
    assumption.
Qed.

Lemma interpolate_callback2_frame_witness :
  let m := merge_plain in
  let m1 := t8_messy_interpolate_callback2 m 4 0 1 0 in
  (data (chunk m1), data_ids (chunk m1), data_ids_adapt (chunk m1))
  = (data (chunk m), data_ids (chunk m), data_ids_adapt (chunk m))
  /\ (errors m1, errors_global m1) = (errors m, errors_global m)
  /\ coupler_header m1 = coupler_header m
  /\ (counter m1, num_elements m1) = (counter m, num_elements m)
  /\ adapt_lengths m1 = adapt_lengths m
  /\ (forall j, outside 0 (num_tracers (chunk m) * z_length (chunk m)) j ->
        rd (data_adapt (chunk m1)) j = rd (data_adapt (chunk m)) j)
  /\ (forall j, outside 0 (num_tracers (chunk m) - 1) j ->
        rd (errors_adapt m1) j = rd (errors_adapt m) j
        /\ rd (errors_adapt_global m1) j = rd (errors_adapt_global m) j).
Proof.
  apply (interpolate_callback2_frame merge_plain 4 0 1 0).
  vm_compute. intro; discriminate.
Defined.

(** X14.  When a leaf is not merged (one outgoing element, one incoming),
    the callback copies its record of [num_tracers * z_length] scalars and
    its [num_tracers - 1] local and global errors from the old arrays, at
    the index of the outgoing leaf, to the adapt buffers, at the index of
    the incoming leaf. *)
Theorem interpolate_callback2_copies (m : t8_messy_data_t)
    (no fo ni fi : Z) :
  no <= ni ->
  0 <= fi ->
  1 <= num_tracers (chunk m) ->
  0 <= z_length (chunk m) ->
  (fi + 1) * (num_tracers (chunk m) * z_length (chunk m))
    <= buf_len (data_adapt (chunk m)) ->
  (fi + 1) * (num_tracers (chunk m) - 1) <= buf_len (errors_adapt m) ->
  (fi + 1) * (num_tracers (chunk m) - 1)
    <= buf_len (errors_adapt_global m) ->
  let m1 := t8_messy_interpolate_callback2 m no fo ni fi in
  (forall z d, 0 <= z < z_length (chunk m) ->
     0 <= d < num_tracers (chunk m) ->
     rd (data_adapt (chunk m1)) (adapt_index m fi z d) = leaf_value m fo z d)
  /\ (forall d, 0 <= d < num_tracers (chunk m) - 1 ->
        rd (errors_adapt m1) (error_index m fi d)
        = rd (errors m) (error_index m fo d)
        /\ rd (errors_adapt_global m1) (error_index m fi d)
           = rd (errors_global m) (error_index m fo d)).
Proof.
  intros Hno Hfi Hnt Hzl Hlen Herr Hglob m1. subst m1.
  unfold t8_messy_interpolate_callback2.
  destruct (no >? ni) eqn:E; [apply Z.gtb_lt in E; lia|].
  set (nt := num_tracers (chunk m)) in *.
  set (zl := z_length (chunk m)) in *.
  simpl. split.
  - intros z d Hz Hd. unfold adapt_index, leaf_value. fold nt zl.
    replace (fi * (nt * zl) + z * nt + d)
      with (fi * (nt * zl) + (z * nt + d)) by ring.
    replace (fo * (nt * zl) + z * nt + d)
      with (fo * (nt * zl) + (z * nt + d)) by ring.
    apply memcpy_reads; nia.
  - intros d Hd. unfold error_index. fold nt.
    split; apply memcpy_reads; nia.
Qed.

Lemma interpolate_callback2_copies_witness :
  let m := merge_plain in
  let m1 := t8_messy_interpolate_callback2 m 1 3 1 0 in
  (forall z d, 0 <= z < z_length (chunk m) ->
     0 <= d < num_tracers (chunk m) ->
     rd (data_adapt (chunk m1)) (adapt_index m 0 z d) = leaf_value m 3 z d)
  /\ (forall d, 0 <= d < num_tracers (chunk m) - 1 ->
        rd (errors_adapt m1) (error_index m 0 d)
        = rd (errors m) (error_index m 3 d)
        /\ rd (errors_adapt_global m1) (error_index m 0 d)
           = rd (errors_global m) (error_index m 3 d)).
Proof.
  apply (interpolate_callback2_copies merge_plain 1 3 1 0);
    vm_compute; repeat split; solve [reflexivity | intro; discriminate].
Defined.

(** * The callbacks that follow the configurations *)

Section ConfiguredInterpolation.

Variables (m0 : t8_messy_data_t) (fo fi : Z).

Hypothesis Hnt : 1 <= num_tracers (chunk m0).
Hypothesis Hfi : 0 <= fi.
Hypothesis Hlen :
  (fi + 1) * (num_tracers (chunk m0) * z_length (chunk m0))
  <= buf_len (data_adapt (chunk m0)).

(** The value stored for tracer [d] at layer [z], as a function of the
    values of the four siblings. *)
Variable f : Z -> Z -> list double -> double.


End ConfiguredInterpolation.



(** ** The predicate of a layer selector below zero *)

Lemma for_up_ext {St : Type} (body body' : Z -> St -> St) :
  forall (n : nat) (i : Z) (s : St),
    (forall j t, i <= j < i + Z.of_nat n -> body j t = body' j t) ->
    for_up n i body s = for_up n i body' s.
Proof.
  induction n as [|n IH]; intros i s H; [reflexivity|].
  simpl. rewrite H by lia. apply IH. intros j t Hj. apply H. lia.
Qed.

(** [get_values] reads the places [first + i * element_length + tracer]
    and nothing else. *)
Lemma get_values_ext (first n element_length tracer : Z)
    (data data' : buffer double) :
  (forall i, 0 <= i < n ->
     rd data' (first + i * element_length + tracer)
     = rd data (first + i * element_length + tracer)) ->
  get_values first n element_length tracer data'
  = get_values first n element_length tracer data.
Proof.
  intros H. unfold get_values, for_loop. apply for_up_ext.
  intros j t Hj. cbv zeta. rewrite H by lia. reflexivity.
Qed.

(** X16.  With a layer selector below zero and a threshold method,
    [t8_messy_coarsen_callback] reduces, for every one of the siblings,
    the column of the tracer in the record of the first sibling: its
    answer does not change when the data of the chunk change anywhere
    else, the records of the other siblings included. *)
Theorem coarsen_callback_first_sibling (m m' : t8_messy_data_t)
    (c : t8_messy_coarsen_t) (fo n : Z) :
  coarsen m = Some c ->
  co_z_layer c < 0 ->
  co_method c <> T8_MESSY_COARSEN_FUNCTION ->
  coupler_header m' = coupler_header m ->
  (forall z, 0 <= z < z_length (chunk m) ->
     let t := fst (t8_latlon_get_tracer_idx (chunk m) (co_tracer c) false) in
     leaf_value m' fo z t = leaf_value m fo z t) ->
  t8_messy_coarsen_callback m' fo n = t8_messy_coarsen_callback m fo n.
Proof.
  intros Hc Hneg Hmeth Hhead Hcol.
  injection Hhead as Edesc Exs Eys Exl Eyl Ezl Esh Ent Exa Eya Eza Emv Eml
    Enum Enames Ef Eco Eip.
  unfold t8_messy_coarsen_callback.
  destruct (n =? 1); [reflexivity|].
  rewrite Eco, Hc.
  unfold t8_latlon_get_tracer_idx in *.
  rewrite Enames, Ezl, Ent.
  assert (Eneg : (co_z_layer c <? 0) = true) by (apply Z.ltb_lt; lia).
  rewrite Eneg.
  set (t := fst (if 0 <=? find_tracer (tracer_names (chunk m)) (co_tracer c) 0
                 then (find_tracer (tracer_names (chunk m)) (co_tracer c) 0,
                       chunk m)
                 else if false
                      then (tracer_names_size (chunk m),
                            set_tracer_names (chunk m)
                              (tracer_names (chunk m) ++ [co_tracer c]))
                      else (-1, chunk m))) in *.
  assert (Et : fst (if 0 <=? find_tracer (tracer_names (chunk m))
                                (co_tracer c) 0
                    then (find_tracer (tracer_names (chunk m))
                            (co_tracer c) 0, chunk m')
                    else if false
                         then (tracer_names_size (chunk m'),
                               set_tracer_names (chunk m')
                                 (tracer_names (chunk m) ++ [co_tracer c]))
                         else (-1, chunk m')) = t).
  { subst t. destruct (0 <=? _); reflexivity. }
  rewrite Et.
  assert (Ev : get_values
                 (fo * z_length (chunk m) * num_tracers (chunk m))
                 (z_length (chunk m)) (num_tracers (chunk m)) t
                 (data (chunk m'))
               = get_values
                   (fo * z_length (chunk m) * num_tracers (chunk m))
                   (z_length (chunk m)) (num_tracers (chunk m)) t
                   (data (chunk m))).
  { apply get_values_ext. intros z Hz. specialize (Hcol z Hz).
    cbv zeta in Hcol. unfold leaf_value in Hcol.
    rewrite Ent, Ezl in Hcol.
    replace (fo * z_length (chunk m) * num_tracers (chunk m)
             + z * num_tracers (chunk m) + t)
      with (fo * (num_tracers (chunk m) * z_length (chunk m))
            + z * num_tracers (chunk m) + t) by ring.
    exact Hcol. }
  rewrite Ev.
  destruct (co_method c); try reflexivity.
  contradiction.
Qed.

(** The predicate with the layer selector [-1] on [coupler_column]. *)
Lemma coarsen_callback_first_sibling_witness :
  t8_messy_coarsen_callback coupler_column_other 0 4
  = t8_messy_coarsen_callback coupler_column 0 4.
Proof.
  apply (coarsen_callback_first_sibling coupler_column coupler_column_other
           config_column 0 4).
  - reflexivity.
  - reflexivity.
  - discriminate.
  - reflexivity.
  - intros z Hz. assert (Ez : z = 0 \/ z = 1) by (simpl in Hz; lia).
    destruct Ez as [->| ->]; reflexivity.
Defined.

(** * What [t8_messy_coarsen] leaves *)

Lemma for_up_ret_prop (P : coarsen_loop_t -> Prop)
    (body : Z -> coarsen_loop_t -> coarsen_loop_t + coarsen_loop_t) :
  (forall j s, P s -> P (loop_state (body j s))) ->
  forall (n : nat) (i : Z) (s : coarsen_loop_t),
    P s -> P (loop_state (for_up_ret n i body s)).
Proof.
  intros Hstep. induction n as [|n IH]; intros i s Hs; [exact Hs|].
  simpl. specialize (Hstep i s Hs).
  destruct (body i s) as [r|s']; [exact Hstep|]. apply IH. exact Hstep.
Qed.

Lemma replace_untouched (elements_new : list t8_element_t) :
  forall (elements_old : list t8_element_t) (fi fo : Z) (m : t8_messy_data_t),
    untouched m
      (replace_elements t8_messy_interpolate_callback2 elements_new
         elements_old fi fo m).
Proof.
  induction elements_new as [|e rest IH]; intros old fi fo m;
    [apply untouched_refl|].
  simpl. destruct old as [|e_old old']; [apply untouched_refl|].
  destruct (level e <? level e_old);
    (eapply untouched_trans; [apply callback2_untouched | apply IH]).
Qed.

Lemma round_filled_untouched (st : coarsen_loop_t) :
  untouched (round_allocated st) (round_filled st).
Proof. apply replace_untouched. Qed.

(** A round changes neither the header of the coupler, nor its counter,
    nor its recorded number of elements. *)
Lemma coarsen_round_header (r : Z) (st : coarsen_loop_t) :
  let st' := loop_state (coarsen_round r st) in
  coupler_header (lp_data st') = coupler_header (lp_data st)
  /\ counter (lp_data st') = counter (lp_data st)
  /\ num_elements (lp_data st') = num_elements (lp_data st).
Proof.
  unfold coarsen_round. fold (round_adapt st).
  destruct (t8_forest_get_num_element (round_adapt st)
            =? lp_last_num_elements st); [simpl; auto|].
  cbv zeta. fold (round_allocated st). fold (round_filled st).
  destruct (round_filled_untouched st) as (U1 & U2 & U3 & _).
  simpl. unfold coupler_header in *. simpl.
  change (chunk_header
            (set_data_adapt
               (set_data_ids_adapt
                  (set_data
                     (set_data_ids (chunk (round_filled st))
                        (data_ids_adapt (chunk (round_filled st))))
                     (data_adapt (chunk (round_filled st))))
                  None)
               None))
    with (chunk_header (chunk (round_filled st))).
  rewrite U1, U2, U3.
  repeat split.
Qed.

(** A round that leaves the loop changes nothing. *)
Lemma coarsen_round_break (r : Z) (st sb : coarsen_loop_t) :
  coarsen_round r st = inl sb ->
  lp_data sb = lp_data st /\ lp_forest sb = lp_forest st
  /\ lp_last_num_elements sb = lp_last_num_elements st
  /\ lp_live sb = lp_live st.
Proof.
  unfold coarsen_round.
  destruct (_ =? _); [|discriminate].
  intros H. injection H as <-. auto.
Qed.

(** The forest of the model never grows under adaption. *)
Lemma adapt_elements_length (callback : Z -> Z -> Z) :
  forall (elements : list t8_element_t) (i : Z) (skip : nat),
    (length (adapt_elements callback elements i skip) <= length elements)%nat.
Proof.
  induction elements as [|e rest IH]; intros i skip; [simpl; lia|].
  simpl. destruct skip as [|k].
  - destruct (_ && _); simpl; [specialize (IH (i + 1) 3%nat)
                              | specialize (IH (i + 1) 0%nat)]; lia.
  - specialize (IH (i + 1) k). lia.
Qed.

Section Final.

Variables (m : t8_messy_data_t) (live : Z).
Hypothesis Hids : allocated (data_ids (chunk m)) = true.
Hypothesis Hdata : allocated (data (chunk m)) = true.

Let st0 : coarsen_loop_t := coarsen_enter m live.

(** The state in which the loop ends is the state after its last
    completed round. *)
Lemma coarsen_final :
  exists (K : Z) (s : coarsen_loop_t),
    0 <= K <= 10
    /\ coarsen_rounds K st0 = inr s
    /\ lp_data (coarsen_loop st0) = lp_data s
    /\ lp_forest (coarsen_loop st0) = lp_forest s
    /\ lp_last_num_elements (coarsen_loop st0) = lp_last_num_elements s
    /\ lp_live (coarsen_loop st0) = lp_live s
    /\ buffers_live (lp_data s) = true
    /\ lp_live s = live + 2
    /\ (length (lp_forest s) <= length (forest m))%nat
    /\ (K = 0 -> s = st0)
    /\ (1 <= K ->
        exists s', coarsen_rounds (K - 1) st0 = inr s' /\ swapped s' s)
    /\ (forest m <> [] -> 1 <= K).
Proof.
  destruct (rounds_course m live Hids Hdata 10)
    as (K & HK & Hdone & Hswaps & Hend).
  fold st0 in Hdone, Hswaps, Hend.
  change (Z.of_nat 10) with 10 in *.
  destruct (Hdone K ltac:(lia)) as (s & Hs & _ & Hlive).
  exists K, s.
  assert (Hfinal : coarsen_loop st0 = loop_state (coarsen_rounds 10 st0))
    by reflexivity.
  assert (Hchain : forall j, 0 <= j -> j <= K ->
            exists sj, coarsen_rounds j st0 = inr sj
              /\ lp_live sj = live + 2
              /\ (length (lp_forest sj) <= length (forest m))%nat).
  { intros j Hj. pattern j. apply natlike_ind; [| |exact Hj].
    - intros _. exists st0. split; [reflexivity|]. split; [reflexivity|].
      simpl. lia.
    - intros k Hk IH Hle.
      destruct (IH ltac:(lia)) as (sk & Esk & Lk & Fk).
      destruct (Hswaps k ltac:(lia)) as (a & b & Ea & Eb & _ & _ & Hsw).
      rewrite Esk in Ea. injection Ea as <-.
      exists b. split; [exact Eb|].
      destruct Hsw as (F1 & _ & _ & _ & _ & _ & _ & _ & _ & _ & L & _).
      split; [lia|]. rewrite F1. unfold round_adapt, t8_forest_new_adapt.
      pose proof (adapt_elements_length
                    (t8_messy_coarsen_by_error_tol_callback (lp_data sk))
                    (lp_forest sk) 0 0).
      lia. }
  destruct (Hchain K ltac:(lia) ltac:(lia)) as (s' & Es' & Ls & Fs).
  rewrite Hs in Es'. injection Es' as <-.
  assert (Hfin : lp_data (coarsen_loop st0) = lp_data s
                 /\ lp_forest (coarsen_loop st0) = lp_forest s
                 /\ lp_last_num_elements (coarsen_loop st0)
                    = lp_last_num_elements s
                 /\ lp_live (coarsen_loop st0) = lp_live s).
  { rewrite Hfinal.
    destruct Hend as [[-> (s' & Hs')]|(_ & s' & sb & H1 & H2 & H3 & _)].
    - rewrite Hs. auto.
    - rewrite Hs in H1. injection H1 as <-. rewrite H3. simpl.
      exact (coarsen_round_break _ _ _ H2). }
  destruct Hfin as (F1 & F2 & F3 & F4).
  split; [lia|]. split; [exact Hs|].
  split; [exact F1|]. split; [exact F2|]. split; [exact F3|].
  split; [exact F4|]. split; [exact Hlive|]. split; [exact Ls|].
  split; [exact Fs|]. split; [|split].
  - intros ->. change (coarsen_rounds 0 st0) with (@inr coarsen_loop_t _ st0)
      in Hs. now injection Hs.
  - intros H1. destruct (Hswaps (K - 1) ltac:(lia))
      as (a & b & Ea & Eb & _ & _ & Hsw).
    replace (K - 1 + 1) with K in Eb by lia.
    rewrite Hs in Eb. injection Eb as <-. now exists a.
  - intros Hne. destruct (Z.le_gt_cases 1 K) as [H|H]; [exact H|].
    assert (K = 0) as -> by lia. exfalso.
    destruct Hend as [[E _]|(_ & s' & sb & H1 & _ & _ & _ & H5 & _)];
      [lia|].
    change (coarsen_rounds 0 st0) with (@inr coarsen_loop_t _ st0) in H1.
    injection H1 as <-.
    pose proof (adapt_not_empty st0 Hne) as Hpos.
    rewrite H5 in Hpos. simpl in Hpos. lia.
Qed.

End Final.

(** The arrays that a completed round leaves have the sizes of the adapted
    forest, and the ids are zero. *)
Lemma swapped_sizes (st st' : coarsen_loop_t) :
  swapped st st' ->
  0 <= z_length (chunk (lp_data st)) ->
  1 <= num_tracers (chunk (lp_data st)) ->
  let n := lp_last_num_elements st' in
  let c := chunk (lp_data st) in
  n = t8_forest_get_num_element (lp_forest st')
  /\ buf_len (data (chunk (lp_data st'))) = n * z_length c * num_tracers c
  /\ buf_len (errors (lp_data st')) = n * (num_tracers c - 1)
  /\ buf_len (errors_global (lp_data st')) = n * (num_tracers c - 1)
  /\ data_ids (chunk (lp_data st')) = Some (repeat 0 (Z.to_nat n)).
Proof.
  intros (F1 & F2 & F3 & F4 & F5 & F6 & _) Hzl Hnt n c. subst n c.
  destruct (round_filled_untouched st) as (_ & _ & _ & U).
  destruct (round_filled_kept st) as (_ & _ & K3 & _).
  unfold adapt_lengths in U. injection U as U1 U2 U3.
  rewrite F1, F2, F3, F4, F5, F6, K3, U1, U2, U3.
  unfold round_allocated; simpl.
  set (n := t8_forest_get_num_element (round_adapt st)).
  assert (0 <= n) by (unfold n, t8_forest_get_num_element; lia).
  rewrite !buf_len_alloc by nia.
  repeat split.
Qed.

(** The header of the coupler is the same in every state of the loop. *)
Lemma coarsen_rounds_header (k : Z) (st : coarsen_loop_t) :
  let st' := loop_state (coarsen_rounds k st) in
  coupler_header (lp_data st') = coupler_header (lp_data st)
  /\ counter (lp_data st') = counter (lp_data st)
  /\ num_elements (lp_data st') = num_elements (lp_data st).
Proof.
  unfold coarsen_rounds, for_loop_ret.
  apply (for_up_ret_prop
           (fun s =>
              coupler_header (lp_data s) = coupler_header (lp_data st)
              /\ counter (lp_data s) = counter (lp_data st)
              /\ num_elements (lp_data s) = num_elements (lp_data st)));
    [|auto].
  intros j s (H1 & H2 & H3).
  destruct (coarsen_round_header j s) as (E1 & E2 & E3).
  cbv zeta in *. rewrite E1, E2, E3. auto.
Qed.

(** X17.  [t8_messy_coarsen] changes neither the description, position,
    lengths, shape, axes, missing value, level and numbering of the chunk,
    nor the registered names, the two configurations and the forest that
    the coupler holds; it adds one to the counter and records the number
    of leaves it ended with.  As the coupler still holds the forest it had
    before the call, [t8_messy_get_max_number_elements] answers after the
    call what it answered before. *)
Theorem coarsen_keeps_header (m : t8_messy_data_t) (live : Z)
    (res : coarsen_loop_t) :
  t8_messy_coarsen m live = Some res ->
  coupler_header (lp_data res) = coupler_header m
  /\ counter (lp_data res) = counter m + 1
  /\ num_elements (lp_data res) = lp_last_num_elements res
  /\ t8_messy_get_max_number_elements (lp_data res)
     = t8_messy_get_max_number_elements m.
Proof.
  intros Hres. apply t8_messy_coarsen_result in Hres. subst res.
  destruct (coarsen_rounds_header ROUNDS (coarsen_enter m live))
    as (H1 & H2 & _).
  cbv zeta in *.
  change (loop_state (coarsen_rounds ROUNDS (coarsen_enter m live)))
    with (coarsen_loop (coarsen_enter m live)) in *.
  assert (Hh : coupler_header
                 (lp_data (coarsen_leave (coarsen_loop (coarsen_enter m live))))
               = coupler_header m) by exact H1.
  split; [exact Hh|].
  split; [simpl; rewrite H2; reflexivity|].
  split; [reflexivity|].
  exact (f_equal
           (fun h : _ * _ * t8_forest_t * _ * _ =>
              t8_forest_get_num_element (snd (fst (fst h)))) Hh).
Qed.

Lemma coarsen_keeps_header_witness :
  coupler_header (lp_data coarsened_4x4) = coupler_header coupler_4x4
  /\ counter (lp_data coarsened_4x4) = counter coupler_4x4 + 1
  /\ num_elements (lp_data coarsened_4x4)
     = lp_last_num_elements coarsened_4x4
  /\ t8_messy_get_max_number_elements (lp_data coarsened_4x4)
     = t8_messy_get_max_number_elements coupler_4x4.
Proof.
  apply (coarsen_keeps_header coupler_4x4 2 coarsened_4x4).
  vm_compute. reflexivity.
Defined.

Section AfterCoarsen.

Variables (m : t8_messy_data_t) (live : Z) (res : coarsen_loop_t).
Hypothesis Hids : allocated (data_ids (chunk m)) = true.
Hypothesis Hdata : allocated (data (chunk m)) = true.
Hypothesis Hres : t8_messy_coarsen m live = Some res.

(** The facts about the end of the loop, for the result of the call. *)
Lemma coarsen_result_final :
  exists (K : Z) (s : coarsen_loop_t),
    0 <= K <= 10
    /\ coarsen_rounds K (coarsen_enter m live) = inr s
    /\ chunk (lp_data res) = chunk (lp_data s)
    /\ errors (lp_data res) = errors (lp_data s)
    /\ errors_global (lp_data res) = errors_global (lp_data s)
    /\ errors_adapt (lp_data res) = errors_adapt (lp_data s)
    /\ errors_adapt_global (lp_data res) = errors_adapt_global (lp_data s)
    /\ num_elements (lp_data res) = lp_last_num_elements s
    /\ lp_forest res = lp_forest s
    /\ lp_live res = lp_live s
    /\ buffers_live (lp_data s) = true
    /\ lp_live s = live + 2
    /\ (length (lp_forest s) <= length (forest m))%nat
    /\ (K = 0 -> s = coarsen_enter m live)
    /\ (1 <= K ->
        exists s', coarsen_rounds (K - 1) (coarsen_enter m live) = inr s'
                   /\ swapped s' s)
    /\ (forest m <> [] -> 1 <= K).
Proof.
  pose proof (t8_messy_coarsen_result _ _ _ Hres) as E.
  destruct (coarsen_final m live Hids Hdata)
    as (K & s & HK & Hs & F1 & F2 & F3 & F4 & Hl & Hlive & Hlen & H0 & H1
        & Hne).
  exists K, s. subst res. simpl.
  rewrite F1, F2, F3, F4. repeat split; try assumption; try lia.
Qed.

End AfterCoarsen.

(** The lengths that two couplers with the same header share. *)
Lemma header_lengths (m m' : t8_messy_data_t) :
  coupler_header m' = coupler_header m ->
  x_length (chunk m') = x_length (chunk m)
  /\ y_length (chunk m') = y_length (chunk m)
  /\ z_length (chunk m') = z_length (chunk m)
  /\ num_tracers (chunk m') = num_tracers (chunk m)
  /\ numbering (chunk m') = numbering (chunk m)
  /\ tracer_names (chunk m') = tracer_names (chunk m)
  /\ forest m' = forest m.
Proof.
  unfold coupler_header, chunk_header. intros H.
  injection H. intros. repeat split; assumption.
Qed.

Section Sizes.

Variables (m : t8_messy_data_t) (live : Z) (res : coarsen_loop_t).
Hypothesis Hids : allocated (data_ids (chunk m)) = true.
Hypothesis Hdata : allocated (data (chunk m)) = true.
Hypothesis Hres : t8_messy_coarsen m live = Some res.
Hypothesis Hforest : forest m <> [].
Hypothesis Hzl : 0 <= z_length (chunk m).
Hypothesis Hnt : 1 <= num_tracers (chunk m).

(** The arrays of the result, when at least one round was completed. *)
Lemma coarsen_result_sizes :
  let n := num_elements (lp_data res) in
  let c := chunk (lp_data res) in
  n = t8_forest_get_num_element (lp_forest res)
  /\ buf_len (data c) = n * z_length (chunk m) * num_tracers (chunk m)
  /\ buf_len (errors (lp_data res)) = n * (num_tracers (chunk m) - 1)
  /\ buf_len (errors_global (lp_data res))
     = n * (num_tracers (chunk m) - 1)
  /\ data_ids c = Some (repeat 0 (Z.to_nat n))
  /\ data_adapt c = None /\ data_ids_adapt c = None
  /\ errors_adapt (lp_data res) = None
  /\ errors_adapt_global (lp_data res) = None.
Proof.
  destruct (coarsen_result_final m live res Hids Hdata Hres)
    as (K & s & HK & Hs & Ec & Ee & Eg & Ea & Eag & En & Ef & _ & _ & _ & _
        & _ & H1 & Hne).
  destruct (H1 (Hne Hforest)) as (s' & Hs' & Hsw).
  destruct (coarsen_rounds_header (K - 1) (coarsen_enter m live))
    as (Hh & _ & _).
  cbv zeta in Hh. rewrite Hs' in Hh. simpl loop_state in Hh.
  change (coupler_header (lp_data (coarsen_enter m live)))
    with (coupler_header m) in Hh.
  destruct (header_lengths _ _ Hh) as (_ & _ & Ezl & Ent & _).
  destruct (swapped_sizes s' s Hsw ltac:(lia) ltac:(lia))
    as (S1 & S2 & S3 & S4 & S5).
  destruct Hsw as (_ & _ & _ & _ & _ & _ & A1 & A2 & A3 & A4 & _).
  cbv zeta. rewrite Ec, Ee, Eg, Ea, Eag, En, Ef.
  rewrite Ezl, Ent in *.
  repeat split; assumption.
Qed.

End Sizes.

(** X18.  After [t8_messy_coarsen] on a coupler with a non-empty forest,
    the recorded number of elements [n] is the number of leaves of the
    forest the loop ended with, the data array holds [n * z_length *
    num_tracers] scalars, and each of the two error arrays holds
    [n * (num_tracers - 1)]. *)
Theorem coarsen_sizes (m : t8_messy_data_t) (live : Z)
    (res : coarsen_loop_t) :
  allocated (data_ids (chunk m)) = true ->
  allocated (data (chunk m)) = true ->
  t8_messy_coarsen m live = Some res ->
  forest m <> [] ->
  0 <= z_length (chunk m) ->
  1 <= num_tracers (chunk m) ->
  let n := num_elements (lp_data res) in
  let c := chunk (lp_data res) in
  n = t8_forest_get_num_element (lp_forest res)
  /\ buf_len (data c) = n * z_length c * num_tracers c
  /\ buf_len (errors (lp_data res)) = n * (num_tracers c - 1)
  /\ buf_len (errors_global (lp_data res)) = n * (num_tracers c - 1).
Proof.
  intros Hids Hdata Hres Hforest Hzl Hnt n c. subst n c.
  destruct (coarsen_result_sizes m live res Hids Hdata Hres Hforest Hzl Hnt)
    as (S1 & S2 & S3 & S4 & _).
  cbv zeta in *.
  apply t8_messy_coarsen_result in Hres.
  destruct (coarsen_rounds_header ROUNDS (coarsen_enter m live))
    as (Hh & _ & _).
  cbv zeta in Hh.
  change (coupler_header
            (lp_data
               (loop_state (coarsen_rounds ROUNDS (coarsen_enter m live)))))
    with (coupler_header (lp_data (coarsen_leave
            (coarsen_loop (coarsen_enter m live))))) in Hh.
  rewrite <- Hres in Hh.
  change (coupler_header (lp_data (coarsen_enter m live)))
    with (coupler_header m) in Hh.
  destruct (header_lengths _ _ Hh) as (_ & _ & -> & -> & _).
  auto.
Qed.

Lemma coarsen_sizes_witness :
  let n := num_elements (lp_data coarsened_4x4) in
  let c := chunk (lp_data coarsened_4x4) in
  n = t8_forest_get_num_element (lp_forest coarsened_4x4)
  /\ buf_len (data c) = n * z_length c * num_tracers c
  /\ buf_len (errors (lp_data coarsened_4x4)) = n * (num_tracers c - 1)
  /\ buf_len (errors_global (lp_data coarsened_4x4))
     = n * (num_tracers c - 1).
Proof.
  apply (coarsen_sizes coupler_4x4 2 coarsened_4x4);
    vm_compute; solve [reflexivity | intro; discriminate].
Defined.

(** X19.  [t8_messy_coarsen] does not compute the ids of the leaves it
    ends with: after a call on a non-empty forest the array [data_ids]
    holds one zero for each element, as allocated, and the four adapt
    pointers are [NULL]. *)
Theorem coarsen_zero_ids (m : t8_messy_data_t) (live : Z)
    (res : coarsen_loop_t) :
  allocated (data_ids (chunk m)) = true ->
  allocated (data (chunk m)) = true ->
  t8_messy_coarsen m live = Some res ->
  forest m <> [] ->
  0 <= z_length (chunk m) ->
  1 <= num_tracers (chunk m) ->
  data_ids (chunk (lp_data res))
  = Some (repeat 0 (Z.to_nat (num_elements (lp_data res))))
  /\ (data_adapt (chunk (lp_data res)), data_ids_adapt (chunk (lp_data res)),
      errors_adapt (lp_data res), errors_adapt_global (lp_data res))
     = (None, None, None, None).
Proof.
  intros Hids Hdata Hres Hforest Hzl Hnt.
  destruct (coarsen_result_sizes m live res Hids Hdata Hres Hforest Hzl Hnt)
    as (_ & _ & _ & _ & S5 & -> & -> & -> & ->).
  split; [exact S5 | reflexivity].
Qed.

Lemma coarsen_zero_ids_witness :
  data_ids (chunk (lp_data coarsened_4x4))
  = Some (repeat 0 (Z.to_nat (num_elements (lp_data coarsened_4x4))))
  /\ (data_adapt (chunk (lp_data coarsened_4x4)),
      data_ids_adapt (chunk (lp_data coarsened_4x4)),
      errors_adapt (lp_data coarsened_4x4),
      errors_adapt_global (lp_data coarsened_4x4))
     = (None, None, None, None).
Proof.
  apply (coarsen_zero_ids coupler_4x4 2 coarsened_4x4);
    vm_compute; solve [reflexivity | intro; discriminate].
Defined.

(** X20.  A call of [t8_messy_coarsen] leaves two buffers more alive than
    it found: the two error arrays it allocates on entry, whatever the
    error pointers held before.  Each round frees as many buffers as it
    allocates, and the four arrays of the coupler are allocated at the
    end. *)
Theorem coarsen_ledger (m : t8_messy_data_t) (live : Z)
    (res : coarsen_loop_t) :
  allocated (data_ids (chunk m)) = true ->
  allocated (data (chunk m)) = true ->
  t8_messy_coarsen m live = Some res ->
  lp_live res = live + 2
  /\ buffers_live (lp_data res) = true.
Proof.
  intros Hids Hdata Hres.
  destruct (coarsen_result_final m live res Hids Hdata Hres)
    as (K & s & _ & _ & Ec & Ee & Eg & _ & _ & _ & _ & El & Hl & Hlive & _).
  split; [lia|].
  unfold buffers_live in *. now rewrite Ec, Ee, Eg.
Qed.

Lemma coarsen_ledger_witness :
  lp_live coarsened_4x4 = 2 + 2
  /\ buffers_live (lp_data coarsened_4x4) = true.
Proof.
  apply (coarsen_ledger coupler_4x4 2 coarsened_4x4);
    vm_compute; reflexivity.
Defined.

(** X21.  With the forest of the model, whose adaption merges families
    and never refines, the number of elements that [t8_messy_coarsen]
    records is at most [t8_messy_get_max_number_elements] of the coupler
    before (and after) the call. *)
Theorem coarsen_never_grows (m : t8_messy_data_t) (live : Z)
    (res : coarsen_loop_t) :
  allocated (data_ids (chunk m)) = true ->
  allocated (data (chunk m)) = true ->
  t8_messy_coarsen m live = Some res ->
  0 <= num_elements (lp_data res) <= t8_messy_get_max_number_elements m
  /\ (t8_forest_get_num_element (lp_forest res)
      <= t8_messy_get_max_number_elements m).
Proof.
  intros Hids Hdata Hres.
  destruct (coarsen_result_final m live res Hids Hdata Hres)
    as (K & s & HK & _ & _ & _ & _ & _ & _ & En & Ef & _ & _ & _ & Hlen
        & H0 & H1 & _).
  unfold t8_messy_get_max_number_elements, t8_forest_get_num_element.
  rewrite En, Ef. split; [|lia].
  destruct (Z.eq_dec K 0) as [EK|NK].
  - rewrite (H0 EK). simpl. lia.
  - destruct (H1 ltac:(lia)) as (s' & _ & Hsw).
    destruct Hsw as (F1 & F2 & _). rewrite F2, <- F1.
    unfold t8_forest_get_num_element. lia.
Qed.

Lemma coarsen_never_grows_witness :
  0 <= num_elements (lp_data coarsened_4x4)
    <= t8_messy_get_max_number_elements coupler_4x4
  /\ (t8_forest_get_num_element (lp_forest coarsened_4x4)
      <= t8_messy_get_max_number_elements coupler_4x4).
Proof.
  apply (coarsen_never_grows coupler_4x4 2 coarsened_4x4);
    vm_compute; reflexivity.
Defined.

(** X22.  What [t8_messy_coarsen] does is the same for every pair of
    configurations that passes its assertions: two calls on couplers that
    differ in nothing but their configurations give results that differ
    in nothing but these configurations. *)
Theorem coarsen_config_independent (m : t8_messy_data_t) (live : Z)
    (c c' : option t8_messy_coarsen_t)
    (i i' : option t8_messy_interpolate_t) (res res' : coarsen_loop_t) :
  t8_messy_coarsen (with_configs c i m) live = Some res ->
  t8_messy_coarsen (with_configs c' i' m) live = Some res' ->
  res' = loop_with_configs c' i' res.
Proof.
  intros H H'.
  apply t8_messy_coarsen_result in H. apply t8_messy_coarsen_result in H'.
  rewrite coarsen_loop_with_configs in H, H'.
  subst res res'. reflexivity.
Qed.

Lemma coarsen_config_independent_witness :
  coarsened_4x4
  = loop_with_configs config_error_tol config_mean
      (coarsen_leave
         (coarsen_loop
            (coarsen_enter
               (with_configs config_max_lower config_min coupler_4x4) 2))).
Proof.
  apply (coarsen_config_independent coupler_4x4 2 config_max_lower
           config_error_tol config_min config_mean);
    vm_compute; reflexivity.
Defined.

(** * Reset *)

(** A chunk of dense shape is dense once its data array is allocated
    anew. *)
Lemma dense_shape_alloc (c : t8_latlon_data_chunk_t) :
  dense_shape c = true ->
  dense_chunk
    (set_data c
       (T8_ALLOC_ZERO 0%float
          (x_length c * y_length c * z_length c * num_tracers c))) = true.
Proof.
  intros Hshape.
  assert (Hpos : 0 <= x_length c * y_length c * z_length c * num_tracers c).
  { unfold dense_shape in Hshape.
    repeat (apply andb_prop in Hshape;
            let H := fresh "H" in destruct Hshape as [Hshape H]).
    apply Nat.eqb_eq in Hshape.
    destruct (shape c) as [|s0 [|s1 [|s2 [|? ?]]]] eqn:Hs;
      try discriminate Hshape.
    change (int_at [s0; s1; s2] 0) with s0 in *.
    change (int_at [s0; s1; s2] 1) with s1 in *.
    change (int_at [s0; s1; s2] 2) with s2 in *.
    repeat match goal with
           | H : (_ <? _) = true |- _ => apply Z.ltb_lt in H
           | H : (_ <=? _) = true |- _ => apply Z.leb_le in H
           | H : (_ =? _) = true |- _ => apply Z.eqb_eq in H
           end.
    assert (Hax : forall a, a = 0 \/ a = 1 \/ a = 2 ->
              0 < int_at [s0; s1; s2] a)
      by (intros a [->|[->| ->]]; assumption).
    assert (Hperm : (x_axis c = 0 \/ x_axis c = 1 \/ x_axis c = 2)
                    /\ (y_axis c = 0 \/ y_axis c = 1 \/ y_axis c = 2)
                    /\ (z_axis c = 0 \/ z_axis c = 1 \/ z_axis c = 2)).
    { unfold axes_permutation in *. simpl existsb in *.
      repeat match goal with
             | H : (_ || _) = true |- _ =>
                 apply orb_prop in H; destruct H as [H|H]
             | H : (_ && _) = true |- _ =>
                 apply andb_prop in H; destruct H as [? ?]
             | H : (_ =? _) = true |- _ => apply Z.eqb_eq in H
             | H : false = true |- _ => discriminate H
             end; lia. }
    destruct Hperm as (Px & Py & Pz).
    pose proof (Hax _ Px). pose proof (Hax _ Py). pose proof (Hax _ Pz).
    repeat apply Z.mul_nonneg_nonneg; lia. }
  unfold dense_chunk. unfold dense_shape in Hshape. simpl.
  rewrite buf_len_alloc by exact Hpos.
  rewrite Z.eqb_refl.
  apply andb_true_intro. split; [exact Hshape | reflexivity].
Qed.

(** X23.  [t8_messy_reset] always leaves the four error pointers [NULL]
    and the chunk in the dense numbering, and keeps the registered names,
    the configurations, the forest, the counter and the recorded number of
    elements; a chunk that is in the dense numbering already keeps its
    arrays.  A second reset changes nothing and frees nothing. *)
Theorem reset_result (m : t8_messy_data_t) (live live' : Z) :
  let r := fst (t8_messy_reset m live) in
  (errors r, errors_adapt r, errors_global r, errors_adapt_global r)
  = (None, None, None, None)
  /\ numbering (chunk r) = T8_LATLON_DATA_MESSY
  /\ (tracer_names (chunk r), coarsen r, interpolation r, forest r,
      counter r, num_elements r)
     = (tracer_names (chunk m), coarsen m, interpolation m, forest m,
        counter m, num_elements m)
  /\ (numbering (chunk m) = T8_LATLON_DATA_MESSY -> chunk r = chunk m)
  /\ t8_messy_reset r live' = (r, live').
Proof.
  unfold t8_messy_reset. simpl.
  destruct (numbering (chunk m)) eqn:E; simpl.
  - rewrite E. repeat split.
  - repeat split. discriminate.
Qed.

(** X24.  The reset of a chunk in Morton numbering whose lengths, shape
    and axes are those of a dense chunk gives a dense chunk again, with
    every scalar zero; the names stay registered, so that a name resolves
    after the reset to the tracer index it had before. *)
Theorem reset_restores_dense (m : t8_messy_data_t) (live : Z) :
  dense_shape (chunk m) = true ->
  numbering (chunk m) = T8_LATLON_DATA_MORTON ->
  let r := fst (t8_messy_reset m live) in
  dense_chunk (chunk r) = true
  /\ (forall j, rd (data (chunk r)) j = 0%float)
  /\ buf_len (data_ids (chunk r))
     = x_length (chunk m) * y_length (chunk m)
  /\ (forall name,
        resolved_index (chunk r) name = resolved_index (chunk m) name).
Proof.
  intros Hshape Hnum r. subst r.
  unfold t8_messy_reset. simpl. rewrite Hnum. simpl.
  split; [exact (dense_shape_alloc _ Hshape)|].
  split; [intros j; apply rd_alloc|].
  split.
  - pose proof (dense_shape_alloc _ Hshape) as Hd.
    destruct (dense_chunk_facts _ Hd)
      as (s0 & s1 & s2 & Hs & P0 & P1 & P2 & Hperm & Exl & Eyl & _).
    simpl in Hs, Exl, Eyl, Hperm.
    assert (0 < x_length (chunk m) /\ 0 < y_length (chunk m)).
    { rewrite Exl, Eyl, Hs.
      destruct Hperm as [(-> & -> & _)|[(-> & -> & _)|[(-> & -> & _)|
                        [(-> & -> & _)|[(-> & -> & _)|(-> & -> & _)]]]]];
        split; assumption. }
    unfold buf_len, T8_ALLOC_ZERO. simpl. rewrite repeat_length. nia.
  - intros name.
    unfold resolved_index, t8_latlon_get_tracer_idx, tracer_names_size.
    simpl.
    destruct (0 <=? _); [reflexivity|]. destruct (_ <? _); reflexivity.
Qed.

Lemma reset_restores_dense_witness :
  let r := fst (t8_messy_reset (lp_data coarsened_4x4) 4) in
  dense_chunk (chunk r) = true
  /\ (forall j, rd (data (chunk r)) j = 0%float)
  /\ buf_len (data_ids (chunk r))
     = x_length (chunk (lp_data coarsened_4x4))
       * y_length (chunk (lp_data coarsened_4x4))
  /\ (forall name,
        resolved_index (chunk r) name
        = resolved_index (chunk (lp_data coarsened_4x4)) name).
Proof.
  apply (reset_restores_dense (lp_data coarsened_4x4) 4);
    vm_compute; reflexivity.
Defined.

(** X25.  [t8_messy_reset] after [t8_messy_coarsen] gives back the
    buffers the coarsening has added: as many buffers are alive after the
    reset as before the coarsening, in either numbering. *)
Theorem coarsen_then_reset (m : t8_messy_data_t) (live : Z)
    (res : coarsen_loop_t) :
  allocated (data_ids (chunk m)) = true ->
  allocated (data (chunk m)) = true ->
  t8_messy_coarsen m live = Some res ->
  forest m <> [] ->
  0 <= z_length (chunk m) ->
  1 <= num_tracers (chunk m) ->
  snd (t8_messy_reset (lp_data res) (lp_live res)) = live.
Proof.
  intros Hids Hdata Hres Hforest Hzl Hnt.
  destruct (coarsen_result_sizes m live res Hids Hdata Hres Hforest Hzl Hnt)
    as (_ & _ & _ & _ & S5 & A1 & A2 & A3 & A4).
  destruct (coarsen_result_final m live res Hids Hdata Hres)
    as (K & s & _ & _ & Ec & Ee & Eg & _ & _ & _ & _ & El & Hl & Hlive & _).
  cbv zeta in *.
  unfold buffers_live in Hl. rewrite <- Ec, <- Ee, <- Eg in Hl.
  apply andb_prop in Hl. destruct Hl as [Hl L4].
  apply andb_prop in Hl. destruct Hl as [Hl L3].
  apply andb_prop in Hl. destruct Hl as [L1 L2].
  unfold t8_messy_reset. rewrite A3, A4. simpl.
  destruct (errors (lp_data res)); [|discriminate L3].
  destruct (errors_global (lp_data res)); [|discriminate L4].
  simpl. rewrite A1, A2.
  destruct (numbering (chunk (lp_data res))); simpl; [lia|].
  destruct (data (chunk (lp_data res))); [|discriminate L2].
  destruct (data_ids (chunk (lp_data res))); [|discriminate L1].
  simpl. lia.
Qed.

Lemma coarsen_then_reset_witness :
  snd (t8_messy_reset (lp_data coarsened_4x4) (lp_live coarsened_4x4)) = 2.
Proof.
  apply (coarsen_then_reset coupler_4x4 2 coarsened_4x4);
    vm_compute; solve [reflexivity | intro; discriminate].
Defined.

(** * The output of a tracer *)

Section Output.

Variables (m : t8_messy_data_t) (name : string) (out : buffer double).

Let n : Z := num_elements m.
Let zl : Z := z_length (chunk m).
Let k : Z :=
  fst (t8_latlon_get_tracer_idx (chunk m) (trimwhitespace BUFSIZ name) false).

Hypothesis Hn : 0 <= n.
Hypothesis Hzl : 0 <= zl.
Hypothesis Hout : zl * n <= buf_len out.

(** The two loops of [t8_messy_write_tracer_values]: after the layers
    below [z] the running index is [z * n], the output holds the values of
    these layers, and the rest of it is as it was. *)
Lemma write_loops :
  let st :=
    for_loop 0 zl
      (fun z st =>
         for_loop 0 n
           (fun element (st : Z * buffer double) =>
              (fst st + 1,
               wr (snd st) (fst st)
                  (rd (data (chunk m))
                      (element * (zl * num_tracers (chunk m))
                       + z * num_tracers (chunk m) + k))))
           st)
      (0, out) in
  fst st = zl * n
  /\ buf_len (snd st) = buf_len out
  /\ (forall z e, 0 <= z < zl -> 0 <= e < n ->
        rd (snd st) (z * n + e) = leaf_value m e z k)
  /\ (forall j, j < 0 \/ zl * n <= j -> rd (snd st) j = rd out j).
Proof.
  pose (Inv := fun (z : Z) (st : Z * buffer double) =>
    fst st = z * n
    /\ buf_len (snd st) = buf_len out
    /\ (forall z' e, 0 <= z' < z -> 0 <= e < n ->
          rd (snd st) (z' * n + e) = leaf_value m e z' k)
    /\ (forall j, j < 0 \/ z * n <= j -> rd (snd st) j = rd out j)).
  cbv zeta.
  match goal with |- fst ?F = _ /\ _ => assert (HI : Inv zl F) end.
  2: { exact HI. }
  apply (for_loop_inv Inv); [exact Hzl | |].
  { split; [simpl; lia|]. split; [reflexivity|].
    split; [intros; lia | reflexivity]. }
  intros z st Hz (Hi & Hl & Hprev & Hrest).
  pose (Q := fun (e : Z) (st' : Z * buffer double) =>
    fst st' = z * n + e
    /\ buf_len (snd st') = buf_len out
    /\ (forall z' e', 0 <= z' < z -> 0 <= e' < n ->
          rd (snd st') (z' * n + e') = leaf_value m e' z' k)
    /\ (forall e', 0 <= e' < e ->
          rd (snd st') (z * n + e') = leaf_value m e' z k)
    /\ (forall j, j < 0 \/ z * n + e <= j -> rd (snd st') j = rd out j)).
  match goal with |- Inv _ ?F => assert (HQ : Q n F) end.
  2: { destruct HQ as (Q1 & Q2 & Q3 & Q4 & Q5).
       split; [lia|]. split; [exact Q2|]. split.
       - intros z' e Hz' He.
         destruct (Z.eq_dec z' z) as [->|Hne];
           [apply Q4; exact He | apply Q3; lia].
       - intros j Hj. apply Q5. lia. }
  apply (for_loop_inv Q); [exact Hn | |].
  { split; [lia|]. split; [exact Hl|]. split; [exact Hprev|].
    split; [intros; lia|]. intros j Hj. apply Hrest. lia. }
  intros e st' He (Q1 & Q2 & Q3 & Q4 & Q5). unfold Q. cbn [fst snd].
  rewrite Q1.
  split; [lia|]. split; [now rewrite buf_len_wr|].
  split; [|split].
  - intros z' e' Hz' He'. rewrite rd_wr_other by nia. apply Q3; assumption.
  - intros e' He'. destruct (Z.eq_dec e' e) as [->|Hne].
    + rewrite rd_wr_same by (rewrite Q2; nia).
      unfold leaf_value. f_equal. subst zl. ring.
    + rewrite rd_wr_other by lia. apply Q4. lia.
  - intros j Hj. rewrite rd_wr_other by lia. apply Q5. lia.
Qed.

End Output.

(** X26.  [t8_messy_write_tracer_values] writes the tracer layer by
    layer: for [n] recorded elements, the value of element [e] at layer [z]
    goes to [data[z * n + e]].  The output array must hold [z_length * n]
    doubles; what lies behind them is left as it is.  The tracer index is
    that of the trimmed name, and [-1] for a name that is not registered,
    which is not rejected. *)
Theorem write_tracer_values_layout (m : t8_messy_data_t) (name : string)
    (out : buffer double) :
  0 <= num_elements m ->
  0 <= z_length (chunk m) ->
  z_length (chunk m) * num_elements m <= buf_len out ->
  let out' := t8_messy_write_tracer_values m name out in
  let k := fst (t8_latlon_get_tracer_idx (chunk m)
                  (trimwhitespace BUFSIZ name) false) in
  (forall z e, 0 <= z < z_length (chunk m) -> 0 <= e < num_elements m ->
     rd out' (z * num_elements m + e) = leaf_value m e z k)
  /\ buf_len out' = buf_len out
  /\ (forall j, z_length (chunk m) * num_elements m <= j ->
        rd out' j = rd out j)
  /\ (registered (chunk m) (trimwhitespace BUFSIZ name) = false -> k = -1).
Proof.
  intros Hn Hzl Hout out' k. subst out' k.
  destruct (write_loops m name out Hn Hzl Hout) as (_ & W2 & W3 & W4).
  cbv zeta in *. unfold t8_messy_write_tracer_values.
  split; [exact W3|]. split; [exact W2|].
  split; [intros j Hj; apply W4; lia|].
  unfold registered, t8_latlon_get_tracer_idx. intros ->. reflexivity.
Qed.

Lemma write_tracer_values_layout_witness :
  let m := lp_data coarsened_4x4 in
  let out := T8_ALLOC_ZERO 0%float 1 in
  let out' := t8_messy_write_tracer_values m "tracer" out in
  let k := fst (t8_latlon_get_tracer_idx (chunk m)
                  (trimwhitespace BUFSIZ "tracer") false) in
  (forall z e, 0 <= z < z_length (chunk m) -> 0 <= e < num_elements m ->
     rd out' (z * num_elements m + e) = leaf_value m e z k)
  /\ buf_len out' = buf_len out
  /\ (forall j, z_length (chunk m) * num_elements m <= j ->
        rd out' j = rd out j)
  /\ (registered (chunk m) (trimwhitespace BUFSIZ "tracer") = false ->
      k = -1).
Proof.
  apply (write_tracer_values_layout (lp_data coarsened_4x4) "tracer"
           (T8_ALLOC_ZERO 0%float 1));
    vm_compute; intro; discriminate.
Defined.

(** X27.  After [t8_messy_coarsen], an output array of [z_length] times
    [t8_messy_get_max_number_elements] doubles is large enough for
    [t8_messy_write_tracer_values] (with the forest of the model, whose
    adaption never refines): the value of element [e] of the coarsened
    data at layer [z] is at [z * n + e], [n] being the recorded number of
    elements. *)
Theorem write_after_coarsen (m : t8_messy_data_t) (live : Z)
    (res : coarsen_loop_t) (name : string) (out : buffer double)
    (z e : Z) :
  allocated (data_ids (chunk m)) = true ->
  allocated (data (chunk m)) = true ->
  t8_messy_coarsen m live = Some res ->
  z_length (chunk m) * t8_messy_get_max_number_elements m <= buf_len out ->
  0 <= z < z_length (chunk m) ->
  0 <= e < num_elements (lp_data res) ->
  let md := lp_data res in
  let out' := t8_messy_write_tracer_values md name out in
  let k := fst (t8_latlon_get_tracer_idx (chunk md)
                  (trimwhitespace BUFSIZ name) false) in
  rd out' (z * num_elements md + e) = leaf_value md e z k.
Proof.
  intros Hids Hdata Hres Hout Hz He md out' k. subst md out' k.
  assert (Hzl : 0 <= z_length (chunk m)) by lia.
  destruct (coarsen_result_final m live res Hids Hdata Hres)
    as (K & s & HK & _ & _ & _ & _ & _ & _ & En & Ef & _ & _ & _ & Hlen
        & H0 & H1 & _).
  assert (Hmax : 0 <= num_elements (lp_data res)
                   <= t8_messy_get_max_number_elements m).
  { unfold t8_messy_get_max_number_elements, t8_forest_get_num_element.
    rewrite En.
    destruct (Z.eq_dec K 0) as [EK|NK].
    - rewrite (H0 EK). simpl. lia.
    - destruct (H1 ltac:(lia)) as (s' & _ & Hsw).
      destruct Hsw as (F1 & F2 & _). rewrite F2, <- F1.
      unfold t8_forest_get_num_element. lia. }
  pose proof (t8_messy_coarsen_result _ _ _ Hres) as Er.
  destruct (coarsen_rounds_header ROUNDS (coarsen_enter m live))
    as (Hh & _ & _).
  cbv zeta in Hh.
  change (coupler_header
            (lp_data
               (loop_state (coarsen_rounds ROUNDS (coarsen_enter m live)))))
    with (coupler_header (lp_data (coarsen_leave
            (coarsen_loop (coarsen_enter m live))))) in Hh.
  rewrite <- Er in Hh.
  change (coupler_header (lp_data (coarsen_enter m live)))
    with (coupler_header m) in Hh.
  destruct (header_lengths _ _ Hh) as (_ & _ & Ezl & _).
  destruct (write_loops (lp_data res) name out) as (_ & _ & W3 & _);
    [lia | lia | rewrite Ezl; nia |].
  apply W3; [rewrite Ezl; exact Hz | exact He].
Qed.

Lemma write_after_coarsen_witness :
  let md := lp_data coarsened_4x4 in
  let out' :=
    t8_messy_write_tracer_values md "tracer" (T8_ALLOC_ZERO 0%float 16) in
  let k := fst (t8_latlon_get_tracer_idx (chunk md)
                  (trimwhitespace BUFSIZ "tracer") false) in
  rd out' (0 * num_elements md + 0) = leaf_value md 0 0 k.
Proof.
  apply (write_after_coarsen coupler_4x4 2 coarsened_4x4 "tracer"
           (T8_ALLOC_ZERO 0%float 16) 0 0);
    vm_compute; repeat split; solve [reflexivity | intro; discriminate].
Defined.

(** * Initialisation *)

(** X28.  For every axis string that holds X, Y and Z and every shape of
    positive lengths, [t8_messy_initialize] gives a coupler whose chunk is
    dense and zeroed, with no tracer registered and no error array; the
    first ingest, under any name, succeeds and takes the tracer index 0. *)
Theorem initialize_ready (null_diff : Z) (description axis : string)
    (s0 s1 s2 x_start y_start num_tracers : Z) (missing_value : double)
    (coarsen : option t8_messy_coarsen_t)
    (interpolation : option t8_messy_interpolate_t)
    (name : string) (input : list double) :
  In axis axis_strings ->
  0 < s0 -> 0 < s1 -> 0 < s2 -> 1 <= num_tracers ->
  let m := t8_messy_initialize null_diff description axis [s0; s1; s2]
             x_start y_start num_tracers missing_value coarsen
             interpolation in
  dense_chunk (chunk m) = true
  /\ tracer_names (chunk m) = []
  /\ (forall j, rd (data (chunk m)) j = 0%float)
  /\ (errors m, errors_adapt m, errors_global m, errors_adapt_global m)
     = (None, None, None, None)
  /\ resolved_index (chunk m) name = 0
  /\ exists m', t8_messy_set_tracer_values m name input = Some m'
       /\ tracer_names (chunk m') = [trimwhitespace BUFSIZ name].
Proof.
  intros Hin P0 P1 P2 Hnt m.
  split; [now apply initialize_dense|].
  split; [reflexivity|].
  split; [intros j; apply rd_alloc|].
  split; [reflexivity|].
  subst m.
  unfold resolved_index, t8_messy_set_tracer_values,
    t8_latlon_get_tracer_idx, tracer_names_size.
  destruct num_tracers as [|p|p]; try lia. simpl.
  split; [reflexivity|]. eexists. split; reflexivity.
Qed.

Lemma initialize_ready_witness :
  let m := coupler_zyx in
  dense_chunk (chunk m) = true
  /\ tracer_names (chunk m) = []
  /\ (forall j, rd (data (chunk m)) j = 0%float)
  /\ (errors m, errors_adapt m, errors_global m, errors_adapt_global m)
     = (None, None, None, None)
  /\ resolved_index (chunk m) "  q  " = 0
  /\ exists m', t8_messy_set_tracer_values m "  q  " input_zyx = Some m'
       /\ tracer_names (chunk m') = [trimwhitespace BUFSIZ "  q  "].
Proof.
  apply (initialize_ready 0 "zyx" "ZYX" 2 3 2 0 0 2 (-999)%float
           config_error_tol config_mean "  q  " input_zyx);
    [simpl; auto 10 | lia | lia | lia | lia].
Defined.

(** X29.  For an axis string that holds two of X, Y and Z, provided the
    difference that [strchr] leaves for the missing letter is outside
    [0 .. 3], [t8_messy_initialize] takes the missing axis as an axis of
    length 1 in the third slot: the axes are a permutation of 0, 1, 2, the
    grid has [shape[0] * shape[1]] cells, and with [shape[2] = 1] the chunk
    is dense. *)
Theorem initialize_two_axes (null_diff : Z) (description axis : string)
    (s0 s1 s2 x_start y_start num_tracers : Z) (missing_value : double)
    (coarsen : option t8_messy_coarsen_t)
    (interpolation : option t8_messy_interpolate_t) :
  In axis two_axis_strings ->
  null_diff < 0 \/ 3 < null_diff ->
  0 < s0 -> 0 < s1 -> 1 <= num_tracers ->
  let c := chunk (t8_messy_initialize null_diff description axis [s0; s1; s2]
                    x_start y_start num_tracers missing_value coarsen
                    interpolation) in
  axes_permutation c = true
  /\ x_length c * y_length c * z_length c = s0 * s1
  /\ int_at [x_length c; y_length c; z_length c]
       (if x_axis c =? 2 then 0 else if y_axis c =? 2 then 1 else 2) = 1
  /\ (s2 = 1 -> dense_chunk c = true).
Proof.
  intros Hin Hnull P0 P1 Hnt c. subst c.
  assert (Hf : ((0 <=? null_diff) && (null_diff <=? 3)) = false).
  { destruct Hnull as [H|H].
    - assert (E : (0 <=? null_diff) = false) by (apply Z.leb_gt; lia).
      now rewrite E.
    - assert (E : (null_diff <=? 3) = false) by (apply Z.leb_gt; lia).
      rewrite E. apply andb_false_r. }
  assert (Hb : forall n, 0 <= n ->
            (buf_len (T8_ALLOC_ZERO 0%float n) =? n) = true)
    by (intros n Hn; rewrite buf_len_alloc by lia; apply Z.eqb_refl).
  simpl in Hin.
  destruct Hin as [<-|[<-|[<-|[<-|[<-|[<-|[]]]]]]];
    unfold dense_chunk, t8_messy_initialize, t8_latlon_new_chunk,
      axes_permutation, tracer_names_size; simpl;
    rewrite Hf; simpl;
    repeat match goal with
           | |- context [int_at [s0; s1; s2] ?n] =>
               let v := eval cbv in (int_at [s0; s1; s2] n) in
               change (int_at [s0; s1; s2] n) with v
           end;
    (split; [reflexivity|]); (split; [ring|]); (split; [reflexivity|]);
    intros ->;
    rewrite Hb by (repeat apply Z.mul_nonneg_nonneg; lia);
    repeat (apply andb_true_intro; split);
    first [reflexivity | apply Z.ltb_lt; lia | apply Z.leb_le; lia
          | apply Z.eqb_refl].
Qed.

Lemma initialize_two_axes_witness :
  let c := chunk (t8_messy_initialize (-7) "yx" "YX" [3; 2; 1] 0 0 2
                    (-999)%float config_error_tol config_mean) in
  axes_permutation c = true
  /\ x_length c * y_length c * z_length c = 3 * 2
  /\ int_at [x_length c; y_length c; z_length c]
       (if x_axis c =? 2 then 0 else if y_axis c =? 2 then 1 else 2) = 1
  /\ (1 = 1 -> dense_chunk c = true).
Proof.
  apply (initialize_two_axes (-7) "yx" "YX" 3 2 1 0 0 2 (-999)%float
           config_error_tol config_mean);
    [simpl; auto 10 | lia | lia | lia | lia].
Defined.

(** * The errors of a merge *)

(** A loop that folds an operation over the indices is a fold over their
    list. *)
Lemma for_up_fold {A : Type} (f : A -> double -> A) (g : Z -> double) :
  forall (n : nat) (i : Z) (s : A),
    for_up n i (fun z e => f e (g z)) s
    = fold_left f (map (fun j => g (i + Z.of_nat j)) (seq 0 n)) s.
Proof.
  induction n as [|n IH]; intros i s; [reflexivity|].
  simpl for_up. rewrite IH. simpl seq. simpl map. simpl fold_left.
  rewrite Z.add_0_r. f_equal.
  rewrite <- seq_shift, map_map. apply map_ext.
  intros j. f_equal. lia.
Qed.

(** X30.  When four siblings merge, the local error recorded for a tracer
    of the new leaf is the maximum, taken with [fmax] layer after layer, of
    what the adapt error array held there and the largest error ratio of
    each layer; the global error recorded is the global error that the old
    array holds at the index of the new leaf, plus that local error. *)
Theorem merged_leaf_errors (m0 : t8_messy_data_t) (fo fi d : Z) :
  1 <= num_tracers (chunk m0) ->
  0 < z_length (chunk m0) ->
  0 <= fi ->
  (fi + 1) * (num_tracers (chunk m0) - 1) <= buf_len (errors_adapt m0) ->
  (fi + 1) * (num_tracers (chunk m0) - 1)
    <= buf_len (errors_adapt_global m0) ->
  0 <= d < num_tracers (chunk m0) - 1 ->
  let m1 := t8_messy_interpolate_callback2 m0 4 fo 1 fi in
  let local := rd (errors_adapt m1) (error_index m0 fi d) in
  local
  = fold_left fmax
      (map (fun z =>
              get_max
                (calculate_error_ratios 4
                   (four_values m0 fo (Z.of_nat z) d)
                   (interpolated_at m0 fo (Z.of_nat z) d)
                   (missing_value (chunk m0))) 4)
           (seq 0 (Z.to_nat (z_length (chunk m0)))))
      (rd (errors_adapt m0) (error_index m0 fi d))
  /\ rd (errors_adapt_global m1) (error_index m0 fi d)
     = fadd (rd (errors_global m0) (error_index m0 fi d)) local.
Proof.
  intros Hnt Hzl Hfi Herr Hglob Hd m1 local. subst m1 local.
  destruct (callback2_errors m0 fo fi Hnt ltac:(lia) Hfi Herr Hglob d Hd)
    as [El Eg].
  cbv zeta in El, Eg. specialize (Eg Hzl).
  rewrite Eg, El. split; [|reflexivity].
  unfold local_error_upto, for_loop.
  rewrite (for_up_fold fmax (fun z => layer_error m0 fo z d)).
  rewrite Z.sub_0_r. f_equal. apply map_ext. intros z.
  unfold layer_error. rewrite sibling_values_leaves.
  rewrite Z.add_0_l. reflexivity.
Qed.

Lemma merged_leaf_errors_witness :
  let m1 := t8_messy_interpolate_callback2 merge_plain 4 0 1 0 in
  let local := rd (errors_adapt m1) (error_index merge_plain 0 0) in
  local
  = fold_left fmax
      (map (fun z =>
              get_max
                (calculate_error_ratios 4
                   (four_values merge_plain 0 (Z.of_nat z) 0)
                   (interpolated_at merge_plain 0 (Z.of_nat z) 0)
                   (missing_value (chunk merge_plain))) 4)
           (seq 0 (Z.to_nat (z_length (chunk merge_plain)))))
      (rd (errors_adapt merge_plain) (error_index merge_plain 0 0))
  /\ rd (errors_adapt_global m1) (error_index merge_plain 0 0)
     = fadd (rd (errors_global merge_plain) (error_index merge_plain 0 0))
         local.
Proof.
  apply (merged_leaf_errors merge_plain 0 0 0);
    vm_compute; repeat split; solve [reflexivity | intro; discriminate].
Defined.

(** * Scenarios *)

Example trimwhitespace_inner_spaces :
  trimwhitespace BUFSIZ "  ab cd  " = "ab cd"%string.
Proof. reflexivity. Qed.

Example sum_skips_missing :
  Coupler.sum 4 [1; -999; 2; 4]%float (-999)%float = 7%float.
Proof. reflexivity. Qed.

Example mult_sum_skips_pairs :
  mult_sum 3 [2; -999; -999]%float [3; -999; 1]%float (-999)%float
  = (-993)%float.
Proof. reflexivity. Qed.

Example error_ratio_keeps_sign :
  calculate_error_ratios 3 [4; -4; 0]%float 3%float (-999)%float
  = [0.25; -1.75; 0]%float.
Proof. reflexivity. Qed.

(** A uniform 4 x 4 grid merges to four leaves in the first round, to one
    in the second, and the third leaves the loop: two rounds are
    reported. *)
Example uniform_grid_merges_twice :
  outcome (t8_messy_coarsen uniform_seven 2)
  = Some (2, 1%nat, Some [7; 16]%float, Some [0%float], Some [0%float])
  /\ length (lp_forest (state_after 1 (coarsen_enter uniform_seven 2)))
     = 4%nat.
Proof. split; vm_compute; reflexivity. Qed.

(** On the values 0 .. 15 no family is within the tolerance: the first
    round copies the sixteen leaves, the second leaves the loop. *)
Example ramp_is_kept :
  option_map (fun st => (lp_r st, length (lp_forest st)))
    (t8_messy_coarsen ramp 2)
  = Some (1, 16%nat)
  /\ data (chunk (lp_data (state_after 1 (coarsen_enter ramp 2))))
     = data (chunk ramp).
Proof. split; vm_compute; reflexivity. Qed.
